(** * A marketplace backend: the Express server of [server.js]

    The development embeds the persisted server (the first document of
    [src/server.js]) handler by handler, the in-memory server it grew from
    ([src/unnamed/part_000]) and the first server, which has classifieds
    only (the second document of [src/server.js]).  It proves the
    properties the specification states about them, and properties that
    relate the requests of one server to each other and the three servers
    to one another.

    Modelling conventions.
    - A JavaScript value is [option json]: [None] is [undefined].  Numbers
      are the integers ([Z]) and the two infinities, which [JSON.parse]
      returns for a numeral beyond the range of a double and which
      [JSON.stringify] writes as [null].  A counter is incremented as an
      integer, which is what [++] does to a double below [2^53]; a server
      started on an empty data directory reaches no other counter in a
      feasible run, and what is proved of an arbitrary state is proved of
      the counters in that range.
    - An object is a finite map from property names to values.  A property
      that holds [undefined] cannot be told, by a property read or by
      [JSON.stringify], from a property that is absent, so assigning
      [undefined] removes the key.
    - The module-level variables of [server.js] are the fields of [server];
      a handler is a function from the request and the state to the new
      state and the response.
    - The built-ins whose behaviour depends on Unicode or on number syntax
      ([parseInt], [parseFloat], [toLowerCase], the coercion of a string or
      an object by [>=]) are the members of the class [Runtime]; every
      theorem holds for every runtime.  [ascii_runtime] is an instance
      that evaluates. *)

From Stdlib Require Import ZArith Lia Ascii String.
From stdpp Require Import base tactics option list strings gmap fin_maps sorting.

#[local] Set Warnings "-register-all".
#[local] Open Scope Z_scope.

(** ** JSON values and JavaScript objects *)

Inductive json :=
| JNull
| JBool (b : bool)
| JNum (n : Z)
| JInf (negative : bool)
| JStr (s : string)
| JArr (l : list json)
| JObj (o : gmap string json).

Abbreviation value := (option json).
Abbreviation object := (gmap string json).

Definition undefined : value := None.
Definition null : value := Some JNull.
Definition num (n : Z) : value := Some (JNum n).
Definition str (s : string) : value := Some (JStr s).
Definition arr (l : list object) : value := Some (JArr (JObj <$> l)).
Definition obj (o : object) : value := Some (JObj o).

(** [ToBoolean]: what [if (v)], [!v] and [v || w] test. *)
Definition truthy (v : value) : bool :=
  match v with
  | None => false
  | Some JNull => false
  | Some (JBool b) => b
  | Some (JNum n) => negb (n =? 0)
  | Some (JInf _) => true
  | Some (JStr s) => negb (String.eqb s "")
  | Some (JArr _) => true
  | Some (JObj _) => true
  end.

(** [a || b] *)
Definition js_or (a b : value) : value := if truthy a then a else b.

(** [typeof v !== 'undefined'] *)
Definition defined (v : value) : bool :=
  match v with Some _ => true | None => false end.

(** [a === b].  Two arrays or two objects are equal only when they are the
    same reference; the operands the program compares come from different
    requests (or from a file and a request), so they never are. *)
Definition strict_eq (a b : value) : bool :=
  match a, b with
  | None, None => true
  | Some JNull, Some JNull => true
  | Some (JBool x), Some (JBool y) => Bool.eqb x y
  | Some (JNum x), Some (JNum y) => x =? y
  | Some (JInf x), Some (JInf y) => Bool.eqb x y
  | Some (JStr x), Some (JStr y) => String.eqb x y
  | _, _ => false
  end.

(** [o.k = v] *)
Definition assign (k : string) (v : value) (o : object) : object :=
  match v with
  | Some j => <[k:=j]> o
  | None => delete k o
  end.

(** An object literal [{k1: v1, ..., kn: vn}], properties set in order. *)
Definition literal (props : list (string * value)) : object :=
  foldl (λ o p, assign p.1 p.2 o) ∅ props.

(** ** Numbers the runtime reads from text

    What [parseInt] and [parseFloat] return is taken in the integers, or
    is [NaN]. *)

Inductive number :=
| NaN
| Num (n : Z).

Definition isNaN (x : number) : bool :=
  match x with NaN => true | Num _ => false end.

(** [v === x] for a number [x]. *)
Definition strict_eq_number (v : value) (x : number) : bool :=
  match x with
  | NaN => false
  | Num n => strict_eq v (num n)
  end.

Class Runtime := {
  (** [parseInt(s, 10)] *)
  parseInt : string → number;
  (** [parseFloat(s)], taken in the integers *)
  parseFloat : string → number;
  (** [s.toLowerCase()] *)
  toLowerCase : string → string;
  toLowerCase_empty : toLowerCase "" = "";
  (** [v >= m] for [v] a string, an array or an object, which [>=] first
      turns into a number *)
  coerced_ge : json → Z → bool;
}.

(** [t.includes(s)]: [s] occurs in [t]. *)
Fixpoint includes (t s : string) : bool :=
  String.prefix s t ||
  match t with
  | EmptyString => false
  | String _ t' => includes t' s
  end.

(** *** A runtime for ASCII text and decimal numerals *)

Definition is_space (c : ascii) : bool :=
  (Ascii.eqb c " " || Ascii.eqb c "009" || Ascii.eqb c "010" ||
   Ascii.eqb c "011" || Ascii.eqb c "012" || Ascii.eqb c "013")%bool.

Fixpoint skip_spaces (s : string) : string :=
  match s with
  | String c s' => if is_space c then skip_spaces s' else s
  | EmptyString => s
  end.

Definition digit (c : ascii) : option Z :=
  let n := Z.of_N (N_of_ascii c) in
  if (48 <=? n) && (n <=? 57) then Some (n - 48) else None.

(** The value of the longest prefix of digits, [None] when it is empty. *)
Fixpoint digits (acc : option Z) (s : string) : option Z :=
  match s with
  | String c s' =>
      match digit c with
      | Some d => digits (Some (10 * default 0 acc + d)) s'
      | None => acc
      end
  | EmptyString => acc
  end.

Definition decimal (s : string) : number :=
  let magnitude (sign : Z) (t : string) :=
    match digits None t with
    | Some n => Num (sign * n)
    | None => NaN
    end in
  match skip_spaces s with
  | String "-" t => magnitude (-1) t
  | String "+" t => magnitude 1 t
  | t => magnitude 1 t
  end.

Definition lower (c : ascii) : ascii :=
  let n := N_of_ascii c in
  if ((65 <=? n) && (n <=? 90))%N then ascii_of_N (n + 32) else c.

Fixpoint lowercase (s : string) : string :=
  match s with
  | String c s' => String (lower c) (lowercase s')
  | EmptyString => EmptyString
  end.

(** Exact on decimal integer numerals and on ASCII text; a string that is
    compared with a number counts when it is a decimal numeral. *)
Definition ascii_runtime : Runtime := {|
  parseInt := decimal;
  parseFloat := decimal;
  toLowerCase := lowercase;
  toLowerCase_empty := eq_refl;
  coerced_ge j m :=
    match j with
    | JStr s => match decimal s with Num n => m <=? n | NaN => false end
    | _ => false
    end;
|}.

(** ** Exceptions *)

Inductive exn := ENOENT | EACCES | SyntaxError | TypeError.

Inductive outcome (A : Type) :=
| Return (a : A)
| Throw (e : exn).
Arguments Return {A} a.
Arguments Throw {A} e.

#[global] Instance outcome_bind : MBind outcome := λ A B k m,
  match m with
  | Return a => k a
  | Throw e => Throw e
  end.

(** [try { body } catch (err) { handler }] *)
Definition try_catch {A} (body : outcome A) (handler : exn → outcome A) : outcome A :=
  match body with
  | Return a => Return a
  | Throw e => handler e
  end.

(** [l.filter(f)] for a callback that can throw: the first throw ends it. *)
Fixpoint filterM {A} (f : A → outcome bool) (l : list A) : outcome (list A) :=
  match l with
  | [] => Return []
  | x :: l' =>
      keep ← f x;
      rest ← filterM f l';
      Return (if keep : bool then x :: rest else rest)
  end.

(** [l.find(f)] with the position of what it finds: the program updates
    the element it finds in place. *)
Definition find {A} (f : A → bool) (l : list A) : option (nat * A) :=
  list_find (λ a, f a = true) l.

(** [l.findIndex(f)], [None] for [-1]. *)
Definition findIndex {A} (f : A → bool) (l : list A) : option nat :=
  fst <$> find f l.

(** ** The data directory

    A file is the text in it; the model keeps what [JSON.parse] makes of
    the text.  [JSON.stringify] writes [null] for a number that is not
    finite, wherever it stands in the document, and for everything else
    text that [JSON.parse] reads back as it was: [written j] is what
    [JSON.parse] makes of the text written for [j].

    [fs.writeFileSync] is taken to succeed.  When it fails (a directory in
    the place of the file, no permission, no space) the handler has
    changed its variables already and Express answers 500; the model does
    not cover those runs, and what is proved of a request that writes a
    file is proved of the request whose write succeeds. *)

Inductive content :=
| Garbled (raw : string)
| Document (doc : json).

Inductive inode :=
| Unreadable
| File (text : content).

Abbreviation disk := (gmap string inode).

Definition readFileSync (d : disk) (filePath : string) : outcome content :=
  match d !! filePath with
  | None => Throw ENOENT
  | Some Unreadable => Throw EACCES
  | Some (File text) => Return text
  end.

Definition writeFileSync (filePath : string) (text : content) (d : disk) : disk :=
  <[filePath := File text]> d.

Definition JSON_parse (text : content) : outcome json :=
  match text with
  | Garbled _ => Throw SyntaxError
  | Document doc => Return doc
  end.

Fixpoint written (j : json) : json :=
  match j with
  | JInf _ => JNull
  | JArr l => JArr (written <$> l)
  | JObj o => JObj (written <$> o)
  | _ => j
  end.

Definition JSON_stringify (doc : object) : content := Document (written (JObj doc)).

(** How deep the arrays and objects of a value nest. *)
Fixpoint depth (j : json) : nat :=
  match j with
  | JArr l => S (foldr (λ j' n, depth j' `max` n)%nat 0%nat l)
  | JObj o => S (map_fold (λ _ j' n, depth j' `max` n)%nat 0%nat o)
  | _ => 0%nat
  end.

(** [j.k] on what [JSON.parse] returned, for the keys [nextId] and [items]:
    [null] has no properties, and a boolean, a number, a string or an array
    has neither of the two. *)
Definition prop (j : json) (k : string) : outcome value :=
  match j with
  | JNull => Throw TypeError
  | JObj o => Return (o !! k)
  | _ => Return undefined
  end.

Record data := { nextId : value; items : value }.

Definition loadData (d : disk) (fileName : string) (defaults : data) : outcome data :=
  try_catch
    (raw ← readFileSync d fileName;
     parsed ← JSON_parse raw;
     stored_nextId ← prop parsed "nextId";
     stored_items ← prop parsed "items";
     Return {| nextId := js_or stored_nextId (nextId defaults);
               items := js_or stored_items (items defaults) |})
    (λ err, Return {| nextId := nextId defaults; items := items defaults |}).

Definition saveData (fileName : string) (x : data) (d : disk) : disk :=
  let payload := JSON_stringify (literal [("nextId", nextId x); ("items", items x)]) in
  writeFileSync fileName payload d.

(** ** The state of the server: its module-level variables *)

Record server := {
  sessions : gmap string object;
  usersData_nextId : value;
  users : list object;
  nextAdId : Z;
  classifieds : list object;
  nextVacancyId : Z;
  vacancies : list object;
  nextCompanyId : Z;
  companies : list object;
  nextPropertyId : Z;
  realEstate : list object;
  dataDir : disk;
}.

Definition set_sessions (x : gmap string object) (s : server) : server :=
  {| sessions := x; usersData_nextId := usersData_nextId s; users := users s;
     nextAdId := nextAdId s; classifieds := classifieds s;
     nextVacancyId := nextVacancyId s; vacancies := vacancies s;
     nextCompanyId := nextCompanyId s; companies := companies s;
     nextPropertyId := nextPropertyId s; realEstate := realEstate s;
     dataDir := dataDir s |}.

Definition set_users (x : list object) (s : server) : server :=
  {| sessions := sessions s; usersData_nextId := usersData_nextId s; users := x;
     nextAdId := nextAdId s; classifieds := classifieds s;
     nextVacancyId := nextVacancyId s; vacancies := vacancies s;
     nextCompanyId := nextCompanyId s; companies := companies s;
     nextPropertyId := nextPropertyId s; realEstate := realEstate s;
     dataDir := dataDir s |}.

Definition set_nextAdId (x : Z) (s : server) : server :=
  {| sessions := sessions s; usersData_nextId := usersData_nextId s; users := users s;
     nextAdId := x; classifieds := classifieds s;
     nextVacancyId := nextVacancyId s; vacancies := vacancies s;
     nextCompanyId := nextCompanyId s; companies := companies s;
     nextPropertyId := nextPropertyId s; realEstate := realEstate s;
     dataDir := dataDir s |}.

Definition set_classifieds (x : list object) (s : server) : server :=
  {| sessions := sessions s; usersData_nextId := usersData_nextId s; users := users s;
     nextAdId := nextAdId s; classifieds := x;
     nextVacancyId := nextVacancyId s; vacancies := vacancies s;
     nextCompanyId := nextCompanyId s; companies := companies s;
     nextPropertyId := nextPropertyId s; realEstate := realEstate s;
     dataDir := dataDir s |}.

Definition set_nextVacancyId (x : Z) (s : server) : server :=
  {| sessions := sessions s; usersData_nextId := usersData_nextId s; users := users s;
     nextAdId := nextAdId s; classifieds := classifieds s;
     nextVacancyId := x; vacancies := vacancies s;
     nextCompanyId := nextCompanyId s; companies := companies s;
     nextPropertyId := nextPropertyId s; realEstate := realEstate s;
     dataDir := dataDir s |}.

Definition set_vacancies (x : list object) (s : server) : server :=
  {| sessions := sessions s; usersData_nextId := usersData_nextId s; users := users s;
     nextAdId := nextAdId s; classifieds := classifieds s;
     nextVacancyId := nextVacancyId s; vacancies := x;
     nextCompanyId := nextCompanyId s; companies := companies s;
     nextPropertyId := nextPropertyId s; realEstate := realEstate s;
     dataDir := dataDir s |}.

Definition set_nextCompanyId (x : Z) (s : server) : server :=
  {| sessions := sessions s; usersData_nextId := usersData_nextId s; users := users s;
     nextAdId := nextAdId s; classifieds := classifieds s;
     nextVacancyId := nextVacancyId s; vacancies := vacancies s;
     nextCompanyId := x; companies := companies s;
     nextPropertyId := nextPropertyId s; realEstate := realEstate s;
     dataDir := dataDir s |}.

Definition set_companies (x : list object) (s : server) : server :=
  {| sessions := sessions s; usersData_nextId := usersData_nextId s; users := users s;
     nextAdId := nextAdId s; classifieds := classifieds s;
     nextVacancyId := nextVacancyId s; vacancies := vacancies s;
     nextCompanyId := nextCompanyId s; companies := x;
     nextPropertyId := nextPropertyId s; realEstate := realEstate s;
     dataDir := dataDir s |}.

Definition set_nextPropertyId (x : Z) (s : server) : server :=
  {| sessions := sessions s; usersData_nextId := usersData_nextId s; users := users s;
     nextAdId := nextAdId s; classifieds := classifieds s;
     nextVacancyId := nextVacancyId s; vacancies := vacancies s;
     nextCompanyId := nextCompanyId s; companies := companies s;
     nextPropertyId := x; realEstate := realEstate s;
     dataDir := dataDir s |}.

Definition set_realEstate (x : list object) (s : server) : server :=
  {| sessions := sessions s; usersData_nextId := usersData_nextId s; users := users s;
     nextAdId := nextAdId s; classifieds := classifieds s;
     nextVacancyId := nextVacancyId s; vacancies := vacancies s;
     nextCompanyId := nextCompanyId s; companies := companies s;
     nextPropertyId := nextPropertyId s; realEstate := x;
     dataDir := dataDir s |}.

Definition set_dataDir (x : disk) (s : server) : server :=
  {| sessions := sessions s; usersData_nextId := usersData_nextId s; users := users s;
     nextAdId := nextAdId s; classifieds := classifieds s;
     nextVacancyId := nextVacancyId s; vacancies := vacancies s;
     nextCompanyId := nextCompanyId s; companies := companies s;
     nextPropertyId := nextPropertyId s; realEstate := realEstate s;
     dataDir := x |}.

(** [saveData(fileName, x)] as the handlers call it. *)
Definition save (fileName : string) (x : data) (s : server) : server :=
  set_dataDir (saveData fileName x (dataDir s)) s.

(** *** Start-up

    The top of [server.js]: every collection is loaded with the defaults
    [{ nextId: 1, items: [] }].  The handlers increment the counters and
    read the properties of the items, and they are embedded for the states
    in which every counter is a number and every collection is an array of
    objects: [boot] is start-up into such a state, and it is undefined on a
    data directory that holds anything else.  [start] is the five loads as
    the program runs them on every data directory, with the variables as
    [loadData] returned them. *)

Definition defaults : data := {| nextId := num 1; items := arr [] |}.

Definition as_number (v : value) : option Z :=
  match v with
  | Some (JNum n) => Some n
  | _ => None
  end.

Definition as_object (j : json) : option object :=
  match j with
  | JObj o => Some o
  | _ => None
  end.

Definition as_objects (v : value) : option (list object) :=
  match v with
  | Some (JArr l) => mapM as_object l
  | _ => None
  end.

Definition returned {A} (m : outcome A) : option A :=
  match m with
  | Return a => Some a
  | Throw _ => None
  end.

Definition boot (d : disk) : option server :=
  usersData ← returned (loadData d "users.json" defaults);
  users ← as_objects (items usersData);
  classifiedsData ← returned (loadData d "classifieds.json" defaults);
  nextAdId ← as_number (nextId classifiedsData);
  classifieds ← as_objects (items classifiedsData);
  vacanciesData ← returned (loadData d "vacancies.json" defaults);
  nextVacancyId ← as_number (nextId vacanciesData);
  vacancies ← as_objects (items vacanciesData);
  companiesData ← returned (loadData d "companies.json" defaults);
  nextCompanyId ← as_number (nextId companiesData);
  companies ← as_objects (items companiesData);
  realEstateData ← returned (loadData d "realEstate.json" defaults);
  nextPropertyId ← as_number (nextId realEstateData);
  realEstate ← as_objects (items realEstateData);
  Some {| sessions := ∅;
          usersData_nextId := nextId usersData; users := users;
          nextAdId := nextAdId; classifieds := classifieds;
          nextVacancyId := nextVacancyId; vacancies := vacancies;
          nextCompanyId := nextCompanyId; companies := companies;
          nextPropertyId := nextPropertyId; realEstate := realEstate;
          dataDir := d |}.

(** What [loadData] returned for each of the five files: the variables
    [usersData], [classifiedsData], [vacanciesData], [companiesData] and
    [realEstateData].  The other variables are read off them
    ([users = usersData.items], [nextAdId = classifiedsData.nextId], ...),
    and [sessions] is [{}]. *)
Record loaded := {
  usersData : data;
  classifiedsData : data;
  vacanciesData : data;
  companiesData : data;
  realEstateData : data;
}.

Definition start (d : disk) : outcome loaded :=
  usersData ← loadData d "users.json" defaults;
  classifiedsData ← loadData d "classifieds.json" defaults;
  vacanciesData ← loadData d "vacancies.json" defaults;
  companiesData ← loadData d "companies.json" defaults;
  realEstateData ← loadData d "realEstate.json" defaults;
  Return {| usersData := usersData; classifiedsData := classifiedsData;
            vacanciesData := vacanciesData; companiesData := companiesData;
            realEstateData := realEstateData |}.

(** The state of the handlers for what start-up loaded, when it is one. *)
Definition typed (d : disk) (x : loaded) : option server :=
  users ← as_objects (items (usersData x));
  nextAdId ← as_number (nextId (classifiedsData x));
  classifieds ← as_objects (items (classifiedsData x));
  nextVacancyId ← as_number (nextId (vacanciesData x));
  vacancies ← as_objects (items (vacanciesData x));
  nextCompanyId ← as_number (nextId (companiesData x));
  companies ← as_objects (items (companiesData x));
  nextPropertyId ← as_number (nextId (realEstateData x));
  realEstate ← as_objects (items (realEstateData x));
  Some {| sessions := ∅;
          usersData_nextId := nextId (usersData x); users := users;
          nextAdId := nextAdId; classifieds := classifieds;
          nextVacancyId := nextVacancyId; vacancies := vacancies;
          nextCompanyId := nextCompanyId; companies := companies;
          nextPropertyId := nextPropertyId; realEstate := realEstate;
          dataDir := d |}.

(** ** Requests and responses *)

(** What [sessions[token]] evaluates to: a property of [sessions] itself,
    or one that every object inherits from [Object.prototype]. *)
Inductive property :=
| Own (o : object)
| Inherited (name : string).

Definition Object_prototype : list string :=
  [ "constructor"; "__defineGetter__"; "__defineSetter__"; "hasOwnProperty";
    "__lookupGetter__"; "__lookupSetter__"; "isPrototypeOf";
    "propertyIsEnumerable"; "toString"; "valueOf"; "__proto__";
    "toLocaleString" ].

(** [o[k]] for a key the client chooses. *)
Definition index (o : gmap string object) (k : string) : option property :=
  match o !! k with
  | Some x => Some (Own x)
  | None => if bool_decide (k ∈ Object_prototype) then Some (Inherited k) else None
  end.

(** [p.username]: the functions and the object that [Object.prototype]
    holds have no such property. *)
Definition username_of (p : property) : value :=
  match p with
  | Own o => o !! "username"
  | Inherited _ => undefined
  end.

(** The request, and what the environment hands the handler while it
    runs: the time [new Date().toISOString()] returns and the 32
    hexadecimal digits [crypto.randomBytes(16).toString('hex')] returns. *)
Record request := {
  authorization : option string;
  params_id : string;
  query : gmap string string;
  body : object;
  clock : string;
  entropy : string;
}.

(** [payload] is [undefined] for the error page Express sends when a
    handler throws. *)
Record response := { status : Z; payload : value }.

Definition json_response (code : Z) (props : list (string * value)) : response :=
  {| status := code; payload := obj (literal props) |}.

Definition express (s : server) (r : outcome response) : server * response :=
  match r with
  | Return res => (s, res)
  | Throw _ => (s, {| status := 500; payload := undefined |})
  end.

(** A query parameter [p] when [if (p)] passes. *)
Definition provided (p : option string) : option string :=
  match p with
  | Some s => if String.eqb s "" then None else Some s
  | None => None
  end.

(** ** The handlers of [server.js] *)

Section Handlers.
Context `{!Runtime}.

Definition register (req : request) (s : server) : server * response :=
  let username := body req !! "username" in
  let password := body req !! "password" in
  let role := body req !! "role" in
  if negb (truthy username) || negb (truthy password) then
    (s, json_response 400 [("message", str "Missing username or password")])
  else
    match find (λ u, strict_eq (u !! "username") username) (users s) with
    | Some _ => (s, json_response 409 [("message", str "User already exists")])
    | None =>
        let s := set_users (users s ++ [literal [("username", username);
                                                 ("password", password);
                                                 ("role", js_or role (str "user"))]]) s in
        let s := save "users.json"
                   {| nextId := usersData_nextId s; items := arr (users s) |} s in
        (s, json_response 201 [("message", str "User registered successfully")])
    end.

Definition login (req : request) (s : server) : server * response :=
  let username := body req !! "username" in
  let password := body req !! "password" in
  match find (λ u, strict_eq (u !! "username") username &&
                   strict_eq (u !! "password") password) (users s) with
  | None => (s, json_response 401 [("message", str "Invalid credentials")])
  | Some (_, user) =>
      let token := entropy req in
      let s := set_sessions (<[token := literal [("username", user !! "username");
                                                 ("role", user !! "role")]]>
                               (sessions s)) s in
      (s, json_response 200 [("message", str "Login successful");
                             ("token", str token);
                             ("user", obj (literal [("username", user !! "username");
                                                    ("role", user !! "role")]))])
  end.

(** The middleware: [next] is the handler behind it, run with [req.user]. *)
Definition authenticate (req : request) (s : server)
    (next : property → server * response) : server * response :=
  let unauthorized := (s, json_response 401 [("message", str "Unauthorized")]) in
  match authorization req with
  | None => unauthorized
  | Some token =>
      if String.eqb token "" then unauthorized
      else match index (sessions s) token with
           | None => unauthorized
           | Some user => next user
           end
  end.

(** *** Classifieds *)

Definition get_classifieds (req : request) (s : server) : server * response :=
  (s, json_response 200 [("classifieds", arr (classifieds s))]).

Definition post_classifieds (req : request) (s : server) : server * response :=
  authenticate req s (λ user,
    let title := body req !! "title" in
    let description := body req !! "description" in
    let category := body req !! "category" in
    let price := body req !! "price" in
    if negb (truthy title) || negb (truthy description) || negb (truthy category) then
      (s, json_response 400 [("message", str "Missing required fields")])
    else
      let ad := literal [("id", num (nextAdId s));
                         ("title", title);
                         ("description", description);
                         ("category", category);
                         ("price", if defined price then price else null);
                         ("dateCreated", str (clock req));
                         ("owner", username_of user)] in
      let s := set_nextAdId (nextAdId s + 1) s in
      let s := set_classifieds (classifieds s ++ [ad]) s in
      let s := save "classifieds.json"
                 {| nextId := num (nextAdId s); items := arr (classifieds s) |} s in
      (s, json_response 201 [("message", str "Classified created"); ("ad", obj ad)])).

Definition get_classified (req : request) (s : server) : server * response :=
  let id := parseInt (params_id req) in
  match find (λ a, strict_eq_number (a !! "id") id) (classifieds s) with
  | None => (s, json_response 404 [("message", str "Ad not found")])
  | Some (_, ad) => (s, json_response 200 [("ad", obj ad)])
  end.

Definition put_classified (req : request) (s : server) : server * response :=
  let id := parseInt (params_id req) in
  match find (λ a, strict_eq_number (a !! "id") id) (classifieds s) with
  | None => (s, json_response 404 [("message", str "Ad not found")])
  | Some (i, ad) =>
      let title := body req !! "title" in
      let description := body req !! "description" in
      let category := body req !! "category" in
      let price := body req !! "price" in
      let ad := assign "title" (js_or title (ad !! "title")) ad in
      let ad := assign "description" (js_or description (ad !! "description")) ad in
      let ad := assign "category" (js_or category (ad !! "category")) ad in
      let ad := assign "price" (if defined price then price else ad !! "price") ad in
      let s := set_classifieds (<[i := ad]> (classifieds s)) s in
      let s := save "classifieds.json"
                 {| nextId := num (nextAdId s); items := arr (classifieds s) |} s in
      (s, json_response 200 [("message", str "Ad updated"); ("ad", obj ad)])
  end.

Definition delete_classified (req : request) (s : server) : server * response :=
  let id := parseInt (params_id req) in
  match findIndex (λ a, strict_eq_number (a !! "id") id) (classifieds s) with
  | None => (s, json_response 404 [("message", str "Ad not found")])
  | Some index =>
      let s := set_classifieds (delete index (classifieds s)) s in
      let s := save "classifieds.json"
                 {| nextId := num (nextAdId s); items := arr (classifieds s) |} s in
      (s, json_response 200 [("message", str "Ad deleted")])
  end.

(** *** Vacancies *)

(** [v.toLowerCase()]: only a string has the method. *)
Definition call_toLowerCase (v : value) : outcome string :=
  match v with
  | Some (JStr x) => Return (toLowerCase x)
  | _ => Throw TypeError
  end.

(** [v >= min]: a comparison with [NaN] is false; [undefined] becomes
    [NaN], [null] becomes 0, [false] 0 and [true] 1; [Infinity] is above
    every number [parseFloat] is taken to return and [-Infinity] below. *)
Definition js_ge (v : value) (min : number) : bool :=
  match min with
  | NaN => false
  | Num m =>
      match v with
      | None => false
      | Some JNull => m <=? 0
      | Some (JBool b) => m <=? (if b then 1 else 0)
      | Some (JNum n) => m <=? n
      | Some (JInf negative) => negb negative
      | Some j => coerced_ge j m
      end
  end.

Definition get_vacancies (req : request) (s : server) : server * response :=
  express s (
    let result := vacancies s in
    let category := query req !! "category" in
    let minSalary := query req !! "minSalary" in
    result ←
      match provided category with
      | Some category =>
          let categoryLower := toLowerCase category in
          filterM (λ v, company ← call_toLowerCase (v !! "company");
                        Return (includes company categoryLower)) result
      | None => Return result
      end;
    let result :=
      match provided minSalary with
      | Some minSalary =>
          let min := parseFloat minSalary in
          if negb (isNaN min) then
            List.filter (λ v, negb (strict_eq (v !! "salary") null) &&
                              js_ge (v !! "salary") min) result
          else result
      | None => result
      end in
    Return (json_response 200 [("vacancies", arr result)])).

Definition post_vacancies (req : request) (s : server) : server * response :=
  let title := body req !! "title" in
  let company := body req !! "company" in
  let description := body req !! "description" in
  let salary := body req !! "salary" in
  if negb (truthy title) || negb (truthy company) || negb (truthy description) then
    (s, json_response 400 [("message", str "Missing required fields")])
  else
    let vacancy := literal [("id", num (nextVacancyId s));
                            ("title", title);
                            ("company", company);
                            ("description", description);
                            ("salary", if defined salary then salary else null);
                            ("dateCreated", str (clock req))] in
    let s := set_nextVacancyId (nextVacancyId s + 1) s in
    let s := set_vacancies (vacancies s ++ [vacancy]) s in
    let s := save "vacancies.json"
               {| nextId := num (nextVacancyId s); items := arr (vacancies s) |} s in
    (s, json_response 201 [("message", str "Vacancy created"); ("vacancy", obj vacancy)]).

Definition get_vacancy (req : request) (s : server) : server * response :=
  let id := parseInt (params_id req) in
  match find (λ v, strict_eq_number (v !! "id") id) (vacancies s) with
  | None => (s, json_response 404 [("message", str "Vacancy not found")])
  | Some (_, vacancy) => (s, json_response 200 [("vacancy", obj vacancy)])
  end.

Definition put_vacancy (req : request) (s : server) : server * response :=
  let id := parseInt (params_id req) in
  match find (λ v, strict_eq_number (v !! "id") id) (vacancies s) with
  | None => (s, json_response 404 [("message", str "Vacancy not found")])
  | Some (i, vacancy) =>
      let title := body req !! "title" in
      let company := body req !! "company" in
      let description := body req !! "description" in
      let salary := body req !! "salary" in
      let vacancy := if truthy title then assign "title" title vacancy else vacancy in
      let vacancy := if truthy company then assign "company" company vacancy else vacancy in
      let vacancy :=
        if truthy description then assign "description" description vacancy else vacancy in
      let vacancy := if defined salary then assign "salary" salary vacancy else vacancy in
      let s := set_vacancies (<[i := vacancy]> (vacancies s)) s in
      let s := save "vacancies.json"
                 {| nextId := num (nextVacancyId s); items := arr (vacancies s) |} s in
      (s, json_response 200 [("message", str "Vacancy updated"); ("vacancy", obj vacancy)])
  end.

Definition delete_vacancy (req : request) (s : server) : server * response :=
  let id := parseInt (params_id req) in
  match findIndex (λ v, strict_eq_number (v !! "id") id) (vacancies s) with
  | None => (s, json_response 404 [("message", str "Vacancy not found")])
  | Some index =>
      let s := set_vacancies (delete index (vacancies s)) s in
      let s := save "vacancies.json"
                 {| nextId := num (nextVacancyId s); items := arr (vacancies s) |} s in
      (s, json_response 200 [("message", str "Vacancy deleted")])
  end.

(** *** Companies *)

Definition get_companies (req : request) (s : server) : server * response :=
  express s (
    let category := query req !! "category" in
    let result := companies s in
    result ←
      match provided category with
      | Some category =>
          let catLower := toLowerCase category in
          filterM (λ c, category ← call_toLowerCase (c !! "category");
                        Return (includes category catLower)) (companies s)
      | None => Return result
      end;
    Return (json_response 200 [("companies", arr result)])).

Definition post_companies (req : request) (s : server) : server * response :=
  let name := body req !! "name" in
  let category := body req !! "category" in
  let description := body req !! "description" in
  let rating := body req !! "rating" in
  if negb (truthy name) || negb (truthy category) || negb (truthy description) then
    (s, json_response 400 [("message", str "Missing required fields")])
  else
    let company := literal [("id", num (nextCompanyId s));
                            ("name", name);
                            ("category", category);
                            ("description", description);
                            ("rating", if defined rating then rating else null);
                            ("dateCreated", str (clock req))] in
    let s := set_nextCompanyId (nextCompanyId s + 1) s in
    let s := set_companies (companies s ++ [company]) s in
    let s := save "companies.json"
               {| nextId := num (nextCompanyId s); items := arr (companies s) |} s in
    (s, json_response 201 [("message", str "Company created"); ("company", obj company)]).

Definition get_company (req : request) (s : server) : server * response :=
  let id := parseInt (params_id req) in
  match find (λ c, strict_eq_number (c !! "id") id) (companies s) with
  | None => (s, json_response 404 [("message", str "Company not found")])
  | Some (_, company) => (s, json_response 200 [("company", obj company)])
  end.

Definition put_company (req : request) (s : server) : server * response :=
  let id := parseInt (params_id req) in
  match find (λ c, strict_eq_number (c !! "id") id) (companies s) with
  | None => (s, json_response 404 [("message", str "Company not found")])
  | Some (i, company) =>
      let name := body req !! "name" in
      let category := body req !! "category" in
      let description := body req !! "description" in
      let rating := body req !! "rating" in
      let company := if truthy name then assign "name" name company else company in
      let company := if truthy category then assign "category" category company else company in
      let company :=
        if truthy description then assign "description" description company else company in
      let company := if defined rating then assign "rating" rating company else company in
      let s := set_companies (<[i := company]> (companies s)) s in
      let s := save "companies.json"
                 {| nextId := num (nextCompanyId s); items := arr (companies s) |} s in
      (s, json_response 200 [("message", str "Company updated"); ("company", obj company)])
  end.

Definition delete_company (req : request) (s : server) : server * response :=
  let id := parseInt (params_id req) in
  match findIndex (λ c, strict_eq_number (c !! "id") id) (companies s) with
  | None => (s, json_response 404 [("message", str "Company not found")])
  | Some index =>
      let s := set_companies (delete index (companies s)) s in
      let s := save "companies.json"
                 {| nextId := num (nextCompanyId s); items := arr (companies s) |} s in
      (s, json_response 200 [("message", str "Company deleted")])
  end.

(** *** Real estate *)

Definition get_real_estate (req : request) (s : server) : server * response :=
  express s (
    let result := realEstate s in
    let type := query req !! "type" in
    let minPrice := query req !! "minPrice" in
    result ←
      match provided type with
      | Some type =>
          let typeLower := toLowerCase type in
          filterM (λ p, type ← call_toLowerCase (p !! "type");
                        Return (String.eqb type typeLower)) result
      | None => Return result
      end;
    let result :=
      match provided minPrice with
      | Some minPrice =>
          let min := parseFloat minPrice in
          if negb (isNaN min) then
            List.filter (λ p, negb (strict_eq (p !! "price") null) &&
                              js_ge (p !! "price") min) result
          else result
      | None => result
      end in
    Return (json_response 200 [("realEstate", arr result)])).

Definition post_real_estate (req : request) (s : server) : server * response :=
  let type := body req !! "type" in
  let title := body req !! "title" in
  let description := body req !! "description" in
  let price := body req !! "price" in
  let location := body req !! "location" in
  if negb (truthy type) || negb (truthy title) || negb (truthy description) then
    (s, json_response 400 [("message", str "Missing required fields")])
  else
    let property := literal [("id", num (nextPropertyId s));
                             ("type", type);
                             ("title", title);
                             ("description", description);
                             ("price", if defined price then price else null);
                             ("location", js_or location null);
                             ("dateCreated", str (clock req))] in
    let s := set_nextPropertyId (nextPropertyId s + 1) s in
    let s := set_realEstate (realEstate s ++ [property]) s in
    let s := save "realEstate.json"
               {| nextId := num (nextPropertyId s); items := arr (realEstate s) |} s in
    (s, json_response 201 [("message", str "Property created"); ("property", obj property)]).

Definition get_property (req : request) (s : server) : server * response :=
  let id := parseInt (params_id req) in
  match find (λ p, strict_eq_number (p !! "id") id) (realEstate s) with
  | None => (s, json_response 404 [("message", str "Property not found")])
  | Some (_, property) => (s, json_response 200 [("property", obj property)])
  end.

Definition put_property (req : request) (s : server) : server * response :=
  let id := parseInt (params_id req) in
  match find (λ p, strict_eq_number (p !! "id") id) (realEstate s) with
  | None => (s, json_response 404 [("message", str "Property not found")])
  | Some (i, property) =>
      let type := body req !! "type" in
      let title := body req !! "title" in
      let description := body req !! "description" in
      let price := body req !! "price" in
      let location := body req !! "location" in
      let property := if truthy type then assign "type" type property else property in
      let property := if truthy title then assign "title" title property else property in
      let property :=
        if truthy description then assign "description" description property else property in
      let property := if defined price then assign "price" price property else property in
      let property :=
        if defined location then assign "location" location property else property in
      let s := set_realEstate (<[i := property]> (realEstate s)) s in
      let s := save "realEstate.json"
                 {| nextId := num (nextPropertyId s); items := arr (realEstate s) |} s in
      (s, json_response 200 [("message", str "Property updated"); ("property", obj property)])
  end.

Definition delete_property (req : request) (s : server) : server * response :=
  let id := parseInt (params_id req) in
  match findIndex (λ p, strict_eq_number (p !! "id") id) (realEstate s) with
  | None => (s, json_response 404 [("message", str "Property not found")])
  | Some index =>
      let s := set_realEstate (delete index (realEstate s)) s in
      let s := save "realEstate.json"
                 {| nextId := num (nextPropertyId s); items := arr (realEstate s) |} s in
      (s, json_response 200 [("message", str "Property deleted")])
  end.

End Handlers.

(** ** The routes, and the server as a transition system *)

Inductive resource := Classifieds | Vacancies | Companies | RealEstate.

Inductive verb := LIST | POST | GET | PUT | DELETE.

Inductive route :=
| Register
| Login
| Api (r : resource) (v : verb).

#[global] Instance resource_eq_dec : EqDecision resource.
Proof. solve_decision. Defined.

(** The counter, the collection, the file and the response key of each
    resource. *)
Definition counter (r : resource) (s : server) : Z :=
  match r with
  | Classifieds => nextAdId s
  | Vacancies => nextVacancyId s
  | Companies => nextCompanyId s
  | RealEstate => nextPropertyId s
  end.

Definition collection (r : resource) (s : server) : list object :=
  match r with
  | Classifieds => classifieds s
  | Vacancies => vacancies s
  | Companies => companies s
  | RealEstate => realEstate s
  end.

Definition file_of (r : resource) : string :=
  match r with
  | Classifieds => "classifieds.json"
  | Vacancies => "vacancies.json"
  | Companies => "companies.json"
  | RealEstate => "realEstate.json"
  end.

Definition singular (r : resource) : string :=
  match r with
  | Classifieds => "ad"
  | Vacancies => "vacancy"
  | Companies => "company"
  | RealEstate => "property"
  end.

(** The fields a creation request must carry. *)
Definition required (r : resource) : list string :=
  match r with
  | Classifieds => ["title"; "description"; "category"]
  | Vacancies => ["title"; "company"; "description"]
  | Companies => ["name"; "category"; "description"]
  | RealEstate => ["type"; "title"; "description"]
  end.

(** The fields an update takes when the request defines them. *)
Definition optional (r : resource) : list string :=
  match r with
  | Classifieds => ["price"]
  | Vacancies => ["salary"]
  | Companies => ["rating"]
  | RealEstate => ["price"; "location"]
  end.

(** The messages of the answers to a request for one record. *)
Definition not_found (r : resource) : string :=
  match r with
  | Classifieds => "Ad not found"
  | Vacancies => "Vacancy not found"
  | Companies => "Company not found"
  | RealEstate => "Property not found"
  end.

Definition updated (r : resource) : string :=
  match r with
  | Classifieds => "Ad updated"
  | Vacancies => "Vacancy updated"
  | Companies => "Company updated"
  | RealEstate => "Property updated"
  end.

(** The messages of the answers to a creation and to a deletion. *)
Definition created (r : resource) : string :=
  match r with
  | Classifieds => "Classified created"
  | Vacancies => "Vacancy created"
  | Companies => "Company created"
  | RealEstate => "Property created"
  end.

Definition deleted (r : resource) : string :=
  match r with
  | Classifieds => "Ad deleted"
  | Vacancies => "Vacancy deleted"
  | Companies => "Company deleted"
  | RealEstate => "Property deleted"
  end.

(** The key of the list in the answer to a list request. *)
Definition plural (r : resource) : string :=
  match r with
  | Classifieds => "classifieds"
  | Vacancies => "vacancies"
  | Companies => "companies"
  | RealEstate => "realEstate"
  end.

Section Routes.
Context `{!Runtime}.

(** [a.id === id] for [id = parseInt(req.params.id, 10)]: the test by which
    the handlers look a record up. *)
Definition has_id (id : string) (a : object) : bool :=
  strict_eq_number (a !! "id") (parseInt id).

Definition handle (rt : route) : request → server → server * response :=
  match rt with
  | Register => register
  | Login => login
  | Api Classifieds LIST => get_classifieds
  | Api Classifieds POST => post_classifieds
  | Api Classifieds GET => get_classified
  | Api Classifieds PUT => put_classified
  | Api Classifieds DELETE => delete_classified
  | Api Vacancies LIST => get_vacancies
  | Api Vacancies POST => post_vacancies
  | Api Vacancies GET => get_vacancy
  | Api Vacancies PUT => put_vacancy
  | Api Vacancies DELETE => delete_vacancy
  | Api Companies LIST => get_companies
  | Api Companies POST => post_companies
  | Api Companies GET => get_company
  | Api Companies PUT => put_company
  | Api Companies DELETE => delete_company
  | Api RealEstate LIST => get_real_estate
  | Api RealEstate POST => post_real_estate
  | Api RealEstate GET => get_property
  | Api RealEstate PUT => put_property
  | Api RealEstate DELETE => delete_property
  end.

(** What happens to the process: a request is served, or the process is
    stopped and started again over the data directory it left. *)
Inductive event :=
| Call (rt : route) (req : request)
| Restart.

Definition step (s : server) (e : event) : option (server * list (route * response)) :=
  match e with
  | Call rt req => let '(s', res) := handle rt req s in Some (s', [(rt, res)])
  | Restart => s' ← boot (dataDir s); Some (s', [])
  end.

(** The state after a sequence of events, and the responses sent. *)
Fixpoint run (s : server) (es : list event) : option (server * list (route * response)) :=
  match es with
  | [] => Some (s, [])
  | e :: es' =>
      '(s', sent) ← step s e;
      '(s'', sent') ← run s' es';
      Some (s'', sent ++ sent')
  end.

End Routes.

(** The id of the record a creation response carries. *)
Definition created_id (r : resource) (res : response) : option Z :=
  match payload res with
  | Some (JObj o) =>
      match o !! singular r with
      | Some (JObj record) => as_number (record !! "id")
      | _ => None
      end
  | _ => None
  end.

(** The ids issued for a resource, in the order of the responses. *)
Definition issued (r : resource) (sent : list (route * response)) : list Z :=
  omap (λ '(rt, res),
          match rt with
          | Api r' POST =>
              if bool_decide (r' = r) && (status res =? 201) then created_id r res else None
          | _ => None
          end) sent.

(** The state of a first run: no data file yet. *)
Definition fresh : server :=
  {| sessions := ∅;
     usersData_nextId := num 1; users := [];
     nextAdId := 1; classifieds := [];
     nextVacancyId := 1; vacancies := [];
     nextCompanyId := 1; companies := [];
     nextPropertyId := 1; realEstate := [];
     dataDir := ∅ |}.

(** ** The in-memory server of [part_000]

    The earlier server keeps the collections in memory only and has no
    session.  Its handlers are those of [server.js] without the calls of
    [saveData], but for the creation of a classified, which is embedded
    here with the two variables it uses. *)

Module InMemory.

Record server := {
  nextAdId : Z;
  classifieds : list object;
}.

Definition post_classifieds (req : request) (s : server) : server * response :=
  let title := body req !! "title" in
  let description := body req !! "description" in
  let category := body req !! "category" in
  let price := body req !! "price" in
  if negb (truthy title) || negb (truthy description) || negb (truthy category) then
    (s, json_response 400 [("message", str "Missing required fields")])
  else
    let ad := literal [("id", num (nextAdId s));
                       ("title", title);
                       ("description", description);
                       ("category", category);
                       ("price", js_or price null);
                       ("dateCreated", str (clock req))] in
    let s := {| nextAdId := nextAdId s + 1; classifieds := classifieds s |} in
    let s := {| nextAdId := nextAdId s; classifieds := classifieds s ++ [ad] |} in
    (s, json_response 201 [("message", str "Classified created"); ("ad", obj ad)]).

End InMemory.

(** ** The in-memory server of [part_000], in full

    The server of [part_000] has the routes of [server.js] and keeps the
    users, the counters and the collections in memory only: it has no
    session and no middleware, its lists take no filter, and it writes no
    file.  [InMemory.post_classifieds] above is its creation of a
    classified, over the two variables that handler uses. *)

Module Part000.

Record server := {
  users : list object;
  nextAdId : Z;
  classifieds : list object;
  nextVacancyId : Z;
  vacancies : list object;
  nextCompanyId : Z;
  companies : list object;
  nextPropertyId : Z;
  realEstate : list object;
}.

Definition set_users (x : list object) (s : server) : server :=
  {| users := x;
     nextAdId := nextAdId s; classifieds := classifieds s;
     nextVacancyId := nextVacancyId s; vacancies := vacancies s;
     nextCompanyId := nextCompanyId s; companies := companies s;
     nextPropertyId := nextPropertyId s; realEstate := realEstate s |}.

Definition set_nextAdId (x : Z) (s : server) : server :=
  {| users := users s;
     nextAdId := x; classifieds := classifieds s;
     nextVacancyId := nextVacancyId s; vacancies := vacancies s;
     nextCompanyId := nextCompanyId s; companies := companies s;
     nextPropertyId := nextPropertyId s; realEstate := realEstate s |}.

Definition set_classifieds (x : list object) (s : server) : server :=
  {| users := users s;
     nextAdId := nextAdId s; classifieds := x;
     nextVacancyId := nextVacancyId s; vacancies := vacancies s;
     nextCompanyId := nextCompanyId s; companies := companies s;
     nextPropertyId := nextPropertyId s; realEstate := realEstate s |}.

Definition set_nextVacancyId (x : Z) (s : server) : server :=
  {| users := users s;
     nextAdId := nextAdId s; classifieds := classifieds s;
     nextVacancyId := x; vacancies := vacancies s;
     nextCompanyId := nextCompanyId s; companies := companies s;
     nextPropertyId := nextPropertyId s; realEstate := realEstate s |}.

Definition set_vacancies (x : list object) (s : server) : server :=
  {| users := users s;
     nextAdId := nextAdId s; classifieds := classifieds s;
     nextVacancyId := nextVacancyId s; vacancies := x;
     nextCompanyId := nextCompanyId s; companies := companies s;
     nextPropertyId := nextPropertyId s; realEstate := realEstate s |}.

Definition set_nextCompanyId (x : Z) (s : server) : server :=
  {| users := users s;
     nextAdId := nextAdId s; classifieds := classifieds s;
     nextVacancyId := nextVacancyId s; vacancies := vacancies s;
     nextCompanyId := x; companies := companies s;
     nextPropertyId := nextPropertyId s; realEstate := realEstate s |}.

Definition set_companies (x : list object) (s : server) : server :=
  {| users := users s;
     nextAdId := nextAdId s; classifieds := classifieds s;
     nextVacancyId := nextVacancyId s; vacancies := vacancies s;
     nextCompanyId := nextCompanyId s; companies := x;
     nextPropertyId := nextPropertyId s; realEstate := realEstate s |}.

Definition set_nextPropertyId (x : Z) (s : server) : server :=
  {| users := users s;
     nextAdId := nextAdId s; classifieds := classifieds s;
     nextVacancyId := nextVacancyId s; vacancies := vacancies s;
     nextCompanyId := nextCompanyId s; companies := companies s;
     nextPropertyId := x; realEstate := realEstate s |}.

Definition set_realEstate (x : list object) (s : server) : server :=
  {| users := users s;
     nextAdId := nextAdId s; classifieds := classifieds s;
     nextVacancyId := nextVacancyId s; vacancies := vacancies s;
     nextCompanyId := nextCompanyId s; companies := companies s;
     nextPropertyId := nextPropertyId s; realEstate := x |}.

Section InMemoryHandlers.
Context `{!Runtime}.

Definition register (req : request) (s : server) : server * response :=
  let username := body req !! "username" in
  let password := body req !! "password" in
  let role := body req !! "role" in
  if negb (truthy username) || negb (truthy password) then
    (s, json_response 400 [("message", str "Missing username or password")])
  else
    match find (λ u, strict_eq (u !! "username") username) (users s) with
    | Some _ => (s, json_response 409 [("message", str "User already exists")])
    | None =>
        let s := set_users (users s ++ [literal [("username", username);
                                                 ("password", password);
                                                 ("role", js_or role (str "user"))]]) s in
        (s, json_response 201 [("message", str "User registered successfully")])
    end.

Definition login (req : request) (s : server) : server * response :=
  let username := body req !! "username" in
  let password := body req !! "password" in
  match find (λ u, strict_eq (u !! "username") username &&
                   strict_eq (u !! "password") password) (users s) with
  | None => (s, json_response 401 [("message", str "Invalid credentials")])
  | Some (_, user) =>
      (s, json_response 200 [("message", str "Login successful");
                             ("user", obj (literal [("username", username);
                                                    ("role", user !! "role")]))])
  end.

(** *** Classifieds *)

Definition get_classifieds (req : request) (s : server) : server * response :=
  (s, json_response 200 [("classifieds", arr (classifieds s))]).

Definition post_classifieds (req : request) (s : server) : server * response :=
  let title := body req !! "title" in
  let description := body req !! "description" in
  let category := body req !! "category" in
  let price := body req !! "price" in
  if negb (truthy title) || negb (truthy description) || negb (truthy category) then
    (s, json_response 400 [("message", str "Missing required fields")])
  else
    let ad := literal [("id", num (nextAdId s));
                       ("title", title);
                       ("description", description);
                       ("category", category);
                       ("price", js_or price null);
                       ("dateCreated", str (clock req))] in
    let s := set_nextAdId (nextAdId s + 1) s in
    let s := set_classifieds (classifieds s ++ [ad]) s in
    (s, json_response 201 [("message", str "Classified created"); ("ad", obj ad)]).

Definition get_classified (req : request) (s : server) : server * response :=
  let id := parseInt (params_id req) in
  match find (λ a, strict_eq_number (a !! "id") id) (classifieds s) with
  | None => (s, json_response 404 [("message", str "Ad not found")])
  | Some (_, ad) => (s, json_response 200 [("ad", obj ad)])
  end.

Definition put_classified (req : request) (s : server) : server * response :=
  let id := parseInt (params_id req) in
  match find (λ a, strict_eq_number (a !! "id") id) (classifieds s) with
  | None => (s, json_response 404 [("message", str "Ad not found")])
  | Some (i, ad) =>
      let title := body req !! "title" in
      let description := body req !! "description" in
      let category := body req !! "category" in
      let price := body req !! "price" in
      let ad := assign "title" (js_or title (ad !! "title")) ad in
      let ad := assign "description" (js_or description (ad !! "description")) ad in
      let ad := assign "category" (js_or category (ad !! "category")) ad in
      let ad := assign "price" (if defined price then price else ad !! "price") ad in
      let s := set_classifieds (<[i := ad]> (classifieds s)) s in
      (s, json_response 200 [("message", str "Ad updated"); ("ad", obj ad)])
  end.

Definition delete_classified (req : request) (s : server) : server * response :=
  let id := parseInt (params_id req) in
  match findIndex (λ a, strict_eq_number (a !! "id") id) (classifieds s) with
  | None => (s, json_response 404 [("message", str "Ad not found")])
  | Some index =>
      let s := set_classifieds (delete index (classifieds s)) s in
      (s, json_response 200 [("message", str "Ad deleted")])
  end.

(** *** Vacancies *)

Definition get_vacancies (req : request) (s : server) : server * response :=
  (s, json_response 200 [("vacancies", arr (vacancies s))]).

Definition post_vacancies (req : request) (s : server) : server * response :=
  let title := body req !! "title" in
  let company := body req !! "company" in
  let description := body req !! "description" in
  let salary := body req !! "salary" in
  if negb (truthy title) || negb (truthy company) || negb (truthy description) then
    (s, json_response 400 [("message", str "Missing required fields")])
  else
    let vacancy := literal [("id", num (nextVacancyId s));
                            ("title", title);
                            ("company", company);
                            ("description", description);
                            ("salary", if defined salary then salary else null);
                            ("dateCreated", str (clock req))] in
    let s := set_nextVacancyId (nextVacancyId s + 1) s in
    let s := set_vacancies (vacancies s ++ [vacancy]) s in
    (s, json_response 201 [("message", str "Vacancy created"); ("vacancy", obj vacancy)]).

Definition get_vacancy (req : request) (s : server) : server * response :=
  let id := parseInt (params_id req) in
  match find (λ v, strict_eq_number (v !! "id") id) (vacancies s) with
  | None => (s, json_response 404 [("message", str "Vacancy not found")])
  | Some (_, vacancy) => (s, json_response 200 [("vacancy", obj vacancy)])
  end.

Definition put_vacancy (req : request) (s : server) : server * response :=
  let id := parseInt (params_id req) in
  match find (λ v, strict_eq_number (v !! "id") id) (vacancies s) with
  | None => (s, json_response 404 [("message", str "Vacancy not found")])
  | Some (i, vacancy) =>
      let title := body req !! "title" in
      let company := body req !! "company" in
      let description := body req !! "description" in
      let salary := body req !! "salary" in
      let vacancy := if truthy title then assign "title" title vacancy else vacancy in
      let vacancy := if truthy company then assign "company" company vacancy else vacancy in
      let vacancy :=
        if truthy description then assign "description" description vacancy else vacancy in
      let vacancy := if defined salary then assign "salary" salary vacancy else vacancy in
      let s := set_vacancies (<[i := vacancy]> (vacancies s)) s in
      (s, json_response 200 [("message", str "Vacancy updated"); ("vacancy", obj vacancy)])
  end.

Definition delete_vacancy (req : request) (s : server) : server * response :=
  let id := parseInt (params_id req) in
  match findIndex (λ v, strict_eq_number (v !! "id") id) (vacancies s) with
  | None => (s, json_response 404 [("message", str "Vacancy not found")])
  | Some index =>
      let s := set_vacancies (delete index (vacancies s)) s in
      (s, json_response 200 [("message", str "Vacancy deleted")])
  end.

(** *** Companies *)

Definition get_companies (req : request) (s : server) : server * response :=
  (s, json_response 200 [("companies", arr (companies s))]).

Definition post_companies (req : request) (s : server) : server * response :=
  let name := body req !! "name" in
  let category := body req !! "category" in
  let description := body req !! "description" in
  let rating := body req !! "rating" in
  if negb (truthy name) || negb (truthy category) || negb (truthy description) then
    (s, json_response 400 [("message", str "Missing required fields")])
  else
    let company := literal [("id", num (nextCompanyId s));
                            ("name", name);
                            ("category", category);
                            ("description", description);
                            ("rating", if defined rating then rating else null);
                            ("dateCreated", str (clock req))] in
    let s := set_nextCompanyId (nextCompanyId s + 1) s in
    let s := set_companies (companies s ++ [company]) s in
    (s, json_response 201 [("message", str "Company created"); ("company", obj company)]).

Definition get_company (req : request) (s : server) : server * response :=
  let id := parseInt (params_id req) in
  match find (λ c, strict_eq_number (c !! "id") id) (companies s) with
  | None => (s, json_response 404 [("message", str "Company not found")])
  | Some (_, company) => (s, json_response 200 [("company", obj company)])
  end.

Definition put_company (req : request) (s : server) : server * response :=
  let id := parseInt (params_id req) in
  match find (λ c, strict_eq_number (c !! "id") id) (companies s) with
  | None => (s, json_response 404 [("message", str "Company not found")])
  | Some (i, company) =>
      let name := body req !! "name" in
      let category := body req !! "category" in
      let description := body req !! "description" in
      let rating := body req !! "rating" in
      let company := if truthy name then assign "name" name company else company in
      let company := if truthy category then assign "category" category company else company in
      let company :=
        if truthy description then assign "description" description company else company in
      let company := if defined rating then assign "rating" rating company else company in
      let s := set_companies (<[i := company]> (companies s)) s in
      (s, json_response 200 [("message", str "Company updated"); ("company", obj company)])
  end.

Definition delete_company (req : request) (s : server) : server * response :=
  let id := parseInt (params_id req) in
  match findIndex (λ c, strict_eq_number (c !! "id") id) (companies s) with
  | None => (s, json_response 404 [("message", str "Company not found")])
  | Some index =>
      let s := set_companies (delete index (companies s)) s in
      (s, json_response 200 [("message", str "Company deleted")])
  end.

(** *** Real estate *)

Definition get_real_estate (req : request) (s : server) : server * response :=
  (s, json_response 200 [("realEstate", arr (realEstate s))]).

Definition post_real_estate (req : request) (s : server) : server * response :=
  let type := body req !! "type" in
  let title := body req !! "title" in
  let description := body req !! "description" in
  let price := body req !! "price" in
  let location := body req !! "location" in
  if negb (truthy type) || negb (truthy title) || negb (truthy description) then
    (s, json_response 400 [("message", str "Missing required fields")])
  else
    let property := literal [("id", num (nextPropertyId s));
                             ("type", type);
                             ("title", title);
                             ("description", description);
                             ("price", if defined price then price else null);
                             ("location", js_or location null);
                             ("dateCreated", str (clock req))] in
    let s := set_nextPropertyId (nextPropertyId s + 1) s in
    let s := set_realEstate (realEstate s ++ [property]) s in
    (s, json_response 201 [("message", str "Property created"); ("property", obj property)]).

Definition get_property (req : request) (s : server) : server * response :=
  let id := parseInt (params_id req) in
  match find (λ p, strict_eq_number (p !! "id") id) (realEstate s) with
  | None => (s, json_response 404 [("message", str "Property not found")])
  | Some (_, property) => (s, json_response 200 [("property", obj property)])
  end.

Definition put_property (req : request) (s : server) : server * response :=
  let id := parseInt (params_id req) in
  match find (λ p, strict_eq_number (p !! "id") id) (realEstate s) with
  | None => (s, json_response 404 [("message", str "Property not found")])
  | Some (i, property) =>
      let type := body req !! "type" in
      let title := body req !! "title" in
      let description := body req !! "description" in
      let price := body req !! "price" in
      let location := body req !! "location" in
      let property := if truthy type then assign "type" type property else property in
      let property := if truthy title then assign "title" title property else property in
      let property :=
        if truthy description then assign "description" description property else property in
      let property := if defined price then assign "price" price property else property in
      let property :=
        if defined location then assign "location" location property else property in
      let s := set_realEstate (<[i := property]> (realEstate s)) s in
      (s, json_response 200 [("message", str "Property updated"); ("property", obj property)])
  end.

Definition delete_property (req : request) (s : server) : server * response :=
  let id := parseInt (params_id req) in
  match findIndex (λ p, strict_eq_number (p !! "id") id) (realEstate s) with
  | None => (s, json_response 404 [("message", str "Property not found")])
  | Some index =>
      let s := set_realEstate (delete index (realEstate s)) s in
      (s, json_response 200 [("message", str "Property deleted")])
  end.

Definition handle (rt : route) : request → server → server * response :=
  match rt with
  | Register => register
  | Login => login
  | Api Classifieds LIST => get_classifieds
  | Api Classifieds POST => post_classifieds
  | Api Classifieds GET => get_classified
  | Api Classifieds PUT => put_classified
  | Api Classifieds DELETE => delete_classified
  | Api Vacancies LIST => get_vacancies
  | Api Vacancies POST => post_vacancies
  | Api Vacancies GET => get_vacancy
  | Api Vacancies PUT => put_vacancy
  | Api Vacancies DELETE => delete_vacancy
  | Api Companies LIST => get_companies
  | Api Companies POST => post_companies
  | Api Companies GET => get_company
  | Api Companies PUT => put_company
  | Api Companies DELETE => delete_company
  | Api RealEstate LIST => get_real_estate
  | Api RealEstate POST => post_real_estate
  | Api RealEstate GET => get_property
  | Api RealEstate PUT => put_property
  | Api RealEstate DELETE => delete_property
  end.

(** The answers to a sequence of requests, and the state they leave. *)
Fixpoint run (s : server) (calls : list (route * request))
    : server * list (route * response) :=
  match calls with
  | [] => (s, [])
  | (rt, req) :: calls' =>
      let '(s', res) := handle rt req s in
      let '(s'', sent) := run s' calls' in
      (s'', (rt, res) :: sent)
  end.

End InMemoryHandlers.

(** The state the server starts in. *)
Definition initial : server :=
  {| users := [];
     nextAdId := 1; classifieds := [];
     nextVacancyId := 1; vacancies := [];
     nextCompanyId := 1; companies := [];
     nextPropertyId := 1; realEstate := [] |}.

End Part000.

(** What the in-memory server keeps of a state of the persisted one. *)
Definition in_memory (s : server) : Part000.server :=
  {| Part000.users := users s;
     Part000.nextAdId := nextAdId s; Part000.classifieds := classifieds s;
     Part000.nextVacancyId := nextVacancyId s; Part000.vacancies := vacancies s;
     Part000.nextCompanyId := nextCompanyId s; Part000.companies := companies s;
     Part000.nextPropertyId := nextPropertyId s; Part000.realEstate := realEstate s |}.

(** A list request that carries no filter of its resource. *)
Definition unfiltered (r : resource) (req : request) : Prop :=
  match r with
  | Classifieds => True
  | Vacancies =>
      provided (query req !! "category") = None ∧ provided (query req !! "minSalary") = None
  | Companies => provided (query req !! "category") = None
  | RealEstate =>
      provided (query req !! "type") = None ∧ provided (query req !! "minPrice") = None
  end.

(** The requests the two servers have in common: the in-memory server has
    no sessions, so it issues no token and asks for none, and its lists
    take no filter. *)
Definition shared (rt : route) (req : request) : Prop :=
  match rt with
  | Login | Api Classifieds POST => False
  | Api r LIST => unfiltered r req
  | _ => True
  end.

(** ** The first server: the second document of [server.js]

    Users and classifieds in memory; the lists of vacancies, companies and
    real estate are placeholders, and no other route exists. *)

Module Draft.

Record server := {
  users : list object;
  nextAdId : Z;
  classifieds : list object;
}.

Section DraftHandlers.
Context `{!Runtime}.

Definition register (req : request) (s : server) : server * response :=
  let username := body req !! "username" in
  let password := body req !! "password" in
  let role := body req !! "role" in
  if negb (truthy username) || negb (truthy password) then
    (s, json_response 400 [("message", str "Missing username or password")])
  else
    match find (λ u, strict_eq (u !! "username") username) (users s) with
    | Some _ => (s, json_response 409 [("message", str "User already exists")])
    | None =>
        let s := {| users := users s ++ [literal [("username", username);
                                                  ("password", password);
                                                  ("role", js_or role (str "user"))]];
                    nextAdId := nextAdId s; classifieds := classifieds s |} in
        (s, json_response 201 [("message", str "User registered successfully")])
    end.

Definition login (req : request) (s : server) : server * response :=
  let username := body req !! "username" in
  let password := body req !! "password" in
  match find (λ u, strict_eq (u !! "username") username &&
                   strict_eq (u !! "password") password) (users s) with
  | None => (s, json_response 401 [("message", str "Invalid credentials")])
  | Some (_, user) =>
      (s, json_response 200 [("message", str "Login successful");
                             ("user", obj (literal [("username", username);
                                                    ("role", user !! "role")]))])
  end.

Definition get_classifieds (req : request) (s : server) : server * response :=
  (s, json_response 200 [("classifieds", arr (classifieds s))]).

Definition post_classifieds (req : request) (s : server) : server * response :=
  let title := body req !! "title" in
  let description := body req !! "description" in
  let category := body req !! "category" in
  let price := body req !! "price" in
  if negb (truthy title) || negb (truthy description) || negb (truthy category) then
    (s, json_response 400 [("message", str "Missing required fields")])
  else
    let ad := literal [("id", num (nextAdId s));
                       ("title", title);
                       ("description", description);
                       ("category", category);
                       ("price", js_or price null);
                       ("dateCreated", str (clock req))] in
    let s := {| users := users s; nextAdId := nextAdId s + 1; classifieds := classifieds s |} in
    let s := {| users := users s; nextAdId := nextAdId s; classifieds := classifieds s ++ [ad] |} in
    (s, json_response 201 [("message", str "Classified created"); ("ad", obj ad)]).

Definition get_classified (req : request) (s : server) : server * response :=
  let id := parseInt (params_id req) in
  match find (λ a, strict_eq_number (a !! "id") id) (classifieds s) with
  | None => (s, json_response 404 [("message", str "Ad not found")])
  | Some (_, ad) => (s, json_response 200 [("ad", obj ad)])
  end.

Definition put_classified (req : request) (s : server) : server * response :=
  let id := parseInt (params_id req) in
  match find (λ a, strict_eq_number (a !! "id") id) (classifieds s) with
  | None => (s, json_response 404 [("message", str "Ad not found")])
  | Some (i, ad) =>
      let title := body req !! "title" in
      let description := body req !! "description" in
      let category := body req !! "category" in
      let price := body req !! "price" in
      let ad := assign "title" (js_or title (ad !! "title")) ad in
      let ad := assign "description" (js_or description (ad !! "description")) ad in
      let ad := assign "category" (js_or category (ad !! "category")) ad in
      let ad := assign "price" (if defined price then price else ad !! "price") ad in
      let s := {| users := users s; nextAdId := nextAdId s;
                  classifieds := <[i := ad]> (classifieds s) |} in
      (s, json_response 200 [("message", str "Ad updated"); ("ad", obj ad)])
  end.

Definition delete_classified (req : request) (s : server) : server * response :=
  let id := parseInt (params_id req) in
  match findIndex (λ a, strict_eq_number (a !! "id") id) (classifieds s) with
  | None => (s, json_response 404 [("message", str "Ad not found")])
  | Some index =>
      let s := {| users := users s; nextAdId := nextAdId s;
                  classifieds := delete index (classifieds s) |} in
      (s, json_response 200 [("message", str "Ad deleted")])
  end.

(** The placeholders. *)
Definition get_vacancies (req : request) (s : server) : server * response :=
  (s, json_response 200 [("vacancies", arr [])]).

Definition get_companies (req : request) (s : server) : server * response :=
  (s, json_response 200 [("companies", arr [])]).

Definition get_real_estate (req : request) (s : server) : server * response :=
  (s, json_response 200 [("realEstate", arr [])]).

(** The routes the server has; Express answers any other request itself. *)
Definition handle (rt : route) : option (request → server → server * response) :=
  match rt with
  | Register => Some register
  | Login => Some login
  | Api Classifieds LIST => Some get_classifieds
  | Api Classifieds POST => Some post_classifieds
  | Api Classifieds GET => Some get_classified
  | Api Classifieds PUT => Some put_classified
  | Api Classifieds DELETE => Some delete_classified
  | Api Vacancies LIST => Some get_vacancies
  | Api Companies LIST => Some get_companies
  | Api RealEstate LIST => Some get_real_estate
  | _ => None
  end.

(** The answers to a sequence of requests, when the server has a route for
    each of them. *)
Fixpoint run (s : server) (calls : list (route * request))
    : option (server * list (route * response)) :=
  match calls with
  | [] => Some (s, [])
  | (rt, req) :: calls' =>
      h ← handle rt;
      let '(s', res) := h req s in
      '(s'', sent) ← run s' calls';
      Some (s'', (rt, res) :: sent)
  end.

End DraftHandlers.

(** The state the server starts in. *)
Definition initial : server := {| users := []; nextAdId := 1; classifieds := [] |}.

End Draft.

(** What the first server keeps of a state of the in-memory one. *)
Definition draft_of (s : Part000.server) : Draft.server :=
  {| Draft.users := Part000.users s;
     Draft.nextAdId := Part000.nextAdId s;
     Draft.classifieds := Part000.classifieds s |}.

(** No vacancy, company or property was created. *)
Definition classifieds_only (s : Part000.server) : Prop :=
  Part000.vacancies s = [] ∧ Part000.companies s = [] ∧ Part000.realEstate s = [].

(** ** Stored state

    Every handler that changes a collection sets the counter and the
    collection of its resource and saves both: [commit] is the state it
    leaves.  A state is [consistent] when its counters are those an
    allocator that starts at 1 can hold and starting again over its data
    directory gives the same state, with no session.  It is [persisted]
    when starting again gives the state as [saveData] writes it, with
    [null] in place of each number that is not finite: [reload].  It is
    [restartable] when starting again gives a state with the same
    counters. *)

Definition set_counter (r : resource) (n : Z) (s : server) : server :=
  match r with
  | Classifieds => set_nextAdId n s
  | Vacancies => set_nextVacancyId n s
  | Companies => set_nextCompanyId n s
  | RealEstate => set_nextPropertyId n s
  end.

Definition set_collection (r : resource) (l : list object) (s : server) : server :=
  match r with
  | Classifieds => set_classifieds l s
  | Vacancies => set_vacancies l s
  | Companies => set_companies l s
  | RealEstate => set_realEstate l s
  end.

Definition commit (r : resource) (n : Z) (l : list object) (s : server) : server :=
  save (file_of r) {| nextId := num n; items := arr l |}
    (set_collection r l (set_counter r n s)).

Definition stored (d : disk) (fileName : string) (n : value) (l : list object) : Prop :=
  ∃ x, loadData d fileName defaults = Return x ∧ nextId x = n ∧
       as_objects (items x) = Some l.

Definition consistent (s : server) : Prop :=
  1 ≤ nextAdId s ∧ 1 ≤ nextVacancyId s ∧ 1 ≤ nextCompanyId s ∧ 1 ≤ nextPropertyId s ∧
  boot (dataDir s) = Some (set_sessions ∅ s).

Definition written_object (o : object) : object := written <$> o.

Definition reload (s : server) : server :=
  {| sessions := ∅;
     usersData_nextId := js_or (written <$> usersData_nextId s) (num 1);
     users := written_object <$> users s;
     nextAdId := nextAdId s; classifieds := written_object <$> classifieds s;
     nextVacancyId := nextVacancyId s; vacancies := written_object <$> vacancies s;
     nextCompanyId := nextCompanyId s; companies := written_object <$> companies s;
     nextPropertyId := nextPropertyId s; realEstate := written_object <$> realEstate s;
     dataDir := dataDir s |}.

Definition persisted (s : server) : Prop :=
  1 ≤ nextAdId s ∧ 1 ≤ nextVacancyId s ∧ 1 ≤ nextCompanyId s ∧ 1 ≤ nextPropertyId s ∧
  boot (dataDir s) = Some (reload s).

Definition restartable (s : server) : Prop :=
  (∀ r, 1 ≤ counter r s) ∧
  ∃ s0, boot (dataDir s) = Some s0 ∧ ∀ r, counter r s0 = counter r s.

(** What serving a request does to the state: nothing, or one of the four
    changes below.  A creation answers 201 and carries the id it issued. *)
Inductive effect (s : server) : route → server → response → Prop :=
| effect_none rt res :
    (∀ r, rt = Api r POST → status res ≠ 201) → effect s rt s res
| effect_login res token session :
    effect s Login (set_sessions (<[token:=session]> (sessions s)) s) res
| effect_register res user :
    effect s Register
      (save "users.json"
         {| nextId := usersData_nextId s; items := arr (users s ++ [user]) |}
         (set_users (users s ++ [user]) s)) res
| effect_update r v l res :
    v ≠ POST → effect s (Api r v) (commit r (counter r s) l s) res
| effect_create r record message :
    record !! "id" = num (counter r s) →
    effect s (Api r POST)
      (commit r (counter r s + 1) (collection r s ++ [record]) s)
      (json_response 201 [("message", str message); (singular r, obj record)]).

(** ** Requests and states the properties speak of *)

(** The routes behind the middleware [authenticate], and the requests it
    lets through. *)
Definition guarded (rt : route) : bool :=
  match rt with
  | Api Classifieds POST => true
  | _ => false
  end.

Definition authorized (req : request) (s : server) : bool :=
  match authorization req with
  | Some token =>
      negb (String.eqb token "") && bool_decide (is_Some (index (sessions s) token))
  | None => false
  end.

(** Every required field of the body is truthy. *)
Definition complete (r : resource) (req : request) : bool :=
  forallb (λ k, truthy (body req !! k)) (required r).

(** The properties of a record that a creation sets. *)
Definition stored_fields (r : resource) : list string :=
  "id" :: required r ++ optional r ++ ["dateCreated"] ++
  (if guarded (Api r POST) then ["owner"] else []).

(** An object in which every number is finite, however deep: [JSON.stringify]
    writes it so that [JSON.parse] reads it back as it is. *)
Definition finite (o : object) : Prop := written_object o = o.

(** A state whose users, records and sessions hold finite numbers only. *)
Definition finite_state (s : server) : Prop :=
  Forall finite (users s) ∧ (∀ r, Forall finite (collection r s)) ∧
  map_Forall (λ _ : string, finite) (sessions s).

(** An event whose request, if it is one, has a body of finite numbers; and
    likewise for the registrations only. *)
Definition finite_event (e : event) : Prop :=
  match e with
  | Call _ req => finite (body req)
  | Restart => True
  end.

Definition finite_registration (e : event) : Prop :=
  match e with
  | Call Register req => finite (body req)
  | _ => True
  end.

(** The integers on which [n++] leaves [n + 1]: a double holds them and
    their successor exactly. *)
Definition incrementable (n : Z) : Prop := - 2 ^ 53 ≤ n < 2 ^ 53.

(** What [loadData] returned for the file of a resource. *)
Definition data_of (r : resource) (x : loaded) : data :=
  match r with
  | Classifieds => classifiedsData x
  | Vacancies => vacanciesData x
  | Companies => companiesData x
  | RealEstate => realEstateData x
  end.

(** A file from which [loadData] takes nothing: it is missing, cannot be
    read, is not JSON, or holds a document that is not an object. *)
Definition unusable (d : disk) (fileName : string) : Prop :=
  match d !! fileName with
  | Some (File (Document (JObj _))) => False
  | _ => True
  end.

(** The ids of a collection, in its order. *)
Definition ids (l : list object) : list value := (λ a, a !! "id") <$> l.

(** The ids of the collection are numbers that increase strictly, from 1 on
    and below the counter. *)
Definition allocated (r : resource) (s : server) : Prop :=
  1 ≤ counter r s ∧
  ∃ ns, ids (collection r s) = num <$> ns ∧ StronglySorted Z.lt ns ∧
        Forall (λ n, 1 ≤ n < counter r s) ns.

(** [v === v] for a value that reaches the program in two requests: an array
    or an object is another reference the second time. *)
Definition primitive (v : value) : bool :=
  match v with
  | Some (JArr _) | Some (JObj _) => false
  | _ => true
  end.

Definition account (u : object) : Prop :=
  truthy (u !! "username") = true ∧ truthy (u !! "password") = true ∧
  truthy (u !! "role") = true.

Definition distinct_usernames (l : list object) : Prop :=
  ∀ i j u v, l !! i = Some u → l !! j = Some v → i ≠ j →
             strict_eq (u !! "username") (v !! "username") = false.

(** What a request does to one collection and its counter. *)
Inductive change (r : resource) (s s' : server) : Prop :=
| change_none :
    collection r s' = collection r s → counter r s' = counter r s → change r s s'
| change_put i record record' :
    collection r s !! i = Some record → record' !! "id" = record !! "id" →
    collection r s' = <[i:=record']> (collection r s) → counter r s' = counter r s →
    change r s s'
| change_delete i :
    collection r s' = delete i (collection r s) → counter r s' = counter r s →
    change r s s'
| change_post record :
    record !! "id" = num (counter r s) →
    collection r s' = collection r s ++ [record] → counter r s' = counter r s + 1 →
    change r s s'.

(** ** Sample requests *)

Definition blank : request :=
  {| authorization := None; params_id := ""; query := ∅; body := ∅;
     clock := "2024-01-01T00:00:00.000Z";
     entropy := "000102030405060708090a0b0c0d0e0f" |}.

Definition with_body (props : list (string * value)) (req : request) : request :=
  {| authorization := authorization req; params_id := params_id req;
     query := query req; body := literal props;
     clock := clock req; entropy := entropy req |}.

Definition with_id (id : string) (req : request) : request :=
  {| authorization := authorization req; params_id := id;
     query := query req; body := body req;
     clock := clock req; entropy := entropy req |}.

Definition with_query (params : list (string * string)) (req : request) : request :=
  {| authorization := authorization req; params_id := params_id req;
     query := list_to_map params; body := body req;
     clock := clock req; entropy := entropy req |}.

Definition with_authorization (token : string) (req : request) : request :=
  {| authorization := Some token; params_id := params_id req;
     query := query req; body := body req;
     clock := clock req; entropy := entropy req |}.

Definition cook : request :=
  with_body [("title", str "Cook"); ("company", str "Acme Corp");
             ("description", str "Kitchen work"); ("salary", num 1000)] blank.

Definition shop (name : string) : request :=
  with_body [("name", str name); ("category", str "food"); ("description", str "A shop")] blank.

Definition acme : object :=
  literal [("id", num 1); ("title", str "Cook"); ("company", str "Acme Corp");
           ("description", str "Kitchen work"); ("salary", num 1000);
           ("dateCreated", str "2024-01-01T00:00:00.000Z")].

Definition beta : object :=
  literal [("id", num 2); ("title", str "Driver"); ("company", str "Beta LLC");
           ("description", str "Deliveries"); ("salary", num 5000);
           ("dateCreated", str "2024-01-02T00:00:00.000Z")].

Definition bike : object :=
  literal [("id", num 1); ("title", str "Bike"); ("description", str "A bike");
           ("category", str "sport"); ("price", num 100);
           ("dateCreated", str "2024-01-01T00:00:00.000Z"); ("owner", str "alice")].




Definition alice : request :=
  with_body [("username", str "alice"); ("password", str "secret")] blank.

Definition staffed : server :=
  set_nextVacancyId 3 (set_vacancies [acme; beta] fresh).

Definition bakery : object :=
  literal [("id", num 1); ("name", str "Bakery"); ("category", str "Food");
           ("description", str "Bread"); ("rating", num 5);
           ("dateCreated", str "2024-01-01T00:00:00.000Z")].

Definition garage : object :=
  literal [("id", num 2); ("name", str "Garage"); ("category", str "Cars");
           ("description", str "Repairs"); ("rating", null);
           ("dateCreated", str "2024-01-02T00:00:00.000Z")].

(** * Properties *)

(** ** Objects, searches and filters *)

Lemma lookup_assign k v (o : object) k' :
  assign k v o !! k' = if decide (k = k') then v else o !! k'.
Proof.
  unfold assign. destruct v; [rewrite lookup_insert | rewrite lookup_delete]; done.
Qed.

Lemma strict_eq_number_true v x :
  strict_eq_number v x = true ↔ ∃ n, x = Num n ∧ v = num n.
Proof.
  split.
  - destruct x as [|n]; [done|]. simpl. destruct v as [[]|]; try done.
    intros ->%Z.eqb_eq. by exists n.
  - intros (n & -> & ->). simpl. apply Z.eqb_refl.
Qed.

Lemma find_spec {A} (f : A → bool) l i x :
  find f l = Some (i, x) →
  l !! i = Some x ∧ f x = true ∧ ∀ j y, l !! j = Some y → (j < i)%nat → f y = false.
Proof.
  unfold find. intros (Hi & Hx & Hmin)%list_find_Some. split_and!; [done..|].
  intros j y Hj Hlt. specialize (Hmin j y Hj Hlt). by destruct (f y).
Qed.

(** Replacing an element the search skips by one it skips as well does not
    change what the search finds. *)
Lemma find_insert_skipped {A} (f : A → bool) l i x x' :
  l !! i = Some x → f x = false → f x' = false →
  find f (<[i:=x']> l) = find f l.
Proof.
  unfold find. revert i.
  induction l as [|y l IH]; intros [|i] Hi Hx Hx'; simplify_eq/=; try done.
  - by rewrite !decide_False by congruence.
  - case_decide; [done|]. by rewrite (IH i).
Qed.

Lemma filterM_Return {A} (f : A → outcome bool) (g : A → bool) l :
  Forall (λ x, f x = Return (g x)) l →
  filterM f l = Return (List.filter g l).
Proof.
  induction 1 as [|x l Hx _ IH]; [done|]. simpl. rewrite Hx, IH. simpl.
  by destruct (g x).
Qed.

Lemma filterM_sublist {A} (f : A → outcome bool) l l' :
  filterM f l = Return l' → sublist l' l.
Proof.
  revert l'. induction l as [|x l IH]; intros l'; simpl.
  - intros [= <-]. constructor.
  - destruct (f x) as [keep|]; [|done]. simpl.
    destruct (filterM f l) as [rest|]; [|done]. simpl. intros [= <-].
    destruct keep; constructor; auto.
Qed.

Lemma filterM_Throw {A} (f : A → outcome bool) l x e :
  x ∈ l → f x = Throw e → ∃ e', filterM f l = Throw e'.
Proof.
  intros Hx Hf. induction l as [|y l IH]; [by apply elem_of_nil in Hx|].
  simpl. apply elem_of_cons in Hx as [<-|Hx].
  - rewrite Hf. by exists e.
  - destruct (f y) as [keep|e0]; simpl; [|by exists e0].
    destruct (IH Hx) as [e' ->]. by exists e'.
Qed.

Lemma filter_sublist {A} (g : A → bool) l : sublist (List.filter g l) l.
Proof.
  induction l as [|x l IH]; simpl; [constructor|].
  destruct (g x); by constructor.
Qed.

(** [includes] is the substring relation. *)
Lemma append_cons c s t : String c s +:+ t = String c (s +:+ t).
Proof. reflexivity. Qed.

Lemma prefix_spec s t : String.prefix s t = true ↔ ∃ post, t = s +:+ post.
Proof.
  revert t. induction s as [|c s IH]; intros t.
  - split; [intros _; by exists t|by destruct t].
  - destruct t as [|c' t]; [split; [done|by intros [? ?]]|].
    cbn. setoid_rewrite append_cons.
    destruct (ascii_dec c c') as [->|Hne].
    + rewrite IH. split; intros [post Heq]; exists post; congruence.
    + split; [done|]. intros [post Heq]. congruence.
Qed.

Lemma includes_spec t s :
  includes t s = true ↔ ∃ pre post, t = pre +:+ s +:+ post.
Proof.
  induction t as [|c t IH]; cbn [includes]; rewrite orb_true_iff, prefix_spec.
  - split.
    + intros [[post ->]|?]; [|done]. by exists "", post.
    + intros (pre & post & Heq). left. destruct pre; [by exists post|done].
  - rewrite IH. split.
    + intros [[post ->]|(pre & post & ->)]; [by exists "", post|].
      by exists (String c pre), post.
    + intros ([|c' pre] & post & Heq).
      * left. by exists post.
      * right. exists pre, post. rewrite append_cons in Heq. congruence.
Qed.

(** ** Saving and loading *)

Lemma literal_nextId a b : literal [("nextId", a); ("items", b)] !! "nextId" = a.
Proof. unfold literal. simpl. by rewrite !lookup_assign. Qed.

Lemma literal_items a b : literal [("nextId", a); ("items", b)] !! "items" = b.
Proof. unfold literal. simpl. by rewrite !lookup_assign. Qed.

(** Induction on a value, through its arrays and objects. *)
Lemma depth_arr l j : j ∈ l → (depth j < depth (JArr l))%nat.
Proof. simpl. induction 1; simpl; lia. Qed.

Lemma depth_obj (o : object) k j : o !! k = Some j → (depth j < depth (JObj o))%nat.
Proof.
  simpl. revert k j. induction o as [|k' j' o Hk' IH] using map_ind; intros k j.
  - by rewrite lookup_empty.
  - rewrite map_fold_insert_L; [|intros; lia|done].
    destruct (decide (k' = k)) as [->|Hne].
    + rewrite lookup_insert_eq. intros [= ->]. lia.
    + rewrite lookup_insert_ne by done. intros Hj%IH. lia.
Qed.

Lemma json_nested_ind (P : json → Prop) :
  P JNull → (∀ b, P (JBool b)) → (∀ n, P (JNum n)) → (∀ b, P (JInf b)) →
  (∀ s, P (JStr s)) →
  (∀ l, Forall P l → P (JArr l)) →
  (∀ o, map_Forall (λ _, P) o → P (JObj o)) →
  ∀ j, P j.
Proof.
  intros HNull HBool HNum HInf HStr HArr HObj j.
  remember (depth j) as n eqn:Hn. revert j Hn.
  induction (lt_wf n) as [n _ IH]. intros j ->.
  destruct j as [| | | | |l|o]; auto.
  - apply HArr, Forall_forall. intros j Hj. eapply IH; [|done]. by apply depth_arr.
  - apply HObj. intros k j Hj. eapply IH; [|done]. by eapply depth_obj.
Qed.

(** Writing what was written already changes nothing. *)
Lemma written_written j : written (written j) = written j.
Proof.
  induction j as [| | | | |l IH|o IH] using json_nested_ind; simpl; try done.
  - f_equal. rewrite <- list_fmap_compose. by apply Forall_fmap_ext_1.
  - f_equal. rewrite <- map_fmap_compose. apply map_fmap_ext.
    intros k j Hj. by apply (IH k j).
Qed.

Lemma written_object_written o : written_object (written_object o) = written_object o.
Proof.
  unfold written_object. rewrite <- map_fmap_compose. apply map_fmap_ext.
  intros k j _. apply written_written.
Qed.

Lemma written_arr l : written <$> arr l = arr (written_object <$> l).
Proof. unfold arr. simpl. do 2 f_equal. by rewrite <- !list_fmap_compose. Qed.

Lemma finite_lookup o k : finite o → written <$> (o !! k) = o !! k.
Proof.
  unfold finite, written_object. intros Ho. rewrite <- Ho at 2. by rewrite lookup_fmap.
Qed.

Lemma finite_list l : Forall finite l ↔ written_object <$> l = l.
Proof.
  induction l as [|o l IH]; [by split; [|constructor]|].
  rewrite Forall_cons, IH, fmap_cons. unfold finite.
  split; [intros [Ho Hl]; by rewrite Ho, Hl|by intros [= ? ?]].
Qed.

Lemma finite_assign k (v : value) (o : object) :
  written <$> v = v → finite o → finite (assign k v o).
Proof.
  unfold finite, written_object, assign. intros Hv Ho. destruct v as [j|].
  - injection Hv as Hj. by rewrite fmap_insert, Hj, Ho.
  - by rewrite fmap_delete, Ho.
Qed.

Lemma finite_empty : finite ∅.
Proof. unfold finite, written_object. apply fmap_empty. Qed.

Lemma finite_js_or (a b : value) :
  written <$> a = a → written <$> b = b → written <$> js_or a b = js_or a b.
Proof. unfold js_or. by destruct (truthy a). Qed.

Lemma finite_username_of p :
  (∀ o, p = Own o → finite o) → written <$> username_of p = username_of p.
Proof. destruct p as [o|]; [|done]. intros Ho. simpl. by apply finite_lookup, Ho. Qed.

Lemma loadData_saveData fileName x d dflt :
  loadData (saveData fileName x d) fileName dflt =
  Return {| nextId := js_or (written <$> nextId x) (nextId dflt);
            items := js_or (written <$> items x) (items dflt) |}.
Proof.
  unfold loadData, saveData, readFileSync, writeFileSync, JSON_stringify.
  rewrite lookup_insert_eq. simpl. by rewrite !lookup_fmap, literal_nextId, literal_items.
Qed.

Lemma loadData_saveData_ne fileName other x d dflt :
  fileName ≠ other →
  loadData (saveData fileName x d) other dflt = loadData d other dflt.
Proof.
  intros Hne. unfold loadData, saveData, readFileSync, writeFileSync.
  by rewrite lookup_insert_ne.
Qed.

Lemma as_objects_arr l : as_objects (arr l) = Some l.
Proof.
  unfold as_objects, arr. induction l as [|o l IH]; [done|].
  rewrite fmap_cons. simpl. by rewrite IH.
Qed.

Lemma as_number_Some v n : as_number v = Some n ↔ v = num n.
Proof. unfold num. destruct v as [[]|]; simpl; naive_solver. Qed.

Lemma stored_saveData fileName n l d :
  n ≠ 0 →
  stored (saveData fileName {| nextId := num n; items := arr l |} d) fileName (num n)
    (written_object <$> l).
Proof.
  intros Hn. eexists. split; [apply loadData_saveData|]. simpl.
  unfold js_or. simpl. rewrite (proj2 (Z.eqb_neq n 0)) by done. simpl.
  split; [done|]. change (as_objects (written <$> arr l) = Some (written_object <$> l)).
  rewrite written_arr. apply as_objects_arr.
Qed.

Lemma stored_saveData_users n l d :
  stored (saveData "users.json" {| nextId := n; items := arr l |} d) "users.json"
    (js_or (written <$> n) (num 1)) (written_object <$> l).
Proof.
  eexists. split; [apply loadData_saveData|]. cbn [nextId items defaults].
  rewrite written_arr. split; [done|]. apply as_objects_arr.
Qed.

Lemma stored_saveData_ne fileName other x d n l :
  fileName ≠ other → stored d other n l → stored (saveData fileName x d) other n l.
Proof.
  intros Hne (y & Hy & ?). exists y. by rewrite loadData_saveData_ne.
Qed.

Lemma file_of_inj r r' : file_of r = file_of r' → r = r'.
Proof. by destruct r, r'. Qed.

Lemma file_of_users r : file_of r ≠ "users.json".
Proof. by destruct r. Qed.

(** Start-up is defined exactly on a data directory whose five files load
    into a counter and an array of objects. *)
Lemma boot_stored d s :
  boot d = Some s ↔
  sessions s = ∅ ∧ dataDir s = d ∧
  stored d "users.json" (usersData_nextId s) (users s) ∧
  ∀ r, stored d (file_of r) (num (counter r s)) (collection r s).
Proof.
  split.
  - unfold boot. intros Hboot.
    repeat match type of Hboot with
    | context [loadData d ?f defaults] =>
        let x := fresh "x" in
        let E := fresh "E" in
        destruct (loadData d f defaults) as [x|] eqn:E; simpl in Hboot; [|done]
    | context [as_objects ?v] =>
        let E := fresh "E" in
        destruct (as_objects v) eqn:E; simpl in Hboot; [|done]
    | context [as_number ?v] =>
        let E := fresh "E" in
        destruct (as_number v) eqn:E; simpl in Hboot; [|done]
    end.
    injection Hboot as <-. simpl.
    repeat match goal with H : as_number _ = Some _ |- _ => apply as_number_Some in H end.
    split_and!; [done|done|by eexists|].
    intros []; simpl; by eexists.
  - destruct s; simpl. intros (-> & -> & (x & Hx & <- & Hu) & Hr).
    destruct (Hr Classifieds) as (a & Ha & Ha1 & Ha2).
    destruct (Hr Vacancies) as (v & Hv & Hv1 & Hv2).
    destruct (Hr Companies) as (c & Hc & Hc1 & Hc2).
    destruct (Hr RealEstate) as (p & Hp & Hp1 & Hp2).
    simpl in *. unfold boot. rewrite Hx, Ha, Hv, Hc, Hp. simpl.
    rewrite Hu, Ha1, Ha2, Hv1, Hv2, Hc1, Hc2, Hp1, Hp2. done.
Qed.

(** ** What a handler does to the state *)

Ltac lookup_literal :=
  unfold json_response, literal; simpl;
  repeat (progress (rewrite ?lookup_assign, ?lookup_insert, ?lookup_delete, ?lookup_empty;
                    simpl)).

Ltac split_handler :=
  repeat match goal with
  | |- context [match ?x with _ => _ end] => destruct x eqn:?; simpl
  end.

Ltac unfold_handlers :=
  unfold get_classifieds, post_classifieds, get_classified, put_classified,
    delete_classified, get_vacancies, post_vacancies, get_vacancy, put_vacancy,
    delete_vacancy, get_companies, post_companies, get_company, put_company,
    delete_company, get_real_estate, post_real_estate, get_property, put_property,
    delete_property.

Lemma handle_effect `{!Runtime} rt req s :
  effect s rt (handle rt req s).1 (handle rt req s).2.
Proof.
  destruct rt as [| |r v].
  - simpl. unfold register. split_handler; try by apply effect_none.
    apply effect_register.
  - simpl. unfold login. split_handler; try by apply effect_none.
    apply effect_login.
  - destruct r, v; cbn [handle]; unfold_handlers.
    all: try unfold authenticate, express.
    all: split_handler.
    all: try by apply effect_none.
    all: try (lazymatch goal with
              | |- effect _ (Api ?r POST) _ (json_response _ [(_, str ?m); (_, obj ?rec)]) =>
                  apply (effect_create s r rec m)
              end; lookup_literal; done).
    all: destruct s; by eapply effect_update.
Qed.

Lemma counter_commit r r' n l s :
  counter r' (commit r n l s) = if decide (r = r') then n else counter r' s.
Proof. by destruct r, r'. Qed.

Lemma collection_commit r r' n l s :
  collection r' (commit r n l s) = if decide (r = r') then l else collection r' s.
Proof. by destruct r, r'. Qed.

Lemma dataDir_commit r n l s :
  dataDir (commit r n l s) =
  saveData (file_of r) {| nextId := num n; items := arr l |} (dataDir s).
Proof. by destruct r. Qed.

Lemma users_commit r n l s :
  users (commit r n l s) = users s ∧
  usersData_nextId (commit r n l s) = usersData_nextId s ∧
  sessions (commit r n l s) = sessions s.
Proof. by destruct r. Qed.

Lemma consistent_stored s :
  consistent s ↔
  (∀ r, 1 ≤ counter r s) ∧
  stored (dataDir s) "users.json" (usersData_nextId s) (users s) ∧
  ∀ r, stored (dataDir s) (file_of r) (num (counter r s)) (collection r s).
Proof.
  unfold consistent. rewrite boot_stored. destruct s; simpl. split.
  - intros (? & ? & ? & ? & _ & _ & ? & ?). split_and!; [|done..]. by intros [].
  - intros (Hc & ? & ?).
    pose proof (Hc Classifieds). pose proof (Hc Vacancies).
    pose proof (Hc Companies). pose proof (Hc RealEstate). done.
Qed.

Lemma consistent_fresh : consistent fresh.
Proof. unfold consistent. simpl. split_and!; done. Qed.

(** *** What a restart loads

    Every state the handlers leave is persisted, whatever the requests
    hold; it is consistent when they hold finite numbers only. *)

Lemma persisted_stored s :
  persisted s ↔
  (∀ r, 1 ≤ counter r s) ∧
  stored (dataDir s) "users.json"
    (js_or (written <$> usersData_nextId s) (num 1)) (written_object <$> users s) ∧
  ∀ r, stored (dataDir s) (file_of r) (num (counter r s))
         (written_object <$> collection r s).
Proof.
  unfold persisted. rewrite boot_stored. destruct s; simpl. split.
  - intros (? & ? & ? & ? & _ & _ & ? & Hr). split_and!; [by intros []|done|].
    intros r. specialize (Hr r). by destruct r.
  - intros (Hc & ? & Hr).
    pose proof (Hc Classifieds). pose proof (Hc Vacancies).
    pose proof (Hc Companies). pose proof (Hc RealEstate).
    split_and!; try done. intros r. specialize (Hr r). by destruct r.
Qed.

Lemma persisted_fresh : persisted fresh.
Proof. unfold persisted. simpl. split_and!; done. Qed.

Lemma persisted_commit r n l s : persisted s → 1 ≤ n → persisted (commit r n l s).
Proof.
  rewrite !persisted_stored. intros (Hc & Hu & Hr) Hn.
  destruct (users_commit r n l s) as (-> & -> & _). rewrite dataDir_commit.
  split_and!.
  - intros r'. rewrite counter_commit. case_decide; auto.
  - apply stored_saveData_ne; [apply file_of_users | done].
  - intros r'. rewrite counter_commit, collection_commit. case_decide; subst.
    + apply stored_saveData. lia.
    + apply stored_saveData_ne; [|done]. by intros ?%file_of_inj.
Qed.

Lemma persisted_effect s rt s' res : effect s rt s' res → persisted s → persisted s'.
Proof.
  intros [] Hs; [done| |..].
  - unfold persisted in *. by destruct s.
  - revert Hs. rewrite !persisted_stored. intros (Hc & _ & Hr).
    destruct s; simpl in *. split_and!; [done| |].
    + apply stored_saveData_users.
    + intros r. apply stored_saveData_ne; [|apply Hr].
      intros Heq. by apply (file_of_users r).
  - apply persisted_commit; [done|]. apply persisted_stored in Hs as (Hc & _).
    apply Hc.
  - apply persisted_commit; [done|]. apply persisted_stored in Hs as (Hc & _).
    specialize (Hc r). lia.
Qed.

Lemma reload_reload s : reload (reload s) = reload s.
Proof.
  assert (∀ l : list object,
            written_object <$> (written_object <$> l) = written_object <$> l) as Hl.
  { intros l. rewrite <- list_fmap_compose. apply list_fmap_ext.
    intros i o _. apply written_object_written. }
  unfold reload. simpl. rewrite !Hl. f_equal.
  unfold js_or. destruct (truthy (written <$> usersData_nextId s)) eqn:E; [|done].
  assert (written <$> (written <$> usersData_nextId s) = written <$> usersData_nextId s)
    as -> by (destruct (usersData_nextId s); simpl; by rewrite ?written_written).
  by rewrite E.
Qed.

Lemma persisted_reload s : persisted s → persisted (reload s).
Proof.
  unfold persisted. intros (? & ? & ? & ? & Hboot).
  split_and!; [done..|]. by rewrite reload_reload.
Qed.

(** A state of finite numbers is loaded again as it is. *)
Lemma reload_finite s :
  finite_state s → truthy (usersData_nextId s) = true →
  written <$> usersData_nextId s = usersData_nextId s →
  reload s = set_sessions ∅ s.
Proof.
  intros (Hu%finite_list & Hr & _) Htruthy Hn.
  pose proof (proj1 (finite_list _) (Hr Classifieds)) as Ha.
  pose proof (proj1 (finite_list _) (Hr Vacancies)) as Hv.
  pose proof (proj1 (finite_list _) (Hr Companies)) as Hc.
  pose proof (proj1 (finite_list _) (Hr RealEstate)) as Hp.
  destruct s; simpl in *. unfold reload, set_sessions. simpl.
  rewrite Hu, Ha, Hv, Hc, Hp, Hn. unfold js_or. by rewrite Htruthy.
Qed.

Lemma restartable_stored s :
  restartable s ↔
  (∀ r, 1 ≤ counter r s) ∧
  (∃ n l, stored (dataDir s) "users.json" n l) ∧
  ∀ r, ∃ l, stored (dataDir s) (file_of r) (num (counter r s)) l.
Proof.
  unfold restartable. split.
  - intros (Hc & s0 & (_ & _ & Hu & Hr)%boot_stored & Heq). split_and!; [done|eauto|].
    intros r. exists (collection r s0). rewrite <- Heq. apply Hr.
  - intros (Hc & (n & l & Hu) & Hr). split; [done|].
    destruct (Hr Classifieds) as (a & Ha). destruct (Hr Vacancies) as (v & Hv).
    destruct (Hr Companies) as (c & Hco). destruct (Hr RealEstate) as (p & Hp).
    exists {| sessions := ∅; usersData_nextId := n; users := l;
              nextAdId := nextAdId s; classifieds := a;
              nextVacancyId := nextVacancyId s; vacancies := v;
              nextCompanyId := nextCompanyId s; companies := c;
              nextPropertyId := nextPropertyId s; realEstate := p;
              dataDir := dataDir s |}.
    split; [|by intros []]. apply boot_stored. simpl. split_and!; [done..|].
    by intros [].
Qed.

Lemma consistent_restartable s : consistent s → restartable s.
Proof.
  intros Hs. pose proof Hs as (Hc & _)%consistent_stored.
  split; [done|]. exists (set_sessions ∅ s). split; [apply Hs|]. by destruct s.
Qed.

Lemma persisted_restartable s : persisted s → restartable s.
Proof.
  intros Hs. pose proof Hs as (Hc & _)%persisted_stored.
  split; [done|]. exists (reload s). split; [apply Hs|]. by intros [].
Qed.

Lemma restartable_commit r n l s : restartable s → 1 ≤ n → restartable (commit r n l s).
Proof.
  rewrite !restartable_stored. intros (Hc & (m & u & Hu) & Hr) Hn.
  rewrite dataDir_commit. split_and!.
  - intros r'. rewrite counter_commit. case_decide; auto.
  - exists m, u. apply stored_saveData_ne; [apply file_of_users | done].
  - intros r'. rewrite counter_commit. case_decide; subst.
    + eexists. apply stored_saveData. lia.
    + destruct (Hr r') as (l' & Hl'). exists l'.
      apply stored_saveData_ne; [|done]. by intros ?%file_of_inj.
Qed.

Lemma restartable_effect s rt s' res : effect s rt s' res → restartable s → restartable s'.
Proof.
  intros [] Hs; [done| |..].
  - unfold restartable in *. by destruct s.
  - revert Hs. rewrite !restartable_stored. intros (Hc & _ & Hr).
    destruct s; simpl in *. split_and!; [done| |].
    + eexists _, _. apply stored_saveData_users.
    + intros r. destruct (Hr r) as (l & Hl). exists l.
      apply stored_saveData_ne; [|done]. intros Heq. by apply (file_of_users r).
  - apply restartable_commit; [done|]. apply Hs.
  - apply restartable_commit; [done|]. destruct Hs as (Hc & _). specialize (Hc r). lia.
Qed.

(** What a restart leaves can be restarted, with the same counters. *)
Lemma restartable_boot s :
  restartable s →
  ∃ s0, boot (dataDir s) = Some s0 ∧ restartable s0 ∧ ∀ r, counter r s0 = counter r s.
Proof.
  intros (Hc & s0 & Hboot & Heq). exists s0. split_and!; [done| |done].
  pose proof Hboot as (_ & Hd & _)%boot_stored.
  split; [intros r; rewrite Heq; apply Hc|]. exists s0. by rewrite Hd.
Qed.

(** *** Finite numbers stay finite *)

Ltac finite_value :=
  repeat first
    [ done
    | assumption
    | apply finite_lookup
    | apply finite_js_or
    | match goal with |- context [if ?c then _ else _] => destruct c end ].

Ltac finite_object :=
  unfold literal; cbn [foldl fst snd];
  repeat first
    [ assumption
    | apply finite_empty
    | apply finite_assign; [finite_value|]
    | match goal with |- context [if ?c then _ else _] => destruct c end ].

(** A request whose body holds finite numbers only leaves a state of finite
    numbers as one. *)
Lemma finite_handle `{!Runtime} rt req s :
  finite (body req) → finite_state s → finite_state (handle rt req s).1.
Proof.
  intros Hbody (Husers & Hcoll & Hsess).
  pose proof (Hcoll Classifieds) as Ha. pose proof (Hcoll Vacancies) as Hv.
  pose proof (Hcoll Companies) as Hc. pose proof (Hcoll RealEstate) as Hp.
  assert (∀ (f : object → bool) l i o, Forall finite l → find f l = Some (i, o) → finite o)
    as Hfound.
  { intros f l i o Hl (Hi & _)%find_spec. by eapply Forall_lookup_1. }
  assert (∀ (f : object → bool) l i, findIndex f l = Some i → ∃ o, find f l = Some (i, o))
    as Hindex.
  { intros f l i. unfold findIndex. destruct (find f l) as [[? o]|]; [|done].
    intros [= ->]. by exists o. }
  destruct s as [tokens ? ? ? ? ? ? ? ? ? ? ?]; simpl in *.
  destruct rt as [| |r v].
  - cbn [handle]. unfold register. split_handler; try by split_and!.
    split_and!; simpl; [|done..]. apply Forall_app. split; [done|].
    apply Forall_singleton. finite_object.
  - cbn [handle]. unfold login. split_handler; try by split_and!.
    split_and!; simpl; [done..|].
    apply map_Forall_insert_2; [|done]. subst.
    match goal with E : find _ _ = Some (_, ?o) |- _ =>
      assert (finite o) by (eapply Hfound; [|exact E]; done) end.
    finite_object.
  - destruct r, v; cbn [handle]; unfold_handlers.
    all: try unfold authenticate, express.
    all: split_handler.
    all: try by split_and!.
    all: subst.
    all: repeat match goal with
         | E : findIndex _ _ = Some _ |- _ => apply Hindex in E as [? E]
         | E : find _ _ = Some (_, ?o) |- _ =>
             lazymatch goal with
             | _ : finite o |- _ => fail
             | _ => assert (finite o) by (eapply Hfound; [|exact E]; done)
             end
         end.
    all: split_and!; simpl; try done.
    all: try (intros []; simpl; try done).
    all: try (apply Forall_app; split; [done|]; apply Forall_singleton).
    all: try (apply Forall_insert; [done|]).
    all: try (by apply Forall_delete).
    all: try finite_object.
    all: apply finite_username_of; intros o ->.
    all: match goal with E : index _ _ = Some _ |- _ => unfold index in E end.
    all: destruct (tokens !! _) eqn:E; [simplify_eq; by eapply Hsess|by case_bool_decide].
Qed.

Lemma usersData_nextId_effect s rt s' res :
  effect s rt s' res → usersData_nextId s' = usersData_nextId s.
Proof.
  intros []; try done; try by destruct s.
  - by destruct (users_commit r (counter r s) l s) as (_ & -> & _).
  - by destruct (users_commit r (counter r s + 1) (collection r s ++ [record]) s)
      as (_ & -> & _).
Qed.

Lemma persisted_consistent s :
  persisted s → finite_state s → truthy (usersData_nextId s) = true →
  written <$> usersData_nextId s = usersData_nextId s → consistent s.
Proof.
  intros (? & ? & ? & ? & Hboot) Hfin Htruthy Hn. unfold consistent.
  split_and!; [done..|]. by rewrite Hboot, reload_finite.
Qed.

Lemma issued_app r sent sent' : issued r (sent ++ sent') = issued r sent ++ issued r sent'.
Proof. apply omap_app. Qed.

Lemma created_id_response r message record :
  created_id r (json_response 201 [("message", str message); (singular r, obj record)]) =
  as_number (record !! "id").
Proof. unfold created_id. destruct r; by lookup_literal. Qed.

(** One response either issues the current counter, which then advances by
    one, or issues nothing and leaves the counter as it is. *)
Lemma effect_issued s rt s' res r :
  effect s rt s' res →
  (issued r [(rt, res)] = [] ∧ counter r s' = counter r s) ∨
  (issued r [(rt, res)] = [counter r s] ∧ counter r s' = counter r s + 1 ∧
   rt = Api r POST ∧ status res = 201).
Proof.
  intros [rt' res' Hnone| | |r0 v l res' Hv|r0 record message Hrec].
  - left. split; [|done]. unfold issued. simpl.
    destruct rt' as [| |r0 []]; try done.
    rewrite (proj2 (Z.eqb_neq _ _) (Hnone r0 eq_refl)), andb_false_r. done.
  - left. by destruct s.
  - left. by destruct s.
  - left. rewrite counter_commit. split; [by destruct v|]. by case_decide; subst.
  - rewrite counter_commit. unfold issued. cbn [omap list_omap].
    case_bool_decide; subst; cbn [andb].
    + right. rewrite created_id_response, Hrec. simpl. by rewrite decide_True.
    + left. by rewrite decide_False.
Qed.

Lemma consistent_restart s : consistent s → consistent (set_sessions ∅ s).
Proof. unfold consistent. by destruct s. Qed.

Lemma StronglySorted_lt_NoDup (l : list Z) : StronglySorted Z.lt l → NoDup l.
Proof.
  induction 1 as [|x l _ IH Hx]; constructor; [|done].
  intros Hin. rewrite Forall_forall in Hx. specialize (Hx x Hin). lia.
Qed.

(** ** Identifier allocation and persistence *)

Section Allocation.
Context `{!Runtime}.

Lemma run_call rt req s es :
  run s (Call rt req :: es) =
  '(s', sent) ← run (handle rt req s).1 es; Some (s', (rt, (handle rt req s).2) :: sent).
Proof. simpl. by destruct (handle rt req s). Qed.

Lemma run_restart s :
  consistent s → run s [Restart] = Some (set_sessions ∅ s, []).
Proof. intros (_ & _ & _ & _ & Hboot). simpl. by rewrite Hboot. Qed.

(** Along a run the ids issued for a resource increase strictly and lie
    between the counter before and the counter after.  The process may
    be restarted when the state it starts from can be. *)
Lemma run_issued r es : ∀ s,
  (Restart ∈ es → restartable s) →
  ∃ s' sent, run s es = Some (s', sent) ∧
    counter r s ≤ counter r s' ∧
    StronglySorted Z.lt (issued r sent) ∧
    Forall (λ n, counter r s ≤ n < counter r s') (issued r sent).
Proof.
  induction es as [|e es IH]; intros s Hs.
  - exists s, []. split_and!; [done|lia|constructor|constructor].
  - assert (∃ s1 sent1, step s e = Some (s1, sent1) ∧
              (Restart ∈ es → restartable s1) ∧
              ((issued r sent1 = [] ∧ counter r s1 = counter r s) ∨
               (issued r sent1 = [counter r s] ∧ counter r s1 = counter r s + 1)))
      as (s1 & sent1 & Hstep & Hs1 & Hissued).
    { destruct e as [rt req|]; simpl.
      - pose proof (handle_effect rt req s) as Heff.
        destruct (handle rt req s) as [s1 res]. exists s1, [(rt, res)].
        split_and!; [done| |].
        + intros Hin. eapply restartable_effect; [done|]. apply Hs. by right.
        + destruct (effect_issued _ _ _ _ r Heff) as [?|(? & ? & _)]; auto.
      - destruct (restartable_boot s) as (s0 & Hboot & Hs0 & Heq); [apply Hs; left|].
        rewrite Hboot. simpl. exists s0, []. split_and!; [done|done|left; by rewrite Heq]. }
    destruct (IH s1 Hs1) as (s' & sent & Hrun & Hle & Hsorted & Hrange).
    exists s', (sent1 ++ sent). simpl. rewrite Hstep. simpl. rewrite Hrun. simpl.
    rewrite issued_app.
    destruct Hissued as [[-> Heq]|[-> Heq]]; rewrite Heq in *; simpl.
    + done.
    + split_and!; [done|lia| |].
      * constructor; [done|]. eapply Forall_impl; [done|]. simpl. lia.
      * constructor; [lia|]. eapply Forall_impl; [done|]. simpl. lia.
Qed.

(** Every run from a persisted state is defined and ends in one. *)
Lemma run_persisted es : ∀ s, persisted s →
  ∃ s' sent, run s es = Some (s', sent) ∧ persisted s'.
Proof.
  induction es as [|e es IH]; intros s Hs; [by exists s, []|].
  destruct e as [rt req|]; simpl.
  - pose proof (handle_effect rt req s) as Heff.
    destruct (handle rt req s) as [s1 res]. simpl.
    destruct (IH s1) as (s' & sent & -> & ?); [by eapply persisted_effect|].
    simpl. eauto.
  - pose proof Hs as (_ & _ & _ & _ & Hboot). rewrite Hboot. simpl.
    destruct (IH (reload s)) as (s' & sent & -> & ?); [by apply persisted_reload|].
    simpl. eauto.
Qed.

(** Every run of requests with finite numbers from a consistent state of
    finite numbers is defined and ends in one. *)
Lemma run_consistent es : ∀ s,
  Forall finite_event es → consistent s → finite_state s →
  truthy (usersData_nextId s) = true →
  written <$> usersData_nextId s = usersData_nextId s →
  ∃ s' sent, run s es = Some (s', sent) ∧ consistent s' ∧ finite_state s'.
Proof.
  assert (∀ s, consistent s → finite_state s → truthy (usersData_nextId s) = true →
               written <$> usersData_nextId s = usersData_nextId s → persisted s)
    as Hpersisted.
  { intros s (? & ? & ? & ? & Hboot) ? ? ?. unfold persisted.
    split_and!; [done..|]. by rewrite reload_finite. }
  induction es as [|e es IH]; intros s Hes Hs Hfin Htruthy Hn; [by exists s, []|].
  apply Forall_cons in Hes as [He Hes].
  destruct e as [rt req|]; simpl in *.
  - pose proof (handle_effect rt req s) as Heff.
    pose proof (finite_handle rt req s He Hfin) as Hfin1.
    destruct (handle rt req s) as [s1 res]. simpl in *.
    pose proof (usersData_nextId_effect _ _ _ _ Heff) as Heq.
    destruct (IH s1) as (s' & sent & -> & ?); [done| |done|by rewrite Heq..|].
    + apply persisted_consistent; [|done|by rewrite Heq..].
      eapply persisted_effect; [done|]. by apply Hpersisted.
    + simpl. eauto.
  - pose proof Hs as (_ & _ & _ & _ & Hboot). rewrite Hboot. simpl.
    destruct (IH (set_sessions ∅ s)) as (s' & sent & -> & ?);
      [done|by apply consistent_restart| |by destruct s..|].
    + destruct Hfin as (? & Hr & _).
      split_and!; [by destruct s| |destruct s; apply map_Forall_empty].
      intros r. specialize (Hr r). by destruct r, s.
    + simpl. eauto.
Qed.

Lemma post_companies_created req s :
  Forall (λ k, truthy (body req !! k) = true) (required Companies) →
  ∃ company,
    company !! "id" = num (nextCompanyId s) ∧
    handle (Api Companies POST) req s =
      (commit Companies (nextCompanyId s + 1) (companies s ++ [company]) s,
       json_response 201 [("message", str "Company created"); ("company", obj company)]).
Proof.
  intros Hreq. unfold required in Hreq.
  repeat apply Forall_cons in Hreq as [? Hreq].
  cbn [handle]. unfold post_companies.
  repeat match goal with H : truthy _ = true |- _ => rewrite H; clear H end.
  cbn [negb orb]. eexists. split; [|reflexivity]. by lookup_literal.
Qed.

(** C1, amended.  For each of the four resources that carry ids, and a
    counter on which [++] is exact: a creation that answers 201 gives the
    new record the current value of the resource's counter, appends it and
    advances the counter by one.  No other request changes the counter (a
    deletion does not take it back).  Along every sequence of requests and
    restarts that keeps the counter in that range the ids issued for the
    resource increase strictly, so no id is issued twice.  A registration
    is the creation of a user, and it issues no id: it leaves the counter
    loaded from [users.json] as it is, and the user it stores and the
    answer carry none. *)
Theorem id_allocation (r : resource) :
  (∀ req s, incrementable (counter r s) → status (handle (Api r POST) req s).2 = 201 →
     ∃ record,
       created_id r (handle (Api r POST) req s).2 = Some (counter r s) ∧
       record !! "id" = num (counter r s) ∧
       collection r (handle (Api r POST) req s).1 = collection r s ++ [record] ∧
       counter r (handle (Api r POST) req s).1 = counter r s + 1) ∧
  (∀ rt req s, rt ≠ Api r POST → counter r (handle rt req s).1 = counter r s) ∧
  (∀ es s, - 2 ^ 53 ≤ counter r s → counter r s + Z.of_nat (length es) ≤ 2 ^ 53 →
     (Restart ∈ es → restartable s) →
     ∃ s' sent, run s es = Some (s', sent) ∧
       StronglySorted Z.lt (issued r sent) ∧
       NoDup (issued r sent) ∧
       Forall (λ n, counter r s ≤ n < counter r s') (issued r sent)) ∧
  (∀ req s,
     usersData_nextId (handle Register req s).1 = usersData_nextId s ∧
     (status (handle Register req s).2 = 201 →
      (handle Register req s).2 =
        json_response 201 [("message", str "User registered successfully")] ∧
      ∃ user, users (handle Register req s).1 = users s ++ [user] ∧
              user !! "id" = undefined)).
Proof.
  split_and!.
  - intros req s _. pose proof (handle_effect (Api r POST) req s) as Heff. revert Heff.
    destruct (handle (Api r POST) req s) as [s' res]. simpl. intros Heff Hst.
    inversion Heff as [rt res' Hnone| | |?|? record message Hrec]; simplify_eq.
    + by destruct (Hnone r eq_refl).
    + exists record.
      rewrite created_id_response, Hrec, counter_commit, collection_commit.
      rewrite !decide_True by done. done.
  - intros rt req s Hrt. pose proof (handle_effect rt req s) as Heff.
    destruct (effect_issued _ _ _ _ r Heff) as [[_ ?]|(_ & _ & ? & _)]; done.
  - intros es s _ _ Hs. destruct (run_issued r es s Hs) as (s' & sent & ? & ? & ? & ?).
    exists s', sent. split_and!; [done..| |done]. by apply StronglySorted_lt_NoDup.
  - intros req s. split.
    + apply (usersData_nextId_effect s Register _ (handle Register req s).2).
      apply handle_effect.
    + cbn [handle]. unfold register. split_handler; try done. intros _.
      split; [done|]. eexists. split; [by destruct s|]. by lookup_literal.
Qed.

(** C2, amended.  Loading the file that [saveData] wrote gives back the
    counter and the items saved when the counter is not 0 and the items
    hold finite numbers only.  Every state the server reaches from a
    first run is the state a restart loads again, with [null] in place of
    each number that is not finite (and sessions apart); so it is loaded
    again exactly when the bodies of the requests hold finite numbers
    only.  After three companies are created from such bodies on a first
    run and the process is restarted, the list is those three records,
    with the ids 1, 2 and 3 they were created with, and the next company
    created gets id 4. *)
Theorem persistence_round_trip :
  (∀ fileName n l d, n ≠ 0 → Forall finite l →
     loadData (saveData fileName {| nextId := num n; items := arr l |} d) fileName defaults =
     Return {| nextId := num n; items := arr l |}) ∧
  (∀ es, ∃ s sent, run fresh es = Some (s, sent) ∧
     boot (dataDir s) = Some (reload s)) ∧
  (∀ es, Forall finite_event es →
     ∃ s sent, run fresh es = Some (s, sent) ∧
       boot (dataDir s) = Some (set_sessions ∅ s)) ∧
  (∀ req1 req2 req3 req4 list,
     Forall (λ req, finite (body req)) [req1; req2; req3] →
     Forall (λ req, Forall (λ k, truthy (body req !! k) = true) (required Companies))
       [req1; req2; req3; req4] →
     provided (query list !! "category") = None →
     ∃ s c1 c2 c3 c4,
       run fresh [Call (Api Companies POST) req1; Call (Api Companies POST) req2;
                  Call (Api Companies POST) req3; Restart] =
         Some (s, [(Api Companies POST,
                    json_response 201 [("message", str "Company created");
                                       ("company", obj c1)]);
                   (Api Companies POST,
                    json_response 201 [("message", str "Company created");
                                       ("company", obj c2)]);
                   (Api Companies POST,
                    json_response 201 [("message", str "Company created");
                                       ("company", obj c3)])]) ∧
       c1 !! "id" = num 1 ∧ c2 !! "id" = num 2 ∧ c3 !! "id" = num 3 ∧
       (handle (Api Companies LIST) list s).2 =
         json_response 200 [("companies", arr [c1; c2; c3])] ∧
       (handle (Api Companies POST) req4 s).2 =
         json_response 201 [("message", str "Company created"); ("company", obj c4)] ∧
       c4 !! "id" = num 4).
Proof.
  assert (finite_state fresh) as Hfresh.
  { split_and!; [constructor|by intros []|apply map_Forall_empty]. }
  split_and!.
  - intros fileName n l d Hn Hl%finite_list. rewrite loadData_saveData.
    cbn [nextId items defaults]. rewrite written_arr, Hl. unfold js_or. simpl.
    by rewrite (proj2 (Z.eqb_neq n 0)).
  - intros es. destruct (run_persisted es fresh persisted_fresh) as (s & sent & ? & Hs).
    exists s, sent. split; [done|]. apply Hs.
  - intros es Hes.
    destruct (run_consistent es fresh Hes consistent_fresh Hfresh)
      as (s & sent & ? & Hs & _); [done..|].
    exists s, sent. split; [done|]. apply Hs.
  - intros req1 req2 req3 req4 list Hfin Hreq Hlist.
    apply Forall_cons in Hfin as [F1 Hfin]. apply Forall_cons in Hfin as [F2 Hfin].
    apply Forall_cons in Hfin as [F3 _].
    apply Forall_cons in Hreq as [H1 Hreq]. apply Forall_cons in Hreq as [H2 Hreq].
    apply Forall_cons in Hreq as [H3 Hreq]. apply Forall_cons in Hreq as [H4 _].
    destruct (run_consistent [Call (Api Companies POST) req1; Call (Api Companies POST) req2;
                              Call (Api Companies POST) req3] fresh)
      as (s3' & sent' & Hrun' & Hs3' & _); [by repeat constructor|apply consistent_fresh|done..|].
    destruct (post_companies_created req1 fresh H1) as (c1 & Hc1 & E1).
    set (s1 := commit Companies (nextCompanyId fresh + 1) (companies fresh ++ [c1]) fresh) in *.
    destruct (post_companies_created req2 s1 H2) as (c2 & Hc2 & E2).
    set (s2 := commit Companies (nextCompanyId s1 + 1) (companies s1 ++ [c2]) s1) in *.
    destruct (post_companies_created req3 s2 H3) as (c3 & Hc3 & E3).
    set (s3 := commit Companies (nextCompanyId s2 + 1) (companies s2 ++ [c3]) s2) in *.
    destruct (post_companies_created req4 (set_sessions ∅ s3) H4) as (c4 & Hc4 & E4).
    assert (consistent s3) as Hs3.
    { revert Hrun'. rewrite run_call, E1. cbn [fst snd]. rewrite run_call, E2. cbn [fst snd].
      rewrite run_call, E3. cbn [fst snd run mbind option_bind]. by intros [= <- _]. }
    assert (companies (set_sessions ∅ s3) = [c1; c2; c3]) as Hlist3 by done.
    exists (set_sessions ∅ s3), c1, c2, c3, c4. split_and!; try done.
    + rewrite run_call, E1. cbn [fst snd]. rewrite run_call, E2. cbn [fst snd].
      rewrite run_call, E3. cbn [fst snd]. by rewrite (run_restart s3 Hs3).
    + cbn [handle]. unfold get_companies. rewrite Hlist.
      cbn [mbind outcome_bind express snd]. by rewrite Hlist3.
    + by rewrite E4.
Qed.

End Allocation.

(** C1 as the specification states it fails for the users: a registration
    is answered 201 and the counter of the users is not advanced. *)
Lemma register_issues_no_id :
  ¬ (∀ (req : request) (s : server) (n : Z),
       usersData_nextId s = num n →
       status (handle (H := ascii_runtime) Register req s).2 = 201 →
       usersData_nextId (handle (H := ascii_runtime) Register req s).1 = num (n + 1)).
Proof.
  intros Hclaim. specialize (Hclaim alice fresh 1 eq_refl eq_refl).
  vm_compute in Hclaim. discriminate Hclaim.
Qed.

(** C2 as the specification states it fails on the store state whose
    counter is 0: [saveData] writes the 0, and [loadData] takes a stored 0
    for a missing counter and returns the default. *)
Lemma saveData_loadData_zero_counter :
  ¬ (∀ (d : disk) (fileName : string) (n : Z) (l : list object),
       loadData (saveData fileName {| nextId := num n; items := arr l |} d) fileName defaults =
       Return {| nextId := num n; items := arr l |}).
Proof.
  intros Hclaim. specialize (Hclaim ∅ "companies.json" 0 []).
  vm_compute in Hclaim. discriminate Hclaim.
Qed.

(** It fails as well on a record that holds a number beyond the range of a
    double: [saveData] writes [null] for it. *)
Lemma saveData_loadData_infinity :
  ¬ (∀ (d : disk) (fileName : string) (n : Z) (l : list object), n ≠ 0 →
       loadData (saveData fileName {| nextId := num n; items := arr l |} d) fileName defaults =
       Return {| nextId := num n; items := arr l |}).
Proof.
  intros Hclaim.
  specialize (Hclaim ∅ "companies.json" 2 [literal [("rating", Some (JInf false))]]).
  vm_compute in Hclaim. by specialize (Hclaim ltac:(done)).
Qed.

(** ** Reading and updating one record *)

Section Records.
Context `{!Runtime}.

Ltac lookup_patch :=
  repeat first
    [ progress rewrite ?lookup_assign
    | progress simpl
    | case_decide; subst; try done
    | match goal with |- context [if ?b then _ else _] => destruct b eqn:? end ].

Lemma get_one r req s :
  handle (Api r GET) req s =
  (s, match find (has_id (params_id req)) (collection r s) with
      | Some (_, record) => json_response 200 [(singular r, obj record)]
      | None => json_response 404 [("message", str (not_found r))]
      end).
Proof.
  unfold has_id. destruct r; cbn [handle collection]; unfold_handlers.
  all: by destruct (find _ _) as [[? ?]|].
Qed.

Lemma put_not_found r req s :
  find (has_id (params_id req)) (collection r s) = None →
  handle (Api r PUT) req s = (s, json_response 404 [("message", str (not_found r))]).
Proof.
  unfold has_id. intros Hfind.
  destruct r; cbn [handle collection]; unfold_handlers; cbn [collection] in Hfind.
  all: by rewrite Hfind.
Qed.

(** An update of a record that is found stores and answers the record
    with: each required field replaced when the body gives a truthy value,
    each optional field replaced when the body defines it, and every other
    property as it was. *)
Lemma put_found r req s i record :
  find (has_id (params_id req)) (collection r s) = Some (i, record) →
  ∃ record',
    handle (Api r PUT) req s =
      (commit r (counter r s) (<[i:=record']> (collection r s)) s,
       json_response 200 [("message", str (updated r)); (singular r, obj record')]) ∧
    (∀ k, k ∈ required r →
       record' !! k = if truthy (body req !! k) then body req !! k else record !! k) ∧
    (∀ k, k ∈ optional r →
       record' !! k = if defined (body req !! k) then body req !! k else record !! k) ∧
    (∀ k, k ∉ (required r ++ optional r) → record' !! k = record !! k).
Proof.
  unfold has_id. intros Hfind.
  destruct r; cbn [handle collection]; unfold_handlers; cbn [collection] in Hfind;
    rewrite Hfind; eexists; (split; [destruct s; reflexivity|]).
  all: split_and!; intros k Hk.
  all: cbn [required optional app] in Hk.
  all: repeat (apply elem_of_cons in Hk as [->|Hk]); try (by apply elem_of_nil in Hk).
  all: try (rewrite !not_elem_of_cons in Hk; destruct_and!).
  all: unfold js_or.
  all: lookup_patch; done.
Qed.

Lemma id_kept r :
  ("id" ∉ (required r ++ optional r)) ∧ ("dateCreated" ∉ (required r ++ optional r)).
Proof. destruct r; simpl; rewrite !not_elem_of_cons, !elem_of_nil; naive_solver. Qed.

(** A record whose id is the one of a request is not the record another
    id asks for. *)
Lemma has_id_other id id' (a a' : object) :
  has_id id a = true → a' !! "id" = a !! "id" →
  parseInt id' ≠ parseInt id → has_id id' a' = false.
Proof.
  unfold has_id. intros (n & Hn & Ha)%strict_eq_number_true Heq Hne.
  destruct (strict_eq_number (a' !! "id") (parseInt id')) eqn:E; [|done].
  apply strict_eq_number_true in E as (n' & Hn' & Ha').
  rewrite Heq, Ha in Ha'. injection Ha' as ->. congruence.
Qed.

(** C3.  An update of a classified that exists keeps the price when the
    body has no [price] key and sets the price the body gives otherwise,
    0 included: a classified of price 100 still has price 100 after an
    update with body [{title: "New"}], and has price 0 after an update with
    body [{price: 0}]. *)
Theorem put_classified_price req s i ad :
  find (has_id (params_id req)) (classifieds s) = Some (i, ad) →
  ∃ ad',
    (put_classified req s).2 =
      json_response 200 [("message", str "Ad updated"); ("ad", obj ad')] ∧
    classifieds (put_classified req s).1 !! i = Some ad' ∧
    (body req !! "price" = undefined → ad' !! "price" = ad !! "price") ∧
    (body req !! "price" = num 0 → ad' !! "price" = num 0) ∧
    (∀ price, body req !! "price" = Some price → ad' !! "price" = Some price).
Proof.
  intros Hfind.
  destruct (put_found Classifieds req s i ad Hfind) as (ad' & Hput & _ & Hprice & _).
  apply find_spec in Hfind as (?%lookup_lt_Some & _ & _).
  cbn [handle] in Hput. exists ad'. rewrite Hput. cbn [fst snd].
  specialize (Hprice "price" ltac:(by left)).
  split_and!; [done| | | |].
  - change (classifieds ?s) with (collection Classifieds s).
    rewrite collection_commit, decide_True by done. by apply list_lookup_insert_eq.
  - by intros E; rewrite E in Hprice.
  - by intros E; rewrite E in Hprice.
  - by intros price E; rewrite E in Hprice.
Qed.

(** C9.  For every resource, an update that answers 200 replaces one
    record, the first whose id is the id of the request, by a record with
    the same [id] and [dateCreated]; every record with another id stays
    as it is and where it is, so the record that any other id reads is the
    same before and after; and the other collections and all counters are
    unchanged. *)
Theorem put_frame (r : resource) req s :
  status (handle (Api r PUT) req s).2 = 200 →
  (∃ i record record',
     find (has_id (params_id req)) (collection r s) = Some (i, record) ∧
     collection r (handle (Api r PUT) req s).1 = <[i:=record']> (collection r s) ∧
     record' !! "id" = record !! "id" ∧
     record' !! "dateCreated" = record !! "dateCreated") ∧
  (∀ j other,
     collection r s !! j = Some other → has_id (params_id req) other = false →
     collection r (handle (Api r PUT) req s).1 !! j = Some other) ∧
  (∀ req',
     parseInt (params_id req') ≠ parseInt (params_id req) →
     (handle (Api r GET) req' (handle (Api r PUT) req s).1).2 =
     (handle (Api r GET) req' s).2) ∧
  (∀ r', r' ≠ r →
     collection r' (handle (Api r PUT) req s).1 = collection r' s) ∧
  (∀ r', counter r' (handle (Api r PUT) req s).1 = counter r' s).
Proof.
  destruct (find (has_id (params_id req)) (collection r s)) as [[i record]|] eqn:Hfind.
  2:{ rewrite (put_not_found _ _ _ Hfind). by intros [=]. }
  destruct (put_found r req s i record Hfind) as (record' & -> & _ & _ & Hkept).
  destruct (id_kept r) as [Hid Hdate].
  apply find_spec in Hfind as (Hi & Hrec & _).
  intros _. cbn [fst snd]. split_and!.
  - exists i, record, record'.
    rewrite collection_commit, decide_True by done. auto.
  - intros j other Hj Hother. rewrite collection_commit, decide_True by done.
    rewrite list_lookup_insert_ne; [done|]. intros ->. congruence.
  - intros req' Hne. rewrite !get_one. cbn [snd].
    rewrite collection_commit, decide_True by done.
    rewrite (find_insert_skipped _ _ i record); [done..| |].
    + by eapply has_id_other.
    + eapply has_id_other; [done|by apply Hkept|done].
  - intros r' Hne. rewrite collection_commit. by rewrite decide_False.
  - intros r'. rewrite counter_commit. by case_decide; subst.
Qed.

(** C10.  For every resource and each of its required fields, an update
    of a record that exists leaves the field as it was when the body gives
    a falsy value for it (the empty string, 0, [null], [false], or no
    value), and sets it to the value of the body when that value is
    truthy. *)
Theorem put_required_field (r : resource) req s i record k :
  find (has_id (params_id req)) (collection r s) = Some (i, record) →
  k ∈ required r →
  ∃ record',
    (handle (Api r PUT) req s).2 =
      json_response 200 [("message", str (updated r)); (singular r, obj record')] ∧
    collection r (handle (Api r PUT) req s).1 !! i = Some record' ∧
    (truthy (body req !! k) = false → record' !! k = record !! k) ∧
    (body req !! k ∈ [str ""; num 0; null; Some (JBool false); undefined] →
     record' !! k = record !! k) ∧
    (truthy (body req !! k) = true → record' !! k = body req !! k).
Proof.
  intros Hfind Hk.
  destruct (put_found r req s i record Hfind) as (record' & -> & Hreq & _).
  apply find_spec in Hfind as (?%lookup_lt_Some & _ & _).
  exists record'. cbn [fst snd]. rewrite collection_commit, decide_True by done.
  specialize (Hreq k Hk).
  split_and!; [done|by apply list_lookup_insert_eq|..].
  - by intros E; rewrite E in Hreq.
  - intros Hv. destruct (truthy (body req !! k)) eqn:E; [|done].
    repeat (apply elem_of_cons in Hv as [Hv|Hv]; [by rewrite Hv in E|]).
    by apply elem_of_nil in Hv.
  - by intros E; rewrite E in Hreq.
Qed.

End Records.

(** ** Filtering *)




Lemma provided_Some q : q ≠ "" → provided (Some q) = Some q.
Proof. intros Hq. unfold provided. by destruct (String.eqb_spec q ""). Qed.

Section Filters.
Context `{!Runtime}.

(** The handlers call [toLowerCase] on the field they match: the request
    is answered 500 when the field of some record is not a string. *)
Lemma get_vacancies_not_string s req S v :
  query req !! "category" = Some S → S ≠ "" →
  v ∈ vacancies s → (∀ c, v !! "company" ≠ str c) →
  status (get_vacancies req s).2 = 500.
Proof.
  intros HS Hne Hv Hcompany. unfold get_vacancies. rewrite HS, (provided_Some S Hne).
  cbn [provided].
  edestruct (filterM_Throw
    (λ v, company ← call_toLowerCase (v !! "company");
          Return (includes company (toLowerCase S))) (vacancies s) v TypeError)
    as [e ->]; [done| |done].
  destruct (v !! "company") as [[]|] eqn:E; try done. by destruct (Hcompany s0).
Qed.

Lemma get_real_estate_not_string s req T p :
  query req !! "type" = Some T → T ≠ "" →
  p ∈ realEstate s → (∀ t, p !! "type" ≠ str t) →
  status (get_real_estate req s).2 = 500.
Proof.
  intros HT Hne Hp Htype. unfold get_real_estate. rewrite HT, (provided_Some T Hne).
  cbn [provided].
  edestruct (filterM_Throw
    (λ p, type ← call_toLowerCase (p !! "type");
          Return (String.eqb type (toLowerCase T))) (realEstate s) p TypeError)
    as [e ->]; [done| |done].
  destruct (p !! "type") as [[]|] eqn:E; try done. by destruct (Htype s0).
Qed.



End Filters.




(** ** Loading *)

(** C7, amended.  [loadData] never throws.  It returns the defaults of the
    caller when the file is missing, cannot be read, is not JSON, or holds
    a document that is not an object.  From a file that holds an object it
    returns each of [nextId] and [items] as stored when the stored value
    is truthy, and the default in its place otherwise; so it returns the
    stored counter and array whenever the stored counter is not 0. *)
Theorem loadData_total (d : disk) (fileName : string) (dflt : data) :
  (∃ x, loadData d fileName dflt = Return x) ∧
  (d !! fileName = None ∨ d !! fileName = Some Unreadable ∨
   (∃ raw, d !! fileName = Some (File (Garbled raw))) ∨
   (∃ doc, d !! fileName = Some (File (Document doc)) ∧ ∀ o, doc ≠ JObj o) →
   loadData d fileName dflt = Return dflt) ∧
  (∀ o, d !! fileName = Some (File (Document (JObj o))) →
     loadData d fileName dflt =
     Return {| nextId := js_or (o !! "nextId") (nextId dflt);
               items := js_or (o !! "items") (items dflt) |}) ∧
  (∀ o n l,
     d !! fileName = Some (File (Document (JObj o))) →
     o !! "nextId" = num n → n ≠ 0 → o !! "items" = Some (JArr l) →
     loadData d fileName dflt = Return {| nextId := num n; items := Some (JArr l) |}).
Proof.
  assert (∀ o, d !! fileName = Some (File (Document (JObj o))) →
     loadData d fileName dflt =
     Return {| nextId := js_or (o !! "nextId") (nextId dflt);
               items := js_or (o !! "items") (items dflt) |}) as Hobject.
  { intros o Hd. unfold loadData, readFileSync. by rewrite Hd. }
  split_and!; [| |done|].
  - unfold loadData, try_catch. destruct (_ ≫= _); eauto.
  - unfold loadData, readFileSync.
    intros [->|[->|[[raw ->]|(doc & -> & Hdoc)]]]; try by destruct dflt.
    destruct doc; try by destruct dflt. by destruct (Hdoc o).
  - intros o n l Hd Hn Hne Hl. rewrite (Hobject o Hd), Hn, Hl. unfold js_or. simpl.
    by rewrite (proj2 (Z.eqb_neq n 0)).
Qed.

(** C7 as the specification states it fails on a file that is well formed
    and stores the counter 0: [loadData] returns the default counter. *)
Lemma loadData_zero_counter :
  ¬ (∀ (d : disk) (fileName : string) (n : Z) (l : list json),
       d !! fileName =
         Some (File (Document (JObj (literal [("nextId", num n); ("items", Some (JArr l))])))) →
       loadData d fileName defaults = Return {| nextId := num n; items := Some (JArr l) |}).
Proof.
  intros Hclaim.
  specialize (Hclaim
    {[ "classifieds.json" :=
         File (Document (JObj (literal [("nextId", num 0); ("items", Some (JArr []))]))) ]}
    "classifieds.json" 0 [] eq_refl).
  vm_compute in Hclaim. discriminate Hclaim.
Qed.

(** ** Authentication *)

(** What the middleware does for each kind of header. *)
Lemma authenticate_cases req s next :
  authenticate req s next =
  match authorization req with
  | None => (s, json_response 401 [("message", str "Unauthorized")])
  | Some token =>
      if String.eqb token "" then (s, json_response 401 [("message", str "Unauthorized")])
      else match sessions s !! token with
           | Some session => next (Own session)
           | None =>
               if bool_decide (token ∈ Object_prototype) then next (Inherited token)
               else (s, json_response 401 [("message", str "Unauthorized")])
           end
  end.
Proof.
  unfold authenticate, index. destruct (authorization req) as [token|]; [|done].
  destruct (String.eqb token ""); [done|].
  destruct (sessions s !! token); [done|]. by case_bool_decide.
Qed.

(** A request with no header, or with a token that is neither a session
    nor the name of a property that [sessions] inherits, is answered 401
    and changes nothing. *)
Lemma post_classifieds_unauthorized req s :
  authorization req = None ∨
  (∃ token, authorization req = Some token ∧ sessions s !! token = None ∧
            token ∉ Object_prototype) →
  post_classifieds req s = (s, json_response 401 [("message", str "Unauthorized")]).
Proof.
  unfold post_classifieds. rewrite authenticate_cases.
  intros [->|(token & -> & -> & Hproto)]; [done|].
  destruct (String.eqb token ""); [done|]. by rewrite bool_decide_false.
Qed.

(** A token that is the name of a property every object inherits is let
    through, with no user name. *)
Lemma post_classifieds_inherited req s token :
  authorization req = Some token → token ∈ Object_prototype →
  sessions s !! token = None →
  Forall (λ k, truthy (body req !! k) = true) (required Classifieds) →
  status (post_classifieds req s).2 = 201 ∧
  nextAdId (post_classifieds req s).1 = nextAdId s + 1.
Proof.
  intros Hreq Hproto Hnone Hvalid. unfold required in Hvalid.
  repeat apply Forall_cons in Hvalid as [? Hvalid].
  unfold post_classifieds. rewrite authenticate_cases, Hreq, Hnone.
  assert (String.eqb token "" = false) as ->.
  { apply String.eqb_neq. intros ->. revert Hproto.
    by apply (bool_decide_eq_false_1 ("" ∈ Object_prototype)). }
  rewrite bool_decide_true by done.
  repeat match goal with H : truthy _ = true |- _ => rewrite H; clear H end.
  done.
Qed.

(** C8.  The header [Authorization: constructor] is not the token of any
    session, and a fresh server has no session at all; yet the creation of
    a classified with that header is answered 201, the classified is
    stored without owner, and the counter advances: [sessions[token]]
    finds the property [constructor] that every object inherits. *)
Theorem post_classifieds_inherited_token :
  let req := with_authorization "constructor"
               (with_body [("title", str "Bike"); ("description", str "A bike");
                           ("category", str "sport")] blank) in
  sessions fresh = ∅ ∧
  (post_classifieds req fresh).2 =
    json_response 201
      [("message", str "Classified created");
       ("ad", obj (literal [("id", num 1); ("title", str "Bike");
                            ("description", str "A bike"); ("category", str "sport");
                            ("price", null); ("dateCreated", str (clock blank))]))] ∧
  nextAdId (post_classifieds req fresh).1 = 2 ∧
  length (classifieds (post_classifieds req fresh).1) = 1%nat.
Proof. vm_compute. done. Qed.

(** ** Optional fields on creation *)

(** In [server.js] a creation stores the price, the salary or the rating
    the body defines, whatever its truth value, and [null] when the body
    has none. *)
Lemma post_stores_defined `{!Runtime} r k req s :
  (r, k) ∈ [(Classifieds, "price"); (Vacancies, "salary"); (Companies, "rating");
            (RealEstate, "price")] →
  status (handle (Api r POST) req s).2 = 201 →
  ∃ message record,
    (handle (Api r POST) req s).2 =
      json_response 201 [("message", str message); (singular r, obj record)] ∧
    record !! k = if defined (body req !! k) then body req !! k else null.
Proof.
  intros Hrk.
  repeat (apply elem_of_cons in Hrk as [[= -> ->]|Hrk]); [..|by apply elem_of_nil in Hrk].
  all: cbn [handle]; unfold_handlers; try (rewrite authenticate_cases).
  all: split_handler; try done.
  all: intros _; eexists _, _; (split; [reflexivity|]); by lookup_literal.
Qed.

(** C4.  A property created with the location [""] is stored with the
    location [null], and in the in-memory server a classified created
    with the price 0 is stored with the price [null]: both handlers write
    [value || null]. *)
Theorem post_falsy_coerced :
  let property := with_body [("type", str "flat"); ("title", str "Flat");
                             ("description", str "Two rooms"); ("location", str "")] blank in
  let classified := with_body [("title", str "Bike"); ("description", str "A bike");
                               ("category", str "sport"); ("price", num 0)] blank in
  body property !! "location" = str "" ∧
  (post_real_estate property fresh).2 =
    json_response 201
      [("message", str "Property created");
       ("property", obj (literal [("id", num 1); ("type", str "flat"); ("title", str "Flat");
                                  ("description", str "Two rooms"); ("price", null);
                                  ("location", null);
                                  ("dateCreated", str (clock blank))]))] ∧
  body classified !! "price" = num 0 ∧
  (InMemory.post_classifieds classified
     {| InMemory.nextAdId := 1; InMemory.classifieds := [] |}).2 =
    json_response 201
      [("message", str "Classified created");
       ("ad", obj (literal [("id", num 1); ("title", str "Bike");
                            ("description", str "A bike"); ("category", str "sport");
                            ("price", null);
                            ("dateCreated", str (clock blank))]))].
Proof. vm_compute. done. Qed.

(** ** One collection at a time *)

Lemma find_None {A} (f : A → bool) l :
  find f l = None ↔ Forall (λ a, f a = false) l.
Proof.
  unfold find. rewrite list_find_None. apply Forall_proper; [|done].
  intros a. by destruct (f a).
Qed.

(** A record the search skips can be removed without changing the record
    the search finds. *)
Lemma find_delete_skipped {A} (f : A → bool) l i x :
  l !! i = Some x → f x = false → snd <$> find f (delete i l) = snd <$> find f l.
Proof.
  unfold find. revert i.
  induction l as [|y l IH]; intros [|i] Hi Hx; simplify_eq/=; try done.
  - rewrite decide_False by congruence. by destruct (list_find _ l) as [[? ?]|].
  - case_decide; [done|]. rewrite <- !option_fmap_compose. simpl.
    specialize (IH i Hi Hx). by destruct (list_find _ (delete i l)) as [[? ?]|],
      (list_find _ l) as [[? ?]|]; simplify_eq/=.
Qed.

Lemma find_app_new {A} (f : A → bool) l x :
  Forall (λ a, f a = false) l → f x = true → find f (l ++ [x]) = Some (length l, x).
Proof.
  intros Hl%find_None Hx. unfold find in *. rewrite list_find_app_r by done.
  simpl. by rewrite decide_True.
Qed.

Lemma find_app_skipped {A} (f : A → bool) l x :
  f x = false → find f (l ++ [x]) = find f l.
Proof.
  intros Hx. unfold find. destruct (list_find _ l) as [[i y]|] eqn:E.
  - by apply list_find_app_l.
  - rewrite list_find_app_r by done. simpl. rewrite decide_False; [done|]. by rewrite Hx.
Qed.

(** Replacing the record the search finds by one it accepts as well. *)
Lemma find_insert_found {A} (f : A → bool) l i x x' :
  find f l = Some (i, x) → f x' = true → find f (<[i:=x']> l) = Some (i, x').
Proof.
  unfold find. revert i.
  induction l as [|y l IH]; intros i Hfind Hx'; [done|].
  simpl in Hfind. destruct (decide (f y = true)) as [Hy|Hy].
  - injection Hfind as <- <-. simpl. by rewrite decide_True.
  - destruct (list_find _ l) as [[j z]|] eqn:E; [|done]. simpl in Hfind.
    injection Hfind as <- <-. simpl. rewrite decide_False by done. by rewrite (IH j).
Qed.

Lemma StronglySorted_delete {A} (R : relation A) l i :
  StronglySorted R l → StronglySorted R (delete i l).
Proof.
  intros Hl. revert i. induction Hl as [|x l Hl IH Hx]; intros [|i]; simpl; try done.
  - constructor.
  - constructor.
  - constructor; [apply IH|]. by apply Forall_delete.
Qed.

Lemma collection_set_sessions r x s : collection r (set_sessions x s) = collection r s.
Proof. by destruct r. Qed.

Lemma counter_set_sessions r x s : counter r (set_sessions x s) = counter r s.
Proof. by destruct r. Qed.

Section Changes.
Context `{!Runtime}.

Lemma delete_one r req s :
  handle (Api r DELETE) req s =
  match find (has_id (params_id req)) (collection r s) with
  | Some (i, _) =>
      (commit r (counter r s) (delete i (collection r s)) s,
       json_response 200 [("message", str (deleted r))])
  | None => (s, json_response 404 [("message", str (not_found r))])
  end.
Proof.
  unfold has_id. destruct r; cbn [handle collection]; unfold_handlers; unfold findIndex.
  all: destruct (find _ _) as [[? ?]|]; [|done]; by destruct s.
Qed.

Lemma put_cases r req s :
  (∃ i record record',
     find (has_id (params_id req)) (collection r s) = Some (i, record) ∧
     handle (Api r PUT) req s =
       (commit r (counter r s) (<[i:=record']> (collection r s)) s,
        json_response 200 [("message", str (updated r)); (singular r, obj record')])) ∨
  handle (Api r PUT) req s = (s, json_response 404 [("message", str (not_found r))]).
Proof.
  destruct (find (has_id (params_id req)) (collection r s)) as [[i record]|] eqn:Hfind.
  - left. destruct (put_found r req s i record Hfind) as (record' & Heq & _). eauto.
  - right. by apply put_not_found.
Qed.

Lemma list_state r req s : (handle (Api r LIST) req s).1 = s.
Proof.
  destruct r; cbn [handle]; unfold_handlers; try done.
  all: unfold express; by destruct (_ ≫= _).
Qed.

Lemma list_unfiltered r req s :
  unfiltered r req →
  handle (Api r LIST) req s = (s, json_response 200 [(plural r, arr (collection r s))]).
Proof.
  destruct r; cbn [handle unfiltered]; unfold_handlers; try done.
  - by intros [-> ->].
  - by intros ->.
  - by intros [-> ->].
Qed.

(** A list request answers a part of the collection, in its order, or
    fails. *)
Lemma list_cases r req s :
  (∃ result, handle (Api r LIST) req s = (s, json_response 200 [(plural r, arr result)]) ∧
             sublist result (collection r s)) ∨
  handle (Api r LIST) req s = (s, {| status := 500; payload := undefined |}).
Proof.
  destruct r; cbn [handle collection plural]; unfold_handlers; unfold express.
  - left. by eexists.
  - destruct (match provided (query req !! "category") with
              | Some _ => _ | None => _ end) as [result|] eqn:E; simpl; [left|by right].
    eexists. split; [done|].
    assert (sublist result (vacancies s)) as Hsub.
    { destruct (provided (query req !! "category")).
      - by eapply filterM_sublist.
      - by injection E as <-. }
    destruct (provided (query req !! "minSalary")); [|done].
    destruct (isNaN _); [done|]. etrans; [apply filter_sublist|done].
  - destruct (match provided (query req !! "category") with
              | Some _ => _ | None => _ end) as [result|] eqn:E; simpl; [left|by right].
    eexists. split; [done|].
    destruct (provided (query req !! "category")).
    + by eapply filterM_sublist.
    + by injection E as <-.
  - destruct (match provided (query req !! "type") with
              | Some _ => _ | None => _ end) as [result|] eqn:E; simpl; [left|by right].
    eexists. split; [done|].
    assert (sublist result (realEstate s)) as Hsub.
    { destruct (provided (query req !! "type")).
      - by eapply filterM_sublist.
      - by injection E as <-. }
    destruct (provided (query req !! "minPrice")); [|done].
    destruct (isNaN _); [done|]. etrans; [apply filter_sublist|done].
Qed.

(** Every request does to a collection one of the four things [change]
    lists. *)
Lemma handle_change r rt req s : change r s (handle rt req s).1.
Proof.
  assert (∀ rt, (∀ v, rt ≠ Api r v) ∨ rt = Api r POST → change r s (handle rt req s).1) as Heff.
  { clear rt. intros rt Hrt. pose proof (handle_effect rt req s) as Heff.
    destruct (handle rt req s) as [s' res]. simpl in *.
    inversion Heff as [| | |r' v l res' Hv|r' record message Hrec]; simplify_eq.
    - by apply change_none.
    - apply change_none; by destruct s, r.
    - apply change_none; by destruct s, r.
    - destruct Hrt as [Hrt|[=]]; [|done].
      apply change_none; [rewrite collection_commit|rewrite counter_commit].
      all: rewrite decide_False; [done|]; intros ->; by destruct (Hrt v).
    - destruct (decide (r' = r)) as [->|Hne].
      + apply (change_post _ _ _ record); [done|..].
        * by rewrite collection_commit, decide_True.
        * by rewrite counter_commit, decide_True.
      + apply change_none; [rewrite collection_commit|rewrite counter_commit].
        all: by rewrite decide_False. }
  destruct rt as [| |r' v]; try (apply Heff; left; done).
  destruct (decide (r' = r)) as [->|Hne]; [|apply Heff; left; congruence].
  destruct v.
  - rewrite list_state. by apply change_none.
  - apply Heff. by right.
  - rewrite get_one. by apply change_none.
  - destruct (find (has_id (params_id req)) (collection r s)) as [[i record]|] eqn:Hfind.
    + destruct (put_found r req s i record Hfind) as (record' & -> & _ & _ & Hkept).
      apply find_spec in Hfind as (Hi & _ & _).
      apply (change_put _ _ _ i record record'); [done|..]; cbn [fst].
      * apply Hkept, id_kept.
      * by rewrite collection_commit, decide_True.
      * by rewrite counter_commit, decide_True.
    + rewrite (put_not_found _ _ _ Hfind). by apply change_none.
  - rewrite delete_one.
    destruct (find (has_id (params_id req)) (collection r s)) as [[i record]|].
    + apply (change_delete _ _ _ i); cbn [fst].
      * by rewrite collection_commit, decide_True.
      * by rewrite counter_commit, decide_True.
    + by apply change_none.
Qed.

End Changes.

Lemma allocated_change r s s' : change r s s' → allocated r s → allocated r s'.
Proof.
  unfold allocated, ids.
  intros [Hl Hc|i record record' Hi Hid Hl Hc|i Hl Hc|record Hid Hl Hc]
         (Hone & ns & Hns & Hsorted & Hrange);
    rewrite Hl, Hc; (split; [lia|]).
  - by exists ns.
  - exists ns. split_and!; [|done..].
    rewrite list_fmap_insert, Hid, list_insert_id; [done|].
    by rewrite list_lookup_fmap, Hi.
  - exists (delete i ns). split_and!.
    + by rewrite !list_fmap_delete, Hns.
    + by apply StronglySorted_delete.
    + by apply Forall_delete.
  - exists (ns ++ [counter r s]). split_and!.
    + rewrite !fmap_app, Hns. simpl. by rewrite Hid.
    + apply StronglySorted_app_2; [|done|repeat constructor].
      intros x1 x2 Hx1 ->%list_elem_of_singleton.
      rewrite Forall_forall in Hrange. specialize (Hrange x1 Hx1). lia.
    + apply Forall_app. split.
      * eapply Forall_impl; [done|]. simpl. lia.
      * repeat constructor; lia.
Qed.

Lemma allocated_unique r s i j a b n :
  allocated r s → collection r s !! i = Some a → collection r s !! j = Some b →
  a !! "id" = num n → b !! "id" = num n → i = j.
Proof.
  intros (_ & ns & Hns & Hsorted%StronglySorted_lt_NoDup & _) Hi Hj Ha Hb.
  assert (∀ k c, collection r s !! k = Some c → c !! "id" = num n → ns !! k = Some n) as Hk.
  { intros k c Hk Hc. assert (ids (collection r s) !! k = Some (num n)) as Hid.
    { unfold ids. by rewrite list_lookup_fmap, Hk, <- Hc. }
    rewrite Hns, list_lookup_fmap in Hid. destruct (ns !! k); [|done].
    simpl in Hid. unfold num in Hid. congruence. }
  eapply NoDup_lookup; eauto.
Qed.

Lemma allocated_below r s a :
  allocated r s → a ∈ collection r s → ∃ n, a !! "id" = num n ∧ 1 ≤ n < counter r s.
Proof.
  intros (_ & ns & Hns & _ & Hrange) (i & Hi)%list_elem_of_lookup.
  assert (ids (collection r s) !! i = Some (a !! "id")) as Hid.
  { unfold ids. by rewrite list_lookup_fmap, Hi. }
  rewrite Hns, list_lookup_fmap in Hid. destruct (ns !! i) as [n|] eqn:E; [|done].
  exists n. split; [by injection Hid|].
  rewrite Forall_forall in Hrange. apply Hrange. by eapply list_elem_of_lookup_2.
Qed.

(** The ids are written as they are, and a restart keeps them. *)
Lemma ids_written l ns : ids l = num <$> ns → ids (written_object <$> l) = num <$> ns.
Proof.
  unfold ids. intros Hl.
  assert ((λ a : object, a !! "id") <$> (written_object <$> l) =
          fmap written <$> ((λ a : object, a !! "id") <$> l)) as ->.
  { rewrite <- !list_fmap_compose. apply list_fmap_ext. intros i o _. simpl.
    unfold written_object. by rewrite lookup_fmap. }
  rewrite Hl, <- list_fmap_compose. by apply list_fmap_ext.
Qed.

Lemma allocated_reload r s : allocated r s → allocated r (reload s).
Proof.
  intros (Hone & ns & Hns & Hsorted & Hrange).
  assert (counter r (reload s) = counter r s) as Hc by (by destruct r).
  assert (collection r (reload s) = written_object <$> collection r s) as Hl
    by (by destruct r).
  unfold allocated. rewrite Hc, Hl. split; [done|]. exists ns.
  split_and!; [by apply ids_written|done..].
Qed.

Section Reachable.
Context `{!Runtime}.

(** A property of the state that the requests of a run and a restart keep
    holds along the run, from a persisted state where it holds. *)
Lemma run_invariant (Q : event → Prop) (P : server → Prop) :
  (∀ rt req s, Q (Call rt req) → P s → P (handle rt req s).1) →
  (∀ s, Q Restart → P s → P (reload s)) →
  ∀ es s, Forall Q es → persisted s → P s →
    ∃ s' sent, run s es = Some (s', sent) ∧ persisted s' ∧ P s'.
Proof.
  intros Hcall Hrestart es.
  induction es as [|e es IH]; intros s Hes Hs HP; [by exists s, []|].
  apply Forall_cons in Hes as [He Hes].
  destruct e as [rt req|]; simpl.
  - pose proof (handle_effect rt req s) as Heff. specialize (Hcall rt req s He HP).
    destruct (handle rt req s) as [s1 res]. simpl in *.
    destruct (IH s1) as (s' & sent & -> & ?); [done|by eapply persisted_effect|done|].
    simpl. eauto.
  - pose proof Hs as (_ & _ & _ & _ & Hboot). rewrite Hboot. simpl.
    destruct (IH (reload s)) as (s' & sent & -> & ?);
      [done|by apply persisted_reload|by apply Hrestart|].
    simpl. eauto.
Qed.

(** X1.  Whatever requests and restarts a server started on an empty data
    directory has gone through, in each of its collections the ids are
    numbers that increase strictly along the list and lie between 1 and
    the counter of the collection; so no two records of a collection have
    the same id, and the next id to be issued is the id of none. *)
Theorem ids_allocated es :
  ∃ s sent, run fresh es = Some (s, sent) ∧
    (∀ r, allocated r s) ∧
    (∀ r i j a b, collection r s !! i = Some a → collection r s !! j = Some b →
                  a !! "id" = b !! "id" → i = j) ∧
    (∀ r a, a ∈ collection r s → a !! "id" ≠ num (counter r s)).
Proof.
  destruct (run_invariant (λ _, True) (λ s, ∀ r, allocated r s))
    with (es := es) (s := fresh) as (s & sent & Hrun & _ & Halloc).
  - intros rt req s _ Hs r. eapply allocated_change; [apply handle_change|done].
  - intros s _ Hs r. by apply allocated_reload.
  - by apply Forall_forall.
  - apply persisted_fresh.
  - intros r. split; [by destruct r|]. exists []. split_and!; [by destruct r|constructor..].
  - exists s, sent. split_and!; [done..| |].
    + intros r i j a b Hi Hj Heq.
      destruct (allocated_below r s a (Halloc r)) as (n & Hn & _);
        [by eapply list_elem_of_lookup_2|].
      eapply allocated_unique; [done..|congruence].
    + intros r a Ha Heq. destruct (allocated_below r s a (Halloc r) Ha) as (n & Hn & Hlt).
      rewrite Heq in Hn. unfold num in Hn. assert (n = counter r s) by congruence. lia.
Qed.

End Reachable.

(** ** Creating, reading, updating and deleting *)

Section Crud.
Context `{!Runtime}.

Lemma complete_Forall r req :
  complete r req = true ↔ Forall (λ k, truthy (body req !! k) = true) (required r).
Proof.
  unfold complete.
  destruct r; simpl; rewrite !Forall_cons, Forall_nil, !andb_true_iff; intuition.
Qed.

Lemma authorized_index req s :
  authorized req s = true ↔
  ∃ token user, authorization req = Some token ∧ token ≠ "" ∧
                index (sessions s) token = Some user.
Proof.
  unfold authorized. destruct (authorization req) as [token|];
    [|split; [done|by intros (? & ? & ? & _)]].
  rewrite andb_true_iff, negb_true_iff, String.eqb_neq, bool_decide_eq_true.
  split.
  - intros [? [user ?]]. by exists token, user.
  - intros (? & user & [= <-] & ? & ?). eauto.
Qed.

Lemma authenticate_authorized req s next :
  authenticate req s next =
  if authorized req s then
    match authorization req with
    | Some token => match index (sessions s) token with
                    | Some user => next user
                    | None => (s, json_response 401 [("message", str "Unauthorized")])
                    end
    | None => (s, json_response 401 [("message", str "Unauthorized")])
    end
  else (s, json_response 401 [("message", str "Unauthorized")]).
Proof.
  unfold authenticate, authorized. destruct (authorization req) as [token|]; [|done].
  destruct (String.eqb token ""); [done|]. simpl.
  destruct (index (sessions s) token) eqn:E.
  - by rewrite bool_decide_true.
  - rewrite bool_decide_false; [done|]. by intros [? ?].
Qed.

(** The three answers to a creation. *)
Lemma post_cases r req s :
  (guarded (Api r POST) = true → authorized req s = false →
   handle (Api r POST) req s = (s, json_response 401 [("message", str "Unauthorized")])) ∧
  (guarded (Api r POST) = false ∨ authorized req s = true → complete r req = false →
   handle (Api r POST) req s =
     (s, json_response 400 [("message", str "Missing required fields")])) ∧
  (guarded (Api r POST) = false ∨ authorized req s = true → complete r req = true →
   ∃ record,
     handle (Api r POST) req s =
       (commit r (counter r s + 1) (collection r s ++ [record]) s,
        json_response 201 [("message", str (created r)); (singular r, obj record)]) ∧
     record !! "id" = num (counter r s) ∧
     record !! "dateCreated" = str (clock req) ∧
     ∀ k, k ∈ required r → record !! k = body req !! k).
Proof.
  split_and!.
  - destruct r; [|done..]. intros _ Hno. cbn [handle]. unfold post_classifieds.
    by rewrite authenticate_authorized, Hno.
  - intros Hauth Hbody. unfold complete in Hbody.
    destruct r; cbn [handle required forallb] in *; unfold_handlers.
    1:{ destruct Hauth as [[=]|Hauth]. rewrite authenticate_authorized, Hauth.
        apply authorized_index in Hauth as (token & user & -> & _ & ->).
        destruct (truthy (body req !! "title")), (truthy (body req !! "description")),
          (truthy (body req !! "category")); done. }
    all: repeat match goal with |- context [truthy ?v] => destruct (truthy v) end; done.
  - intros Hauth Hbody. apply complete_Forall in Hbody.
    destruct r; cbn [handle required] in *; unfold_handlers.
    1:{ destruct Hauth as [[=]|Hauth]. rewrite authenticate_authorized, Hauth.
        apply authorized_index in Hauth as (token & user & -> & _ & ->).
        repeat apply Forall_cons in Hbody as [? Hbody].
        repeat match goal with H : truthy _ = true |- _ => rewrite H; clear H end.
        cbn [negb orb]. eexists. split; [by destruct s|].
        split_and!; [by lookup_literal..|].
        intros k Hk. repeat (apply elem_of_cons in Hk as [->|Hk]); [..|by apply elem_of_nil in Hk].
        all: by lookup_literal. }
    all: repeat apply Forall_cons in Hbody as [? Hbody].
    all: repeat match goal with H : truthy _ = true |- _ => rewrite H; clear H end.
    all: cbn [negb orb]; eexists; (split; [by destruct s|]).
    all: split_and!; [by lookup_literal..|].
    all: intros k Hk; repeat (apply elem_of_cons in Hk as [->|Hk]);
      [..|by apply elem_of_nil in Hk].
    all: by lookup_literal.
Qed.

Lemma post_created r req s :
  status (handle (Api r POST) req s).2 = 201 →
  ∃ record,
    handle (Api r POST) req s =
      (commit r (counter r s + 1) (collection r s ++ [record]) s,
       json_response 201 [("message", str (created r)); (singular r, obj record)]) ∧
    record !! "id" = num (counter r s).
Proof.
  destruct (post_cases r req s) as (H401 & H400 & H201).
  destruct (guarded (Api r POST)) eqn:Hg, (authorized req s) eqn:Ha, (complete r req) eqn:Hc.
  all: try (rewrite H401 by done; by intros [=]).
  all: try (rewrite H400 by auto; by intros [=]).
  all: destruct H201 as (record & Heq & Hid & _); auto.
  all: intros _; by exists record.
Qed.

(** X2.  A creation is answered 401 exactly when its route is behind the
    middleware and the request is not authorized, whatever its body; 400
    exactly when it is let through and some required field of the body is
    falsy; 201 exactly when it is let through and the body is complete.
    The record created is the last of the collection; it has the counter
    as its id, the time of the request as its date of creation, and each
    required field as the body gives it. *)
Theorem post_outcome r req s :
  (status (handle (Api r POST) req s).2 = 401 ↔
   guarded (Api r POST) = true ∧ authorized req s = false) ∧
  (status (handle (Api r POST) req s).2 = 400 ↔
   (guarded (Api r POST) = false ∨ authorized req s = true) ∧ complete r req = false) ∧
  (status (handle (Api r POST) req s).2 = 201 ↔
   (guarded (Api r POST) = false ∨ authorized req s = true) ∧ complete r req = true) ∧
  (status (handle (Api r POST) req s).2 = 201 →
   ∃ record,
     (handle (Api r POST) req s).2 =
       json_response 201 [("message", str (created r)); (singular r, obj record)] ∧
     collection r (handle (Api r POST) req s).1 = collection r s ++ [record] ∧
     record !! "id" = num (counter r s) ∧
     record !! "dateCreated" = str (clock req) ∧
     ∀ k, k ∈ required r → record !! k = body req !! k).
Proof.
  destruct (post_cases r req s) as (H401 & H400 & H201).
  destruct (guarded (Api r POST)) eqn:Hg, (authorized req s) eqn:Ha, (complete r req) eqn:Hc.
  all: try (rewrite H401 by done; cbn [snd json_response status];
            split_and!; try done; intuition congruence).
  all: try (rewrite H400 by auto; cbn [snd json_response status];
            split_and!; try done; intuition congruence).
  all: destruct H201 as (record & -> & Hid & Hdate & Hreq); auto.
  all: cbn [fst snd json_response status].
  all: rewrite collection_commit, decide_True by done.
  all: split_and!; try (intuition congruence).
  all: intros _; by exists record.
Qed.

(** X3.  A creation stores nothing of the body but the required and the
    optional fields: the record a creation answers has no property
    besides the id, those fields, the date of creation and, for a
    classified, the owner; the id is the counter, the date is the time of
    the request and the owner is the name of the session of the token, so
    an [id], a [dateCreated] or an [owner] in the body is ignored. *)
Theorem post_ignores_other_fields r req s :
  status (handle (Api r POST) req s).2 = 201 →
  ∃ record,
    (handle (Api r POST) req s).2 =
      json_response 201 [("message", str (created r)); (singular r, obj record)] ∧
    (∀ k, k ∉ stored_fields r → record !! k = None) ∧
    record !! "id" = num (counter r s) ∧
    record !! "dateCreated" = str (clock req) ∧
    (if guarded (Api r POST)
     then ∃ token user, authorization req = Some token ∧
                        index (sessions s) token = Some user ∧
                        record !! "owner" = username_of user
     else record !! "owner" = None).
Proof.
  destruct r; cbn [handle created singular guarded counter]; unfold_handlers.
  1:{ rewrite authenticate_authorized. destruct (authorized req s) eqn:Hauth; [|done].
      apply authorized_index in Hauth as (token & user & Htoken & _ & Hindex).
      rewrite Htoken, Hindex. destruct (_ || _); [done|].
      intros _. eexists. split; [done|]. split_and!.
      - intros k Hk. unfold stored_fields in Hk. simpl in Hk.
        rewrite !not_elem_of_cons in Hk. destruct_and!.
        unfold literal. cbn [foldl fst snd]. rewrite !lookup_assign.
        repeat (case_decide; [congruence|]). apply lookup_empty.
      - by lookup_literal.
      - by lookup_literal.
      - exists token, user. split_and!; [done..|]. by lookup_literal. }
  all: destruct (_ || _); [done|]; intros _; eexists; (split; [done|]); split_and!.
  all: try by lookup_literal.
  all: intros k Hk; unfold stored_fields in Hk; simpl in Hk.
  all: rewrite !not_elem_of_cons in Hk; destruct_and!.
  all: unfold literal; cbn [foldl fst snd]; rewrite !lookup_assign.
  all: repeat (case_decide; [congruence|]); apply lookup_empty.
Qed.

Lemma has_id_counter r s a id :
  allocated r s → a ∈ collection r s → parseInt id = Num (counter r s) →
  has_id id a = false.
Proof.
  intros Halloc Ha Hid. destruct (allocated_below r s a Halloc Ha) as (n & Hn & Hlt).
  unfold has_id. rewrite Hid, Hn. simpl. apply Z.eqb_neq. lia.
Qed.

(** X4.  In a state whose ids are allocated, the record a creation answers
    is the record that reading its id answers afterwards; reading any
    other id answers what it answered before; and the record is the last
    of the list that a list request without filter answers. *)
Theorem post_then_get r req s :
  allocated r s → status (handle (Api r POST) req s).2 = 201 →
  ∃ record,
    (handle (Api r POST) req s).2 =
      json_response 201 [("message", str (created r)); (singular r, obj record)] ∧
    record !! "id" = num (counter r s) ∧
    (∀ req', parseInt (params_id req') = Num (counter r s) →
       (handle (Api r GET) req' (handle (Api r POST) req s).1).2 =
       json_response 200 [(singular r, obj record)]) ∧
    (∀ req', parseInt (params_id req') ≠ Num (counter r s) →
       (handle (Api r GET) req' (handle (Api r POST) req s).1).2 =
       (handle (Api r GET) req' s).2) ∧
    (∀ req', unfiltered r req' →
       (handle (Api r LIST) req' (handle (Api r POST) req s).1).2 =
       json_response 200 [(plural r, arr (collection r s ++ [record]))]).
Proof.
  intros Halloc Hst. destruct (post_created r req s Hst) as (record & -> & Hid).
  exists record. cbn [fst snd]. split_and!; [done..| | |].
  - intros req' Hreq'. rewrite get_one. cbn [snd].
    rewrite collection_commit, decide_True by done.
    rewrite find_app_new; [done| |].
    + apply Forall_forall. intros a Ha. by eapply has_id_counter.
    + unfold has_id. rewrite Hreq', Hid. simpl. apply Z.eqb_refl.
  - intros req' Hreq'. rewrite !get_one. cbn [snd].
    rewrite collection_commit, decide_True by done.
    rewrite find_app_skipped; [done|]. unfold has_id. rewrite Hid.
    destruct (parseInt (params_id req')) as [|n]; [done|]. simpl.
    apply Z.eqb_neq. congruence.
  - intros req' Hreq'. rewrite (list_unfiltered r req' _ Hreq'). cbn [snd].
    by rewrite collection_commit, decide_True.
Qed.

Lemma has_id_same id (a b : object) :
  has_id id a = true → has_id id b = true → ∃ n, a !! "id" = num n ∧ b !! "id" = num n.
Proof.
  unfold has_id. intros (n & Hn & Ha)%strict_eq_number_true (m & Hm & Hb)%strict_eq_number_true.
  exists n. split; [done|]. congruence.
Qed.

Lemma has_id_id id (a b : object) : a !! "id" = b !! "id" → has_id id a = has_id id b.
Proof. unfold has_id. by intros ->. Qed.

(** In a state whose ids are allocated at most one record has a given
    id. *)
Lemma find_delete_found r s id i record :
  allocated r s → find (has_id id) (collection r s) = Some (i, record) →
  find (has_id id) (delete i (collection r s)) = None.
Proof.
  intros Halloc (Hi & Hrec & _)%find_spec. apply find_None, Forall_forall.
  intros b (j & Hj)%list_elem_of_lookup.
  destruct (has_id id b) eqn:Hb; [|done]. exfalso.
  destruct (has_id_same id record b Hrec Hb) as (n & Hn & Hm).
  rewrite list_lookup_delete in Hj. case_decide.
  - pose proof (allocated_unique r s i j record b n Halloc Hi Hj Hn Hm). lia.
  - pose proof (allocated_unique r s i (S j) record b n Halloc Hi Hj Hn Hm). lia.
Qed.

(** X5.  A deletion that answers 200 removes from the collection the first
    record whose id is the id of the request, and nothing else: the other
    records keep their order, the counter keeps its value, and reading any
    other id answers what it answered before.  In a state whose ids are
    allocated the id is gone: reading it and deleting it again answer
    404. *)
Theorem delete_removes r req s :
  status (handle (Api r DELETE) req s).2 = 200 →
  ∃ i record,
    find (has_id (params_id req)) (collection r s) = Some (i, record) ∧
    (handle (Api r DELETE) req s).2 = json_response 200 [("message", str (deleted r))] ∧
    collection r (handle (Api r DELETE) req s).1 = delete i (collection r s) ∧
    counter r (handle (Api r DELETE) req s).1 = counter r s ∧
    (∀ req', parseInt (params_id req') ≠ parseInt (params_id req) →
       (handle (Api r GET) req' (handle (Api r DELETE) req s).1).2 =
       (handle (Api r GET) req' s).2) ∧
    (allocated r s →
       (handle (Api r GET) req (handle (Api r DELETE) req s).1).2 =
         json_response 404 [("message", str (not_found r))] ∧
       (handle (Api r DELETE) req (handle (Api r DELETE) req s).1).2 =
         json_response 404 [("message", str (not_found r))]).
Proof.
  rewrite delete_one.
  destruct (find (has_id (params_id req)) (collection r s)) as [[i record]|] eqn:Hfind;
    [|by intros [=]].
  intros _. exists i, record. cbn [fst snd].
  rewrite collection_commit, counter_commit, !decide_True by done.
  split_and!; [done..| |].
  - intros req' Hne. rewrite !get_one. cbn [snd].
    rewrite collection_commit, decide_True by done.
    apply find_spec in Hfind as (Hi & Hrec & _).
    assert (has_id (params_id req') record = false) as Hskip
      by (by apply (has_id_other (params_id req) (params_id req') record record)).
    pose proof (find_delete_skipped _ _ i record Hi Hskip) as Heq.
    by destruct (find _ (delete i _)) as [[? ?]|], (find _ (collection r s)) as [[? ?]|];
      simplify_eq/=.
  - intros Halloc. pose proof (find_delete_found r s _ i record Halloc Hfind) as Hnone.
    rewrite get_one, delete_one. cbn [snd].
    rewrite collection_commit, decide_True by done. by rewrite Hnone.
Qed.

(** X6.  Reading, updating and deleting one record answer 404 exactly
    when no record of the collection has the id of the request, which is
    the case whenever the id is not a number; the state is then unchanged
    and the message names the resource.  They answer 200 otherwise. *)
Theorem not_found_iff r v req s :
  v ∈ [GET; PUT; DELETE] →
  (status (handle (Api r v) req s).2 = 404 ↔
   Forall (λ a, has_id (params_id req) a = false) (collection r s)) ∧
  (status (handle (Api r v) req s).2 = 404 →
   handle (Api r v) req s = (s, json_response 404 [("message", str (not_found r))])) ∧
  (status (handle (Api r v) req s).2 ≠ 404 → status (handle (Api r v) req s).2 = 200) ∧
  (parseInt (params_id req) = NaN → status (handle (Api r v) req s).2 = 404).
Proof.
  intros Hv.
  assert (parseInt (params_id req) = NaN →
          find (has_id (params_id req)) (collection r s) = None) as Hnan.
  { intros Hid. apply find_None, Forall_forall. intros a _. unfold has_id. by rewrite Hid. }
  rewrite <- find_None.
  assert (handle (Api r v) req s =
          (s, json_response 404 [("message", str (not_found r))]) ∧
          find (has_id (params_id req)) (collection r s) = None ∨
          status (handle (Api r v) req s).2 = 200 ∧
          is_Some (find (has_id (params_id req)) (collection r s))) as [[Heq Hnone]|[Hst Hsome]].
  { repeat (apply elem_of_cons in Hv as [->|Hv]); [..|by apply elem_of_nil in Hv].
    - rewrite get_one. destruct (find _ _) as [[i record]|]; [right|left]; eauto.
    - destruct (find (has_id (params_id req)) (collection r s)) as [[i record]|] eqn:Hfind.
      + destruct (put_found r req s i record Hfind) as (record' & -> & _). right. eauto.
      + left. by rewrite put_not_found.
    - rewrite delete_one. destruct (find _ _) as [[i record]|]; [right|left]; eauto. }
  - rewrite Heq. split_and!; done.
  - rewrite Hst. split_and!; try done.
    + split; [done|]. intros Hnone. rewrite Hnone in Hsome. by destruct Hsome.
    + intros Hid. rewrite (Hnan Hid) in Hsome. by destruct Hsome.
Qed.

(** X7.  After an update that answers 200, reading the same id answers
    the record the update answered, which is the record stored where the
    old one was; the collection has as many records as before. *)
Theorem put_then_get r req s :
  status (handle (Api r PUT) req s).2 = 200 →
  ∃ i record',
    (handle (Api r PUT) req s).2 =
      json_response 200 [("message", str (updated r)); (singular r, obj record')] ∧
    collection r (handle (Api r PUT) req s).1 !! i = Some record' ∧
    length (collection r (handle (Api r PUT) req s).1) = length (collection r s) ∧
    (handle (Api r GET) req (handle (Api r PUT) req s).1).2 =
      json_response 200 [(singular r, obj record')].
Proof.
  destruct (find (has_id (params_id req)) (collection r s)) as [[i record]|] eqn:Hfind.
  2:{ rewrite (put_not_found r req s Hfind). by intros [=]. }
  destruct (put_found r req s i record Hfind) as (record' & -> & _ & _ & Hkept).
  intros _. exists i, record'. cbn [fst snd].
  rewrite get_one, collection_commit, decide_True by done. cbn [snd].
  rewrite (find_insert_found _ _ _ record record' Hfind).
  - apply find_spec in Hfind as (?%lookup_lt_Some & _ & _).
    split_and!; [done|by apply list_lookup_insert_eq|by rewrite length_insert|done].
  - rewrite (has_id_id _ record' record) by apply Hkept, id_kept.
    by apply find_spec in Hfind as (_ & ? & _).
Qed.

End Crud.

Lemma saveData_saveData fileName x y d :
  saveData fileName x (saveData fileName y d) = saveData fileName x d.
Proof. unfold saveData, writeFileSync. apply insert_insert_eq. Qed.

Lemma server_ext s1 s2 :
  sessions s1 = sessions s2 → usersData_nextId s1 = usersData_nextId s2 →
  users s1 = users s2 →
  (∀ r, counter r s1 = counter r s2) → (∀ r, collection r s1 = collection r s2) →
  dataDir s1 = dataDir s2 → s1 = s2.
Proof.
  intros ? ? ? Hn Hl ?.
  pose proof (Hn Classifieds). pose proof (Hn Vacancies).
  pose proof (Hn Companies). pose proof (Hn RealEstate).
  pose proof (Hl Classifieds). pose proof (Hl Vacancies).
  pose proof (Hl Companies). pose proof (Hl RealEstate).
  destruct s1, s2. simpl in *. congruence.
Qed.

Lemma commit_commit r n l n' l' s :
  commit r n l (commit r n' l' s) = commit r n l s.
Proof.
  destruct (users_commit r n l (commit r n' l' s)) as (Hu & Hn & Hs).
  destruct (users_commit r n' l' s) as (Hu' & Hn' & Hs').
  destruct (users_commit r n l s) as (Hu'' & Hn'' & Hs'').
  apply server_ext; [congruence..| | |].
  - intros r'. rewrite !counter_commit. by case_decide.
  - intros r'. rewrite !collection_commit. by case_decide.
  - by rewrite !dataDir_commit, saveData_saveData.
Qed.

(** ** What a request leaves alone *)

Section Frame.
Context `{!Runtime}.

(** X8.  An update is idempotent: serving the same update a second time
    gives the answer and the state, data directory included, that serving
    it once gave. *)
Theorem put_idempotent r req s :
  handle (Api r PUT) req (handle (Api r PUT) req s).1 = handle (Api r PUT) req s.
Proof.
  destruct (find (has_id (params_id req)) (collection r s)) as [[i record]|] eqn:Hfind.
  2:{ rewrite (put_not_found r req s Hfind). cbn [fst]. by apply put_not_found. }
  destruct (put_found r req s i record Hfind) as (record' & Heq & Hreq & Hopt & Hkept).
  rewrite Heq. cbn [fst].
  assert (find (has_id (params_id req))
            (collection r (commit r (counter r s) (<[i:=record']> (collection r s)) s)) =
          Some (i, record')) as Hfind'.
  { rewrite collection_commit, decide_True by done.
    apply (find_insert_found _ _ _ record); [done|].
    rewrite (has_id_id _ record' record) by apply Hkept, id_kept.
    by apply find_spec in Hfind as (_ & ? & _). }
  destruct (put_found r req _ i record' Hfind') as (record'' & Heq' & Hreq' & Hopt' & Hkept').
  assert (record'' = record') as ->.
  { apply map_eq. intros k.
    destruct (decide (k ∈ required r)) as [Hk|Hk].
    { rewrite (Hreq' k Hk), (Hreq k Hk). by destruct (truthy _). }
    destruct (decide (k ∈ optional r)) as [Hk'|Hk'].
    { rewrite (Hopt' k Hk'), (Hopt k Hk'). by destruct (defined _). }
    apply Hkept'. rewrite elem_of_app. tauto. }
  rewrite Heq', counter_commit, collection_commit, !decide_True by done.
  by rewrite list_insert_insert_eq, commit_commit.
Qed.

Ltac answered :=
  simpl; split;
  [ rewrite !elem_of_cons; auto 10
  | first [ done | intros Hst; destruct Hst; rewrite !elem_of_cons; auto ] ].

(** X9.  Every answer has one of seven statuses.  A request that is
    answered 400, 401, 404 or 409 leaves the whole state, data directory
    included, as it was: the handler has changed nothing when it gives one
    of these answers.  A list request or the reading of one record leaves
    the state as it was whatever the answer. *)
Theorem failure_keeps_state rt req s :
  status (handle rt req s).2 ∈ [200; 201; 400; 401; 404; 409; 500] ∧
  (status (handle rt req s).2 ∈ [400; 401; 404; 409] → (handle rt req s).1 = s) ∧
  (∀ r v, rt = Api r v → v ∈ [LIST; GET] → (handle rt req s).1 = s).
Proof.
  assert (status (handle rt req s).2 ∈ [200; 201; 400; 401; 404; 409; 500] ∧
          (status (handle rt req s).2 ∉ [200; 201] → (handle rt req s).1 = s))
    as [Hstatus Hkeep].
  { destruct rt as [| |r v].
    - cbn [handle]. unfold register. split_handler; answered.
    - cbn [handle]. unfold login. split_handler; answered.
    - destruct v.
      + destruct (list_cases r req s) as [(result & -> & _)| ->]; answered.
      + destruct (post_cases r req s) as (H401 & H400 & H201).
        destruct (guarded (Api r POST)) eqn:Hg, (authorized req s) eqn:Ha,
          (complete r req) eqn:Hc.
        all: try (rewrite H401 by done; answered).
        all: try (rewrite H400 by auto; answered).
        all: destruct H201 as (record & -> & _); auto; answered.
      + rewrite get_one. destruct (find _ _) as [[? ?]|]; answered.
      + destruct (put_cases r req s) as [(i & record & record' & _ & ->)| ->]; answered.
      + rewrite delete_one. destruct (find _ _) as [[? ?]|]; answered. }
  split_and!; [done| |].
  { intros Hst. apply Hkeep. intros Hok. revert Hst Hok.
    generalize (status (handle rt req s).2). intros z.
    rewrite !elem_of_cons, !elem_of_nil. lia. }
  intros r v -> Hv. repeat (apply elem_of_cons in Hv as [->|Hv]); [..|by apply elem_of_nil in Hv].
  - apply list_state.
  - by rewrite get_one.
Qed.

(** X10.  What a request cannot touch.  Only [/api/login] changes the
    sessions; only [/api/register] changes the users and [users.json]; the
    counter read from [users.json] never changes; a collection, its
    counter and its file change only by a request on that resource; and no
    request touches any other file of the data directory. *)
Theorem isolation rt req s :
  (rt ≠ Login → sessions (handle rt req s).1 = sessions s) ∧
  (rt ≠ Register →
     users (handle rt req s).1 = users s ∧
     dataDir (handle rt req s).1 !! "users.json" = dataDir s !! "users.json") ∧
  usersData_nextId (handle rt req s).1 = usersData_nextId s ∧
  (∀ r, (∀ v, rt ≠ Api r v) →
     collection r (handle rt req s).1 = collection r s ∧
     counter r (handle rt req s).1 = counter r s ∧
     dataDir (handle rt req s).1 !! file_of r = dataDir s !! file_of r) ∧
  (∀ f, f ≠ "users.json" → (∀ r, f ≠ file_of r) →
     dataDir (handle rt req s).1 !! f = dataDir s !! f).
Proof.
  pose proof (handle_effect rt req s) as Heff.
  destruct (handle rt req s) as [s' res]. simpl in *.
  inversion Heff as [| | |r' v l res' Hv|r' record message Hrec]; simplify_eq.
  - split_and!; try done.
  - split_and!; try done; try (by destruct s); try (intros r _; by destruct s, r).
  - split_and!; try done.
    + intros r _. split_and!; [by destruct s, r..|].
      destruct s; simpl. unfold saveData, writeFileSync.
      rewrite lookup_insert_ne; [done|]. intros Heq. by apply (file_of_users r).
    + intros f Hf _. destruct s; simpl. unfold saveData, writeFileSync.
      by rewrite lookup_insert_ne.
  - destruct (users_commit r' (counter r' s) l s) as (-> & -> & ->).
    rewrite dataDir_commit. unfold saveData, writeFileSync.
    split_and!; try done.
    + intros _. split; [done|]. rewrite lookup_insert_ne; [done|]. apply file_of_users.
    + intros r Hr. assert (r' ≠ r) as Hne by (intros ->; by apply (Hr v)).
      rewrite collection_commit, counter_commit, !decide_False by done.
      split_and!; [done..|]. rewrite lookup_insert_ne; [done|]. by intros ?%file_of_inj.
    + intros f _ Hf. rewrite lookup_insert_ne; [done|]. intros <-. by apply (Hf r').
  - destruct (users_commit r' (counter r' s + 1) (collection r' s ++ [record]) s)
      as (-> & -> & ->).
    rewrite dataDir_commit. unfold saveData, writeFileSync.
    split_and!; try done.
    + intros _. split; [done|]. rewrite lookup_insert_ne; [done|]. apply file_of_users.
    + intros r Hr. assert (r' ≠ r) as Hne by (intros ->; by apply (Hr POST)).
      rewrite collection_commit, counter_commit, !decide_False by done.
      split_and!; [done..|]. rewrite lookup_insert_ne; [done|]. by intros ?%file_of_inj.
    + intros f _ Hf. rewrite lookup_insert_ne; [done|]. intros <-. by apply (Hf r').
Qed.

(** X11.  A creation, an update or a deletion that is served (200 or 201)
    leaves the data directory as it was but for the file of its resource,
    which holds what [JSON.stringify] writes for the counter and the
    collection of the state after the request. *)
Theorem write_through r v req s :
  v ∈ [POST; PUT; DELETE] → status (handle (Api r v) req s).2 ∈ [200; 201] →
  dataDir (handle (Api r v) req s).1 =
    <[file_of r :=
        File (JSON_stringify (literal
          [("nextId", num (counter r (handle (Api r v) req s).1));
           ("items", arr (collection r (handle (Api r v) req s).1))]))]> (dataDir s).
Proof.
  intros Hv Hst.
  assert (∃ n l, handle (Api r v) req s = (commit r n l s, (handle (Api r v) req s).2))
    as (n & l & Heq).
  { repeat (apply elem_of_cons in Hv as [->|Hv]); [..|by apply elem_of_nil in Hv].
    - destruct (post_cases r req s) as (H401 & H400 & H201).
      destruct (guarded (Api r POST)) eqn:Hg, (authorized req s) eqn:Ha,
        (complete r req) eqn:Hc.
      all: try (rewrite H401 in Hst by done; exfalso; revert Hst; cbn;
                rewrite !elem_of_cons, elem_of_nil; by intros [|[|]]).
      all: try (rewrite H400 in Hst by auto; exfalso; revert Hst; cbn;
                rewrite !elem_of_cons, elem_of_nil; by intros [|[|]]).
      all: destruct H201 as (record & -> & _); eauto.
    - destruct (put_cases r req s) as [(i & record & record' & _ & ->)|Heq]; [eauto|].
      rewrite Heq in Hst. exfalso. revert Hst. cbn.
      rewrite !elem_of_cons, elem_of_nil. by intros [|[|]].
    - rewrite delete_one in *. destruct (find _ _) as [[i record]|]; [eauto|].
      exfalso. revert Hst. cbn. rewrite !elem_of_cons, elem_of_nil. by intros [|[|]]. }
  rewrite Heq. cbn [fst].
  rewrite dataDir_commit, counter_commit, collection_commit, !decide_True by done.
  done.
Qed.

End Frame.

(** ** Accounts and sessions *)

Lemma strict_eq_true a b : strict_eq a b = true → a = b ∧ primitive a = true.
Proof.
  destruct a as [[]|], b as [[]|]; simpl; try done.
  - by intros ->%Bool.eqb_prop.
  - by intros ->%Z.eqb_eq.
  - by intros ->%Bool.eqb_prop.
  - by intros ->%String.eqb_eq.
Qed.

Lemma strict_eq_refl v : primitive v = true → strict_eq v v = true.
Proof.
  destruct v as [[]|]; simpl; try done; intros _.
  - apply Bool.eqb_reflx.
  - apply Z.eqb_refl.
  - apply Bool.eqb_reflx.
  - apply String.eqb_refl.
Qed.

Lemma strict_eq_sym a b : strict_eq a b = strict_eq b a.
Proof.
  destruct a as [[]|], b as [[]|]; simpl; try done.
  - by destruct b0, b.
  - apply Z.eqb_sym.
  - by destruct negative, negative0.
  - apply String.eqb_sym.
Qed.

Lemma new_user_lookup (username password role : value) k :
  literal [("username", username); ("password", password); ("role", js_or role (str "user"))]
    !! k =
  if decide (k = "username") then username
  else if decide (k = "password") then password
  else if decide (k = "role") then js_or role (str "user") else None.
Proof.
  unfold literal. simpl. rewrite !lookup_assign.
  repeat case_decide; subst; try done.
Qed.

Lemma distinct_usernames_snoc l user :
  distinct_usernames l →
  find (λ u, strict_eq (u !! "username") (user !! "username")) l = None →
  distinct_usernames (l ++ [user]).
Proof.
  intros Hl Hnew%find_None. rewrite Forall_forall in Hnew.
  intros i j u v Hi Hj Hne.
  destruct (decide (i < length l)%nat) as [Hil|Hil], (decide (j < length l)%nat) as [Hjl|Hjl].
  - rewrite lookup_app_l in Hi, Hj by done. by eapply Hl.
  - rewrite lookup_app_l in Hi by done. rewrite lookup_app_r in Hj by lia.
    apply list_lookup_singleton_Some in Hj as [_ <-].
    apply Hnew. by eapply list_elem_of_lookup_2.
  - rewrite lookup_app_l in Hj by done. rewrite lookup_app_r in Hi by lia.
    apply list_lookup_singleton_Some in Hi as [_ <-].
    rewrite strict_eq_sym. apply Hnew. by eapply list_elem_of_lookup_2.
  - rewrite lookup_app_r in Hi, Hj by lia.
    apply list_lookup_singleton_Some in Hi as [? _].
    apply list_lookup_singleton_Some in Hj as [? _]. lia.
Qed.

(** The user found by name is the one found by name and password, when
    the password is the right one. *)
Lemma matches_snoc (username password : value) (l : list object) (user : object) :
  find (λ u : object, strict_eq (u !! "username") username) l = None →
  find (λ u : object,
          strict_eq (u !! "username") username && strict_eq (u !! "password") password)
    (l ++ [user]) =
  if strict_eq (user !! "username") username && strict_eq (user !! "password") password
  then Some (length l, user) else None.
Proof.
  intros Hl%find_None.
  assert (Forall (λ u : object, strict_eq (u !! "username") username &&
                                strict_eq (u !! "password") password = false) l) as Hl'.
  { eapply Forall_impl; [done|]. simpl. by intros u ->. }
  destruct (_ && _) eqn:E.
  - by apply find_app_new.
  - apply find_None, Forall_app. split; [done|]. by apply Forall_singleton.
Qed.

Lemma index_is_Some_insert (m : gmap string object) k x token :
  is_Some (index m token) → is_Some (index (<[k:=x]> m) token).
Proof.
  unfold index. destruct (decide (k = token)) as [->|Hne].
  - by rewrite lookup_insert_eq.
  - by rewrite lookup_insert_ne.
Qed.

Section Accounts.
Context `{!Runtime}.

(** The two ways a registration ends. *)
Lemma register_cases req s :
  (register req s).1 = s ∧ status (register req s).2 ∈ [400; 409] ∨
  truthy (body req !! "username") = true ∧ truthy (body req !! "password") = true ∧
  find (λ u, strict_eq (u !! "username") (body req !! "username")) (users s) = None ∧
  ∃ user,
    user = literal [("username", body req !! "username");
                    ("password", body req !! "password");
                    ("role", js_or (body req !! "role") (str "user"))] ∧
    register req s =
      (save "users.json"
         {| nextId := usersData_nextId s; items := arr (users s ++ [user]) |}
         (set_users (users s ++ [user]) s),
       json_response 201 [("message", str "User registered successfully")]).
Proof.
  unfold register.
  destruct (truthy (body req !! "username")); [|left; split; [done|set_solver]].
  destruct (truthy (body req !! "password")); [|left; split; [done|set_solver]].
  cbn [negb orb].
  destruct (find _ _) as [[? ?]|]; [left; split; [done|set_solver]|].
  right. split_and!; [done..|]. eexists. split; [done|]. by destruct s.
Qed.

Lemma login_cases req s :
  login req s = (s, json_response 401 [("message", str "Invalid credentials")]) ∨
  ∃ i user,
    find (λ u, strict_eq (u !! "username") (body req !! "username") &&
               strict_eq (u !! "password") (body req !! "password")) (users s) =
      Some (i, user) ∧
    login req s =
      (set_sessions (<[entropy req := literal [("username", user !! "username");
                                               ("role", user !! "role")]]> (sessions s)) s,
       json_response 200
         [("message", str "Login successful");
          ("token", str (entropy req));
          ("user", obj (literal [("username", user !! "username");
                                 ("role", user !! "role")]))]).
Proof.
  unfold login. destruct (find _ _) as [[i user]|]; [right|by left]. by exists i, user.
Qed.

(** X12.  A registration is answered 400 exactly when the name or the
    password of the body is falsy; 409 exactly when both are truthy and
    some user has that name; 201 exactly when both are truthy and no user
    has that name.  On 201 the user is appended with the name and the
    password of the body and the role of the body, or ["user"]; the
    sessions are as they were; and [users.json], and no other file, is
    rewritten with what [JSON.stringify] writes for the counter it was
    loaded with and the new list of users, passwords as they were
    given. *)
Theorem register_outcome req s :
  (status (register req s).2 = 400 ↔
   truthy (body req !! "username") = false ∨ truthy (body req !! "password") = false) ∧
  (status (register req s).2 = 409 ↔
   truthy (body req !! "username") = true ∧ truthy (body req !! "password") = true ∧
   ∃ user, user ∈ users s ∧
           strict_eq (user !! "username") (body req !! "username") = true) ∧
  (status (register req s).2 = 201 ↔
   truthy (body req !! "username") = true ∧ truthy (body req !! "password") = true ∧
   Forall (λ user, strict_eq (user !! "username") (body req !! "username") = false)
     (users s)) ∧
  (status (register req s).2 = 201 →
   ∃ user,
     user = literal [("username", body req !! "username");
                     ("password", body req !! "password");
                     ("role", js_or (body req !! "role") (str "user"))] ∧
     users (register req s).1 = users s ++ [user] ∧
     sessions (register req s).1 = sessions s ∧
     dataDir (register req s).1 =
       <["users.json" :=
           File (JSON_stringify (literal [("nextId", usersData_nextId s);
                                          ("items", arr (users s ++ [user]))]))]>
         (dataDir s)).
Proof.
  unfold register.
  destruct (truthy (body req !! "username")) eqn:Hu.
  2:{ cbn. split_and!; try done; intuition congruence. }
  destruct (truthy (body req !! "password")) eqn:Hp.
  2:{ cbn. split_and!; try done; intuition congruence. }
  cbn [negb orb].
  destruct (find _ _) as [[i user]|] eqn:Hfind.
  - apply find_spec in Hfind as (Hi & Huser & _). cbn. split_and!; try done.
    + intuition congruence.
    + split; [|done]. intros _. split_and!; [done..|].
      exists user. split; [by eapply list_elem_of_lookup_2|done].
    + split; [done|]. intros (_ & _ & Hall). rewrite Forall_forall in Hall.
      rewrite (Hall user) in Huser; [done|]. by eapply list_elem_of_lookup_2.
  - apply find_None in Hfind. cbn [snd json_response status]. split_and!.
    + intuition congruence.
    + split; [done|]. intros (_ & _ & user & Hin & Huser).
      rewrite Forall_forall in Hfind. by rewrite (Hfind user Hin) in Huser.
    + done.
    + intros _. eexists. split; [done|]. by destruct s.
Qed.

Lemma users_effect rt req s :
  users (handle rt req s).1 = users s ∨
  ∃ user, users (handle rt req s).1 = users s ++ [user] ∧ account user ∧
          find (λ u, strict_eq (u !! "username") (user !! "username")) (users s) = None ∧
          rt = Register ∧
          user = literal [("username", body req !! "username");
                          ("password", body req !! "password");
                          ("role", js_or (body req !! "role") (str "user"))].
Proof.
  destruct rt as [| |r v].
  - cbn [handle].
    destruct (register_cases req s) as [[-> _]|(Hu & Hp & Hfind & user & -> & ->)]; [by left|].
    right. eexists. split; [by destruct s|]. unfold account.
    rewrite !new_user_lookup. simpl. split_and!; [done..| |done|done|done].
    unfold js_or. destruct (truthy (body req !! "role")) eqn:E; done.
  - left. cbn [handle]. unfold login. by destruct (find _ _) as [[? ?]|], s.
  - left. pose proof (handle_effect (Api r v) req s) as Heff.
    destruct (handle (Api r v) req s) as [s' res]. simpl in *.
    inversion Heff; simplify_eq; try done.
    + by destruct (users_commit r (counter r s) l s) as (-> & _).
    + by destruct (users_commit r (counter r s + 1) (collection r s ++ [record]) s)
        as (-> & _).
Qed.

Lemma restart_dec (es : list event) : Restart ∈ es ∨ Restart ∉ es.
Proof.
  induction es as [|e es [IH|IH]]; [right; by intros ?%elem_of_nil|left; by right|].
  destruct e as [rt req|]; [right|left; by left].
  intros [?|?]%elem_of_cons; done.
Qed.

(** X13.  Whatever requests a server started on an empty data directory
    has gone through, every user it holds has a truthy name, password and
    role, and no two users have the same name; and so it is after any
    number of restarts when the bodies of the registrations hold finite
    numbers only.  They have to: a user registered under a name that is a
    number beyond the range of a double is loaded again, after a restart,
    with the name [null]. *)
Theorem usernames_unique :
  (∀ es, (Restart ∈ es → Forall finite_registration es) →
     ∃ s sent, run fresh es = Some (s, sent) ∧
               Forall account (users s) ∧ distinct_usernames (users s)) ∧
  (∀ req negative,
     body req !! "username" = Some (JInf negative) →
     truthy (body req !! "password") = true →
     ∃ s user,
       run fresh [Call Register req; Restart] =
         Some (s, [(Register,
                    json_response 201 [("message", str "User registered successfully")])]) ∧
       users s = [user] ∧ user !! "username" = null ∧ ¬ account user).
Proof.
  assert (∀ rt req s, Forall account (users s) ∧ distinct_usernames (users s) →
            Forall account (users (handle rt req s).1) ∧
            distinct_usernames (users (handle rt req s).1)) as Hcall.
  { intros rt req s [Hacc Hdist].
    destruct (users_effect rt req s) as [->|(user & -> & Huser & Hfind & _)]; [done|].
    split.
    - apply Forall_app. split; [done|]. by apply Forall_singleton.
    - by apply distinct_usernames_snoc. }
  assert (Forall account (users fresh) ∧ distinct_usernames (users fresh)) as Hfresh.
  { split; [constructor|]. by intros i j u v Hi. }
  split.
  - intros es Hes. destruct (restart_dec es) as [Hin|Hnot].
    + destruct (run_invariant finite_registration
                  (λ s, (Forall account (users s) ∧ distinct_usernames (users s)) ∧
                        Forall finite (users s)))
        with (es := es) (s := fresh) as (s & sent & Hrun & _ & Hinv & _).
      * intros rt req s Hreq [Hs Hfin]. split; [by apply Hcall|].
        destruct (users_effect rt req s) as [->|(user & -> & _ & _ & -> & ->)]; [done|].
        apply Forall_app. split; [done|]. apply Forall_singleton.
        simpl in Hreq. finite_object.
      * intros s _ [Hs Hfin]. apply finite_list in Hfin as Heq.
        assert (users (reload s) = users s) as -> by exact Heq.
        done.
      * by apply Hes.
      * apply persisted_fresh.
      * split; [done|constructor].
      * by exists s, sent.
    + destruct (run_invariant (λ e, e ≠ Restart)
                  (λ s, Forall account (users s) ∧ distinct_usernames (users s)))
        with (es := es) (s := fresh) as (s & sent & Hrun & _ & Hinv).
      * intros rt req s _. apply Hcall.
      * by intros s Hne.
      * apply Forall_forall. by intros e He ->.
      * apply persisted_fresh.
      * done.
      * by exists s, sent.
  - intros req negative Hname Hpass.
    destruct (register_cases req fresh)
      as [[_ Hst]|(_ & _ & _ & user & Huser & Heq)].
    { exfalso. revert Hst. unfold register. rewrite Hname, Hpass. cbn.
      rewrite !elem_of_cons, elem_of_nil. by intros [|[|]]. }
    pose proof (handle_effect Register req fresh) as Heff.
    cbn [handle] in Heff. rewrite Heq in Heff. cbn [fst snd] in Heff.
    apply persisted_effect in Heff as Hs1; [|apply persisted_fresh].
    destruct Hs1 as (_ & _ & _ & _ & Hboot).
    eexists _, (written_object user). split_and!.
    + rewrite run_call. cbn [handle]. rewrite Heq. cbn [fst snd run step].
      rewrite Hboot. reflexivity.
    + done.
    + unfold written_object. by rewrite lookup_fmap, Huser, new_user_lookup, Hname.
    + intros (Hu & _). revert Hu. unfold written_object.
      by rewrite lookup_fmap, Huser, new_user_lookup, Hname.
Qed.

(** X14.  After a registration that answers 201, with a name and a
    password that are not arrays or objects: a login with that name and
    password answers 200 with the token, the name and the role (the role
    of the body, or ["user"] when the body gives none), and records the
    session under the token; a login with that name and another password
    answers 401 and changes nothing; and registering the name again
    answers 409 and changes nothing. *)
Theorem register_then_login req s :
  status (register req s).2 = 201 →
  primitive (body req !! "username") = true → primitive (body req !! "password") = true →
  (∀ req', body req' !! "username" = body req !! "username" →
           body req' !! "password" = body req !! "password" →
     login req' (register req s).1 =
       (set_sessions
          (<[entropy req' := literal [("username", body req !! "username");
                                      ("role", js_or (body req !! "role") (str "user"))]]>
             (sessions s))
          (register req s).1,
        json_response 200
          [("message", str "Login successful");
           ("token", str (entropy req'));
           ("user", obj (literal [("username", body req !! "username");
                                  ("role", js_or (body req !! "role") (str "user"))]))])) ∧
  (∀ req', body req' !! "username" = body req !! "username" →
           strict_eq (body req !! "password") (body req' !! "password") = false →
     login req' (register req s).1 =
       ((register req s).1, json_response 401 [("message", str "Invalid credentials")])) ∧
  (∀ req', body req' !! "username" = body req !! "username" →
           truthy (body req' !! "password") = true →
     register req' (register req s).1 =
       ((register req s).1, json_response 409 [("message", str "User already exists")])).
Proof.
  intros Hst Hu Hp.
  destruct (register_cases req s) as [[_ Hfail]|(Htu & Htp & Hfind & user & Huser & Heq)].
  { exfalso. revert Hfail. rewrite Hst, !elem_of_cons, elem_of_nil. by intros [|[|]]. }
  assert (user !! "username" = body req !! "username") as Hname
    by (by rewrite Huser, new_user_lookup).
  assert (user !! "password" = body req !! "password") as Hpass
    by (by rewrite Huser, new_user_lookup).
  assert (user !! "role" = js_or (body req !! "role") (str "user")) as Hrole
    by (by rewrite Huser, new_user_lookup).
  rewrite Heq. cbn [fst]. clear Heq Huser.
  assert (users (save "users.json"
            {| nextId := usersData_nextId s; items := arr (users s ++ [user]) |}
            (set_users (users s ++ [user]) s)) = users s ++ [user]) as Husers by (by destruct s).
  assert (sessions (save "users.json"
            {| nextId := usersData_nextId s; items := arr (users s ++ [user]) |}
            (set_users (users s ++ [user]) s)) = sessions s) as Hsessions by (by destruct s).
  set (s1 := save _ _ _) in *. split_and!.
  - intros req' Hu' Hp'. unfold login. rewrite Husers, Hu', Hp', matches_snoc by done.
    rewrite Hname, Hpass, !strict_eq_refl by done. cbn [andb].
    by rewrite Hname, Hrole, Hsessions.
  - intros req' Hu' Hp'. unfold login. rewrite Husers, Hu', matches_snoc by done.
    by rewrite Hname, Hpass, Hp', andb_false_r.
  - intros req' Hu' Hp'. unfold register. rewrite Hu', Htu, Hp'. cbn [negb orb].
    rewrite Husers.
    assert (find (λ u : object, strict_eq (u !! "username") (body req !! "username"))
              (users s ++ [user]) = Some (length (users s), user)) as ->; [|done].
    apply find_app_new; [by apply find_None|]. rewrite Hname. by apply strict_eq_refl.
Qed.

(** X15.  The token of a login that answers 200 opens the creation of
    classifieds: a creation with that token in the header and a complete
    body, served next, answers 201, and the classified gets the counter as
    id and the name of the user who logged in as owner. *)
Theorem login_then_post req s req' :
  status (login req s).2 = 200 → entropy req ≠ "" →
  authorization req' = Some (entropy req) → complete Classifieds req' = true →
  ∃ ad,
    (post_classifieds req' (login req s).1).2 =
      json_response 201 [("message", str "Classified created"); ("ad", obj ad)] ∧
    ad !! "owner" = body req !! "username" ∧
    ad !! "id" = num (nextAdId s).
Proof.
  intros Hst Htoken Hauth Hbody.
  destruct (login_cases req s) as [Heq|(i & user & Hfind & Heq)]; rewrite Heq in *; [done|].
  cbn [fst]. clear Heq Hst.
  apply find_spec in Hfind as (_ & [[Hname _]%strict_eq_true _]%andb_true_iff & _).
  apply complete_Forall in Hbody. unfold required in Hbody.
  repeat apply Forall_cons in Hbody as [? Hbody].
  unfold post_classifieds, authenticate, index. rewrite Hauth.
  rewrite (proj2 (String.eqb_neq _ _) Htoken).
  assert (sessions (set_sessions (<[entropy req := literal [("username", user !! "username");
                                                         ("role", user !! "role")]]>
                                    (sessions s)) s) !! entropy req =
          Some (literal [("username", user !! "username"); ("role", user !! "role")])) as ->.
  { destruct s; simpl. apply lookup_insert_eq. }
  repeat match goal with H : truthy _ = true |- _ => rewrite H; clear H end.
  cbn [negb orb snd]. eexists. split; [done|]. split.
  - lookup_literal. by rewrite Hname.
  - lookup_literal. by destruct s.
Qed.

(** X16.  Sessions do not outlive the process, accounts do.  When a login
    is answered 200 in a consistent state and the process is restarted,
    no session is left: a creation of a classified with the token that
    login issued (a token is not the name of a property that every object
    inherits) is answered 401; and the same login is answered again as it
    was. *)
Theorem restart_drops_sessions s req req' :
  consistent s → status (login req s).2 = 200 → entropy req ∉ Object_prototype →
  authorization req' = Some (entropy req) →
  ∃ s', run s [Call Login req; Restart] = Some (s', [(Login, (login req s).2)]) ∧
        sessions s' = ∅ ∧
        handle (Api Classifieds POST) req' s' =
          (s', json_response 401 [("message", str "Unauthorized")]) ∧
        (login req s').2 = (login req s).2.
Proof.
  intros Hs Hst Hproto Hauth.
  destruct (login_cases req s) as [Heq|(i & user & Hfind & Heq)];
    [by rewrite Heq in Hst|].
  exists (set_sessions ∅ s).
  assert (run s [Call Login req; Restart] =
          Some (set_sessions ∅ s, [(Login, (login req s).2)])) as Hrun.
  { rewrite run_call. cbn [handle]. rewrite Heq. cbn [fst snd].
    rewrite run_restart; [by destruct s|]. unfold consistent in *. by destruct s. }
  split_and!; [done|by destruct s| |].
  - cbn [handle]. apply post_classifieds_unauthorized. right. exists (entropy req).
    split_and!; [done|by destruct s|done].
  - rewrite Heq. unfold login.
    assert (users (set_sessions ∅ s) = users s) as -> by (by destruct s).
    by rewrite Hfind.
Qed.

Lemma sessions_effect rt req s :
  sessions (handle rt req s).1 = sessions s ∨
  rt = Login ∧ ∃ session, sessions (handle rt req s).1 = <[entropy req := session]> (sessions s).
Proof.
  destruct rt as [| |r v].
  - left. cbn [handle]. destruct (register_cases req s) as [[-> _]|(_ & _ & _ & user & _ & ->)];
      [done|by destruct s].
  - cbn [handle]. destruct (login_cases req s) as [->|(i & user & _ & ->)]; [by left|].
    right. split; [done|]. eexists. by destruct s.
  - left. pose proof (handle_effect (Api r v) req s) as Heff.
    destruct (handle (Api r v) req s) as [s' res]. simpl in *.
    inversion Heff; simplify_eq; try done.
    + by destruct (users_commit r (counter r s) l s) as (_ & _ & ->).
    + by destruct (users_commit r (counter r s + 1) (collection r s ++ [record]) s)
        as (_ & _ & ->).
Qed.

(** X17.  No request ends a session: a token that finds a session finds one
    after any request; it finds the same session unless the request is a
    login that draws the same token; so a request that the middleware
    lets through is let through after any other request. *)
Theorem sessions_persist rt req s token :
  (is_Some (index (sessions s) token) →
   is_Some (index (sessions (handle rt req s).1) token)) ∧
  (rt ≠ Login ∨ entropy req ≠ token →
   index (sessions (handle rt req s).1) token = index (sessions s) token) ∧
  (∀ req', authorized req' s = true → authorized req' (handle rt req s).1 = true).
Proof.
  destruct (sessions_effect rt req s) as [Heq|(-> & session & Heq)].
  { split_and!; [by rewrite Heq..|]. intros req'. unfold authorized. by rewrite Heq. }
  split_and!.
  - rewrite Heq. apply index_is_Some_insert.
  - intros [?|Hne]; [done|]. rewrite Heq. unfold index. by rewrite lookup_insert_ne.
  - intros req'. rewrite !authorized_index.
    intros (t & user & Ht & Hne & Hindex).
    destruct (index_is_Some_insert (sessions s) (entropy req) session t) as [user' Huser'];
      [by eexists|].
    exists t, user'. by rewrite Heq.
Qed.

End Accounts.

(** ** Lists and their filters *)


Section Lists.
Context `{!Runtime}.

(** X18.  The list of companies.  With [category=S], [S] not empty, over
    companies whose category is a string, it is the companies whose
    category contains [S] when both are put in lower case, in their
    order.  Without the parameter, or with an empty one, it is every
    company.  When [S] is not empty and the category of some company is
    not a string, the request is answered 500. *)
Theorem company_filtering s :
  (∀ req S,
     query req !! "category" = Some S → S ≠ "" →
     Forall (λ c, ∃ t, c !! "category" = str t) (companies s) →
     get_companies req s =
       (s, json_response 200
             [("companies",
               arr (List.filter (λ c, match c !! "category" with
                                      | Some (JStr t) => includes (toLowerCase t) (toLowerCase S)
                                      | _ => false
                                      end) (companies s)))])) ∧
  (∀ req,
     query req !! "category" = None ∨ query req !! "category" = Some "" →
     get_companies req s = (s, json_response 200 [("companies", arr (companies s))])) ∧
  (∀ req S c,
     query req !! "category" = Some S → S ≠ "" →
     c ∈ companies s → (∀ t, c !! "category" ≠ str t) →
     get_companies req s = (s, {| status := 500; payload := undefined |})).
Proof.
  split_and!.
  - intros req S HS Hne Htyped. unfold get_companies.
    rewrite HS, (provided_Some S Hne). cbn [provided].
    erewrite filterM_Return; [done|].
    eapply Forall_impl; [done|]. by intros c [t ->].
  - intros req [Hq|Hq]; unfold get_companies; by rewrite Hq.
  - intros req S c HS Hne Hc Hcat. unfold get_companies.
    rewrite HS, (provided_Some S Hne).
    edestruct (filterM_Throw
      (λ c, category ← call_toLowerCase (c !! "category");
            Return (includes category (toLowerCase S))) (companies s) c TypeError)
      as [e ->]; [done| |done].
    destruct (c !! "category") as [[]|] eqn:E; try done. by destruct (Hcat s0).
Qed.



(** X21.  A list request, for every resource: it never changes the state;
    it answers 200 with records of the collection, in the order of the
    collection, or it answers 500, which only a request with a filter
    can get; and without a filter it answers the whole collection. *)
Theorem list_answers r req s :
  (handle (Api r LIST) req s).1 = s ∧
  ((∃ result,
      (handle (Api r LIST) req s).2 = json_response 200 [(plural r, arr result)] ∧
      sublist result (collection r s)) ∨
   (handle (Api r LIST) req s).2 = {| status := 500; payload := undefined |} ∧
   ¬ unfiltered r req) ∧
  (unfiltered r req →
   (handle (Api r LIST) req s).2 = json_response 200 [(plural r, arr (collection r s))]).
Proof.
  split_and!.
  - apply list_state.
  - destruct (list_cases r req s) as [(result & -> & Hsub)|Heq]; [left; eauto|].
    right. split; [by rewrite Heq|]. intros Hplain.
    by rewrite (list_unfiltered r req s Hplain) in Heq.
  - intros Hplain. by rewrite (list_unfiltered r req s Hplain).
Qed.

End Lists.

(** ** Start-up *)

Lemma loadData_unusable d fileName dflt :
  unusable d fileName → loadData d fileName dflt = Return dflt.
Proof.
  unfold unusable, loadData, readFileSync.
  destruct (d !! fileName) as [[|[raw|[]]]|]; try done; by destruct dflt.
Qed.

Lemma loadData_returns d fileName dflt : ∃ x, loadData d fileName dflt = Return x.
Proof. unfold loadData, try_catch. destruct (_ ≫= _); eauto. Qed.

(** X22.  Start-up.  The five loads at the top of [server.js] never throw,
    whatever the files of the data directory hold, and leave in the
    variables what [loadData] returned for each file.  A file that cannot
    be used (it is missing, unreadable, not JSON or not an object) gives
    the defaults, counter 1 and no item, whatever the other files hold; if
    none of the five files can be used the server starts in the state of a
    first run; and it starts without sessions.  The state of the handlers
    is what the loads returned, when every counter loaded is a number and
    every collection an array of objects. *)
Theorem boot_first_run d :
  ∃ x, start d = Return x ∧
    boot d = typed d x ∧
    (unusable d "users.json" → usersData x = defaults) ∧
    (∀ r, unusable d (file_of r) → data_of r x = defaults) ∧
    ((∀ fileName, fileName ∈ ["users.json"; "classifieds.json"; "vacancies.json";
                              "companies.json"; "realEstate.json"] →
                  unusable d fileName) →
     boot d = Some (set_dataDir d fresh)) ∧
    (∀ s, boot d = Some s →
          sessions s = ∅ ∧ dataDir s = d ∧
          ∀ r, unusable d (file_of r) → counter r s = 1 ∧ collection r s = []).
Proof.
  destruct (loadData_returns d "users.json" defaults) as (u & Hu).
  destruct (loadData_returns d "classifieds.json" defaults) as (a & Ha).
  destruct (loadData_returns d "vacancies.json" defaults) as (v & Hv).
  destruct (loadData_returns d "companies.json" defaults) as (c & Hc).
  destruct (loadData_returns d "realEstate.json" defaults) as (p & Hp).
  eexists. split_and!.
  - unfold start. rewrite Hu, Ha, Hv, Hc, Hp. reflexivity.
  - unfold boot, typed. rewrite Hu, Ha, Hv, Hc, Hp. reflexivity.
  - intros Hbad. rewrite (loadData_unusable _ _ _ Hbad) in Hu. by injection Hu.
  - intros r Hbad.
    destruct r; simpl in *; rewrite (loadData_unusable _ _ _ Hbad) in *; congruence.
  - intros Hd. unfold boot.
    rewrite !loadData_unusable by (apply Hd; set_solver). done.
  - intros s (? & ? & _ & Hr)%boot_stored. split_and!; [done..|].
    intros r Hbad. destruct (Hr r) as (x & Hx & Hn & Hl).
    rewrite (loadData_unusable _ _ _ Hbad) in Hx. injection Hx as <-.
    simpl in *. split; [by injection Hn|]. by injection Hl.
Qed.

(** ** The three servers *)

Section Versions.
Context `{!Runtime}.

Ltac unfold_part000 :=
  unfold Part000.register, Part000.login, Part000.get_classifieds,
    Part000.post_classifieds, Part000.get_classified,
    Part000.put_classified, Part000.delete_classified, Part000.get_vacancies,
    Part000.post_vacancies, Part000.get_vacancy, Part000.put_vacancy,
    Part000.delete_vacancy, Part000.get_companies, Part000.post_companies,
    Part000.get_company, Part000.put_company, Part000.delete_company,
    Part000.get_real_estate, Part000.post_real_estate, Part000.get_property,
    Part000.put_property, Part000.delete_property.

Ltac in_memory_fields :=
  cbn [in_memory Part000.users Part000.nextAdId Part000.classifieds Part000.nextVacancyId
       Part000.vacancies Part000.nextCompanyId Part000.companies Part000.nextPropertyId
       Part000.realEstate].

(** On a request the two servers have in common, the in-memory server run
    on the users, counters and collections of a state gives the answer of
    the persisted server and the users, counters and collections of the
    state it leaves. *)
Lemma simulation_step rt req s :
  shared rt req →
  Part000.handle rt req (in_memory s) = (in_memory (handle rt req s).1, (handle rt req s).2).
Proof.
  destruct rt as [| |[] []]; cbn [handle Part000.handle shared unfiltered]; try done.
  all: unfold_part000; unfold register; unfold_handlers; unfold findIndex; in_memory_fields.
  all: try (intros [-> ->]); try (intros ->); try (intros _).
  all: split_handler; try done.
  all: by destruct s.
Qed.

(** X23.  The persisted server simulates the in-memory server of
    [part_000].  For every sequence of requests the two servers have in
    common (every route but the login and the creation of a classified,
    list requests without filter), the in-memory server started on the
    users, counters and collections of a state gives, request by request,
    the answers of the persisted server started in that state, and ends
    with the users, counters and collections the persisted server ends
    with.  The state of a first run corresponds to the initial state of
    the in-memory server. *)
Theorem persisted_simulates calls s :
  Forall (λ c, shared c.1 c.2) calls →
  in_memory fresh = Part000.initial ∧
  ∃ s' sent,
    run s ((λ c, Call c.1 c.2) <$> calls) = Some (s', sent) ∧
    Part000.run (in_memory s) calls = (in_memory s', sent).
Proof.
  intros Hcalls. split; [done|]. revert s.
  induction Hcalls as [|[rt req] calls Hshared _ IH]; intros s; [by exists s, []|].
  rewrite fmap_cons. cbn [fst snd] in *. rewrite run_call.
  cbn [Part000.run]. rewrite (simulation_step rt req s Hshared).
  destruct (IH (handle rt req s).1) as (s' & sent & -> & ->).
  by exists s', ((rt, (handle rt req s).2) :: sent).
Qed.

(** X24.  The login of the two servers: both leave the users, counters
    and collections as they are and answer with the same status; a login
    that fails gets the same answer from both; and to a login that
    succeeds the persisted server answers what the in-memory server
    answers, with the token added. *)
Theorem login_versions req s :
  (Part000.login req (in_memory s)).1 = in_memory (login req s).1 ∧
  (Part000.login req (in_memory s)).1 = in_memory s ∧
  status (Part000.login req (in_memory s)).2 = status (login req s).2 ∧
  (status (login req s).2 ≠ 200 →
   (login req s).2 = json_response 401 [("message", str "Invalid credentials")] ∧
   (Part000.login req (in_memory s)).2 = (login req s).2) ∧
  (status (login req s).2 = 200 →
   ∃ o, payload (Part000.login req (in_memory s)).2 = obj o ∧
        o !! "token" = None ∧
        payload (login req s).2 = obj (<["token" := JStr (entropy req)]> o)).
Proof.
  unfold Part000.login, login. in_memory_fields.
  destruct (find _ _) as [[i user]|] eqn:Hfind.
  - apply find_spec in Hfind as (_ & [[Hname _]%strict_eq_true _]%andb_true_iff & _).
    rewrite Hname. split_and!; [by destruct s|done|done|done|].
    intros _. eexists. split; [done|]. split.
    + by lookup_literal.
    + cbn [payload json_response obj snd]. by do 2 f_equal.
  - split_and!; done.
Qed.

(** X25.  The creation of a classified in the two servers, for a request
    the middleware lets through: both answer with the same status and leave the
    same counter; a creation that fails leaves both as they were; and the
    two records created differ in the owner, which only the persisted
    server stores, and in nothing else when the body gives a truthy price
    or none. *)
Theorem post_classifieds_versions req s :
  authorized req s = true →
  status (Part000.post_classifieds req (in_memory s)).2 = status (post_classifieds req s).2 ∧
  (Part000.nextAdId (Part000.post_classifieds req (in_memory s)).1 =
   nextAdId (post_classifieds req s).1) ∧
  (status (post_classifieds req s).2 ≠ 201 →
   Part000.post_classifieds req (in_memory s) =
     (in_memory (post_classifieds req s).1, (post_classifieds req s).2)) ∧
  (status (post_classifieds req s).2 = 201 →
   ∃ ad ad',
     classifieds (post_classifieds req s).1 = classifieds s ++ [ad] ∧
     Part000.classifieds (Part000.post_classifieds req (in_memory s)).1 =
       classifieds s ++ [ad'] ∧
     ad' !! "owner" = None ∧
     (∀ k, k ≠ "owner" → k ≠ "price" → ad' !! k = ad !! k) ∧
     (truthy (body req !! "price") = true ∨ body req !! "price" = undefined →
      ad' !! "price" = ad !! "price")).
Proof.
  intros Hauth. unfold Part000.post_classifieds, post_classifieds.
  rewrite authenticate_authorized, Hauth.
  apply authorized_index in Hauth as (token & user & -> & _ & ->). in_memory_fields.
  destruct (negb (truthy (body req !! "title")) || negb (truthy (body req !! "description")) ||
            negb (truthy (body req !! "category"))).
  { split_and!; done. }
  split_and!; [done|by destruct s|done|]. intros _. eexists _, _.
  split_and!; [by destruct s|by destruct s|by lookup_literal| |].
  - intros k Hk Hk'. unfold literal. cbn [foldl fst snd]. rewrite !lookup_assign.
    repeat case_decide; subst; try done.
  - unfold js_or. intros [Hp|Hp]; rewrite Hp; lookup_literal; [|done].
    by destruct (body req !! "price").
Qed.

Lemma draft_step rt h req s :
  Draft.handle rt = Some h → classifieds_only s →
  h req (draft_of s) =
    (draft_of (Part000.handle rt req s).1, (Part000.handle rt req s).2) ∧
  classifieds_only (Part000.handle rt req s).1.
Proof.
  intros Hh (Hv & Hc & Hp). unfold classifieds_only.
  destruct rt as [| |[] []]; simplify_eq/=.
  all: unfold_part000.
  all: unfold Draft.register, Draft.login, Draft.get_classifieds, Draft.post_classifieds,
         Draft.get_classified, Draft.put_classified, Draft.delete_classified,
         Draft.get_vacancies, Draft.get_companies, Draft.get_real_estate, findIndex.
  all: cbn [draft_of Draft.users Draft.nextAdId Draft.classifieds].
  all: rewrite ?Hv, ?Hc, ?Hp.
  all: split_handler; try done.
Qed.

(** X26.  The in-memory server extends the first server.  Started with no
    vacancy, company or property, as it starts, the in-memory server
    answers every sequence of requests for which the first server has
    routes (register, login, the classifieds and the three placeholder
    lists) request by request as the first server answers it; the users,
    the counter and the classifieds end up the same, and there is still
    no vacancy, company or property. *)
Theorem in_memory_extends_draft calls s d sent :
  classifieds_only s → Draft.run (draft_of s) calls = Some (d, sent) →
  draft_of Part000.initial = Draft.initial ∧ classifieds_only Part000.initial ∧
  ∃ p, Part000.run s calls = (p, sent) ∧ draft_of p = d ∧ classifieds_only p.
Proof.
  intros Hs Hrun. split_and!; [done..|]. revert s d sent Hs Hrun.
  induction calls as [|[rt req] calls IH]; intros s d sent Hs Hrun.
  - injection Hrun as <- <-. by exists s.
  - cbn [Draft.run] in Hrun. destruct (Draft.handle rt) as [h|] eqn:Hh; [|done].
    cbn [mbind option_bind] in Hrun.
    destruct (draft_step rt h req s Hh Hs) as [Hstep Hs']. rewrite Hstep in Hrun.
    destruct (Draft.run _ calls) as [[d' sent']|] eqn:Hrest; [|done].
    cbn [mbind option_bind] in Hrun. injection Hrun as <- <-.
    destruct (IH _ _ _ Hs' Hrest) as (p & Hp & Hd & Hp').
    exists p. cbn [Part000.run].
    destruct (Part000.handle rt req s) as [s1 res]. cbn [fst snd] in *.
    by rewrite Hp.
Qed.

End Versions.

(** * The theorems at sample inputs

    Each lemma below applies a theorem above, with the runtime for ASCII
    text, to sample requests and states, and evaluates its hypotheses
    there. *)

#[local] Existing Instance ascii_runtime.

Lemma id_allocation_witness :
  let es := [Call (Api Vacancies POST) cook; Call (Api Vacancies DELETE) (with_id "1" blank);
             Restart; Call (Api Vacancies POST) cook] in
  incrementable (counter Vacancies fresh) ∧
  status (handle (Api Vacancies POST) cook fresh).2 = 201 ∧
  Api Vacancies DELETE ≠ Api Vacancies POST ∧
  - 2 ^ 53 ≤ counter Vacancies fresh ∧
  counter Vacancies fresh + Z.of_nat (length es) ≤ 2 ^ 53 ∧
  restartable fresh ∧
  status (handle Register alice fresh).2 = 201 ∧
  created_id Vacancies (handle (Api Vacancies POST) cook fresh).2 = Some 1 ∧
  counter Vacancies (handle (Api Vacancies DELETE) (with_id "1" blank) fresh).1 = 1 ∧
  (∃ s' sent, run fresh es = Some (s', sent) ∧ issued Vacancies sent = [1; 2] ∧
              NoDup (issued Vacancies sent)) ∧
  usersData_nextId (handle Register alice fresh).1 = num 1 ∧
  ∃ user, users (handle Register alice fresh).1 = [user] ∧ user !! "id" = undefined.
Proof.
  intros es.
  assert (incrementable (counter Vacancies fresh)) as Hexact
    by (split; [discriminate|reflexivity]).
  assert (status (handle (Api Vacancies POST) cook fresh).2 = 201) as Hst
    by (vm_compute; reflexivity).
  assert (Api Vacancies DELETE ≠ Api Vacancies POST) as Hne by discriminate.
  assert (- 2 ^ 53 ≤ counter Vacancies fresh) as Hlow by discriminate.
  assert (counter Vacancies fresh + Z.of_nat (length es) ≤ 2 ^ 53) as Hhigh by discriminate.
  assert (restartable fresh) as Hfresh.
  { split; [intros []; discriminate|]. exists fresh. split; [reflexivity|]. intros []; reflexivity. }
  assert (status (handle Register alice fresh).2 = 201) as Hreg by reflexivity.
  destruct (id_allocation Vacancies) as (Hpost & Hkeep & Hrun & Husers).
  destruct (Hpost cook fresh Hexact Hst) as (record & Hid & _).
  destruct (Hrun es fresh Hlow Hhigh (λ _, Hfresh)) as (s' & sent & E & _ & Hnodup & _).
  destruct (Husers alice fresh) as (Hcounter & Hnone).
  destruct (Hnone Hreg) as (_ & user & Hlist & Hnoid).
  split_and!; [exact Hexact|exact Hst|exact Hne|exact Hlow|exact Hhigh|exact Hfresh|exact Hreg|
               exact Hid|exact (Hkeep _ (with_id "1" blank) fresh Hne)| |exact Hcounter|].
  - exists s', sent. split_and!; [exact E| |exact Hnodup].
    vm_compute in E. injection E as <- <-. vm_compute. reflexivity.
  - exists user. split; [exact Hlist|exact Hnoid].
Defined.

Lemma persistence_round_trip_witness :
  let es := [Call (Api Companies POST) (shop "A"); Restart;
             Call (Api Companies PUT) (with_id "1" (shop "B"))] in
  7 ≠ 0 ∧ Forall finite [bakery; garage] ∧ Forall finite_event es ∧
  Forall (λ req, finite (body req)) [shop "A"; shop "B"; shop "C"] ∧
  Forall (λ req, Forall (λ k, truthy (body req !! k) = true) (required Companies))
    [shop "A"; shop "B"; shop "C"; shop "D"] ∧
  provided (query blank !! "category") = None ∧
  loadData (saveData "companies.json" {| nextId := num 7; items := arr [bakery; garage] |} ∅)
    "companies.json" defaults = Return {| nextId := num 7; items := arr [bakery; garage] |} ∧
  (∃ s sent, run fresh es = Some (s, sent) ∧ boot (dataDir s) = Some (set_sessions ∅ s)) ∧
  ∃ s c1 c2 c3 c4,
    (handle (Api Companies LIST) blank s).2 =
      json_response 200 [("companies", arr [c1; c2; c3])] ∧
    c1 !! "id" = num 1 ∧ c2 !! "id" = num 2 ∧ c3 !! "id" = num 3 ∧
    (handle (Api Companies POST) (shop "D") s).2 =
      json_response 201 [("message", str "Company created"); ("company", obj c4)] ∧
    c4 !! "id" = num 4.
Proof.
  intros es.
  assert (7 ≠ 0) as H7 by lia.
  assert (Forall finite [bakery; garage]) as Hitems
    by (repeat first [vm_compute; reflexivity | constructor]).
  assert (Forall finite_event es) as Hes
    by (repeat first [exact I | vm_compute; reflexivity | constructor]).
  assert (Forall (λ req, finite (body req)) [shop "A"; shop "B"; shop "C"]) as Hfinite
    by (repeat first [vm_compute; reflexivity | constructor]).
  assert (Forall (λ req, Forall (λ k, truthy (body req !! k) = true) (required Companies))
            [shop "A"; shop "B"; shop "C"; shop "D"]) as Hvalid
    by (repeat first [vm_compute; reflexivity | constructor]).
  assert (provided (query blank !! "category") = None) as Hlist by reflexivity.
  destruct persistence_round_trip as (Hfile & _ & Hexact & Hscenario).
  destruct (Hscenario (shop "A") (shop "B") (shop "C") (shop "D") blank Hfinite Hvalid Hlist)
    as (s & c1 & c2 & c3 & c4 & _ & H1 & H2 & H3 & Hget & Hpost & H4).
  split_and!; [exact H7|exact Hitems|exact Hes|exact Hfinite|exact Hvalid|exact Hlist|
               exact (Hfile _ 7 _ ∅ H7 Hitems)|exact (Hexact es Hes)|].
  exists s, c1, c2, c3, c4. split_and!; assumption.
Defined.

Lemma put_classified_price_witness :
  let s := set_classifieds [bike] fresh in
  let retitle := with_id "1" (with_body [("title", str "New")] blank) in
  let free := with_id "1" (with_body [("price", num 0)] blank) in
  find (has_id (params_id retitle)) (classifieds s) = Some (0%nat, bike) ∧
  body retitle !! "price" = undefined ∧
  body free !! "price" = num 0 ∧
  bike !! "price" = num 100 ∧
  (∃ ad', classifieds (put_classified retitle s).1 !! 0%nat = Some ad' ∧
          ad' !! "price" = num 100) ∧
  (∃ ad', classifieds (put_classified free s).1 !! 0%nat = Some ad' ∧
          ad' !! "price" = num 0).
Proof.
  intros s retitle free.
  assert (find (has_id "1") (classifieds s) = Some (0%nat, bike)) as Hfind
    by (vm_compute; reflexivity).
  assert (body retitle !! "price" = undefined) as Hnone by (vm_compute; reflexivity).
  assert (body free !! "price" = num 0) as Hzero by (vm_compute; reflexivity).
  assert (bike !! "price" = num 100) as Hbike by (vm_compute; reflexivity).
  destruct (put_classified_price retitle s 0%nat bike Hfind) as (ad1 & _ & E1 & Hkeep & _).
  destruct (put_classified_price free s 0%nat bike Hfind) as (ad2 & _ & E2 & _ & Hset & _).
  split_and!; [exact Hfind|exact Hnone|exact Hzero|exact Hbike| |].
  - exists ad1. split; [exact E1|]. exact (eq_trans (Hkeep Hnone) Hbike).
  - exists ad2. split; [exact E2|]. exact (Hset Hzero).
Defined.



Lemma loadData_total_witness :
  let stored := literal [("nextId", num 7); ("items", Some (JArr []))] in
  let d : disk := {[ "classifieds.json" := File (Document (JObj stored));
                     "users.json" := File (Garbled "{") ]} in
  d !! "vacancies.json" = None ∧
  d !! "users.json" = Some (File (Garbled "{")) ∧
  d !! "classifieds.json" = Some (File (Document (JObj stored))) ∧
  stored !! "nextId" = num 7 ∧ 7 ≠ 0 ∧ stored !! "items" = Some (JArr []) ∧
  loadData d "vacancies.json" defaults = Return defaults ∧
  loadData d "users.json" defaults = Return defaults ∧
  loadData d "classifieds.json" defaults = Return {| nextId := num 7; items := Some (JArr []) |}.
Proof.
  intros stored d.
  assert (7 ≠ 0) as H7 by lia.
  destruct (loadData_total d "vacancies.json" defaults) as (_ & Hmissing & _).
  destruct (loadData_total d "users.json" defaults) as (_ & Hgarbled & _).
  destruct (loadData_total d "classifieds.json" defaults) as (_ & _ & _ & Hstored).
  split_and!; [reflexivity|reflexivity|reflexivity|reflexivity|exact H7|reflexivity|
               exact (Hmissing (or_introl eq_refl))|
               exact (Hgarbled (or_intror (or_intror (or_introl (ex_intro _ "{" eq_refl)))))|
               exact (Hstored stored 7 [] eq_refl eq_refl H7 eq_refl)].
Defined.

Lemma put_frame_witness :
  let s := set_vacancies [acme; beta] fresh in
  let rename := with_id "1" (with_body [("title", str "Chef")] blank) in
  status (handle (Api Vacancies PUT) rename s).2 = 200 ∧
  parseInt (params_id (with_id "2" blank)) ≠ parseInt (params_id rename) ∧
  collection Vacancies s !! 1%nat = Some beta ∧
  has_id (params_id rename) beta = false ∧
  collection Vacancies (handle (Api Vacancies PUT) rename s).1 !! 1%nat = Some beta ∧
  (handle (Api Vacancies GET) (with_id "2" blank) (handle (Api Vacancies PUT) rename s).1).2 =
  (handle (Api Vacancies GET) (with_id "2" blank) s).2.
Proof.
  intros s rename.
  assert (status (handle (Api Vacancies PUT) rename s).2 = 200) as Hst
    by (vm_compute; reflexivity).
  assert (parseInt (params_id (with_id "2" blank)) ≠ parseInt (params_id rename)) as Hne
    by discriminate.
  destruct (put_frame Vacancies rename s Hst) as (_ & Hother & Hget & _).
  split_and!; [exact Hst|exact Hne|reflexivity|reflexivity|
               exact (Hother 1%nat beta eq_refl eq_refl)|
               exact (Hget (with_id "2" blank) Hne)].
Defined.

Lemma put_required_field_witness :
  let s := set_vacancies [acme; beta] fresh in
  let req := with_id "1" (with_body [("title", str "Chef"); ("company", str "")] blank) in
  find (has_id (params_id req)) (collection Vacancies s) = Some (0%nat, acme) ∧
  "company" ∈ required Vacancies ∧ "title" ∈ required Vacancies ∧
  truthy (body req !! "company") = false ∧
  truthy (body req !! "title") = true ∧
  (∃ record', collection Vacancies (handle (Api Vacancies PUT) req s).1 !! 0%nat = Some record' ∧
              record' !! "company" = str "Acme Corp") ∧
  (∃ record', collection Vacancies (handle (Api Vacancies PUT) req s).1 !! 0%nat = Some record' ∧
              record' !! "title" = str "Chef").
Proof.
  intros s req.
  assert (find (has_id (params_id req)) (collection Vacancies s) = Some (0%nat, acme))
    as Hfind by (vm_compute; reflexivity).
  assert ("company" ∈ required Vacancies) as Hcompany by (right; left).
  assert ("title" ∈ required Vacancies) as Htitle by left.
  assert (truthy (body req !! "company") = false) as Hfalsy by (vm_compute; reflexivity).
  assert (truthy (body req !! "title") = true) as Htruthy by (vm_compute; reflexivity).
  destruct (put_required_field Vacancies req s 0%nat acme "company" Hfind Hcompany)
    as (r1 & _ & E1 & Hkeep & _).
  destruct (put_required_field Vacancies req s 0%nat acme "title" Hfind Htitle)
    as (r2 & _ & E2 & _ & _ & Hset).
  split_and!; [exact Hfind|exact Hcompany|exact Htitle|exact Hfalsy|exact Htruthy| |].
  - exists r1. split; [exact E1|]. exact (Hkeep Hfalsy).
  - exists r2. split; [exact E2|]. exact (Hset Htruthy).
Defined.

Lemma ids_allocated_witness :
  ∃ s sent,
    run fresh [Call (Api Vacancies POST) cook] = Some (s, sent) ∧
    collection Vacancies s = [acme] ∧ counter Vacancies s = 2 ∧
    allocated Vacancies s ∧ acme !! "id" ≠ num 2.
Proof.
  destruct (ids_allocated [Call (Api Vacancies POST) cook])
    as (s & sent & Hrun & Halloc & _ & Hnew).
  pose proof Hrun as E. rewrite run_call in E. simpl in E. injection E as <- <-.
  exists (handle (Api Vacancies POST) cook fresh).1,
         [(Api Vacancies POST, (handle (Api Vacancies POST) cook fresh).2)].
  assert (collection Vacancies (handle (Api Vacancies POST) cook fresh).1 = [acme]) as Hl
    by (vm_compute; reflexivity).
  assert (acme ∈ collection Vacancies (handle (Api Vacancies POST) cook fresh).1) as Hin
    by (rewrite Hl; left).
  split_and!; [exact Hrun|exact Hl|reflexivity|exact (Halloc Vacancies)|
               exact (Hnew Vacancies acme Hin)].
Defined.

Lemma post_outcome_witness :
  guarded (Api Vacancies POST) = false ∧ complete Vacancies cook = true ∧
  complete Vacancies blank = false ∧
  guarded (Api Classifieds POST) = true ∧ authorized cook fresh = false ∧
  status (handle (Api Vacancies POST) cook fresh).2 = 201 ∧
  status (handle (Api Vacancies POST) blank fresh).2 = 400 ∧
  status (handle (Api Classifieds POST) cook fresh).2 = 401 ∧
  ∃ record,
    collection Vacancies (handle (Api Vacancies POST) cook fresh).1 = [record] ∧
    record !! "id" = num 1 ∧ record !! "company" = str "Acme Corp".
Proof.
  destruct (post_outcome Vacancies cook fresh) as (_ & _ & H201 & Hrecord).
  destruct (post_outcome Vacancies blank fresh) as (_ & H400 & _).
  destruct (post_outcome Classifieds cook fresh) as (H401 & _).
  assert (status (handle (Api Vacancies POST) cook fresh).2 = 201) as Hst
    by exact (proj2 H201 (conj (or_introl eq_refl) eq_refl)).
  destruct (Hrecord Hst) as (record & _ & Hl & Hid & _ & Hreq).
  split_and!; [reflexivity..|exact Hst|exact (proj2 H400 (conj (or_introl eq_refl) eq_refl))|
               exact (proj2 H401 (conj eq_refl eq_refl))|].
  exists record. split_and!; [exact Hl|exact Hid|].
  exact (Hreq "company" ltac:(right; left)).
Defined.

Lemma allocated_staffed : allocated Vacancies staffed.
Proof.
  split; [simpl; lia|]. exists [1; 2].
  split_and!; [reflexivity|repeat constructor; lia|repeat constructor; simpl; lia].
Defined.

Lemma post_then_get_witness :
  allocated Vacancies staffed ∧
  status (handle (Api Vacancies POST) cook staffed).2 = 201 ∧
  parseInt (params_id (with_id "3" blank)) = Num (counter Vacancies staffed) ∧
  unfiltered Vacancies blank ∧
  ∃ record,
    record !! "id" = num 3 ∧
    (handle (Api Vacancies GET) (with_id "3" blank)
       (handle (Api Vacancies POST) cook staffed).1).2 =
      json_response 200 [("vacancy", obj record)] ∧
    (handle (Api Vacancies LIST) blank (handle (Api Vacancies POST) cook staffed).1).2 =
      json_response 200 [("vacancies", arr [acme; beta; record])].
Proof.
  assert (status (handle (Api Vacancies POST) cook staffed).2 = 201) as Hst
    by (vm_compute; reflexivity).
  assert (unfiltered Vacancies blank) as Hplain by (split; reflexivity).
  destruct (post_then_get Vacancies cook staffed allocated_staffed Hst)
    as (record & _ & Hid & Hget & _ & Hlist).
  split_and!; [exact allocated_staffed|exact Hst|reflexivity|exact Hplain|].
  exists record. split_and!; [exact Hid|exact (Hget (with_id "3" blank) eq_refl)|
                              exact (Hlist blank Hplain)].
Defined.

Lemma delete_removes_witness :
  allocated Vacancies staffed ∧
  status (handle (Api Vacancies DELETE) (with_id "1" blank) staffed).2 = 200 ∧
  parseInt (params_id (with_id "2" blank)) ≠ parseInt (params_id (with_id "1" blank)) ∧
  collection Vacancies (handle (Api Vacancies DELETE) (with_id "1" blank) staffed).1 = [beta] ∧
  counter Vacancies (handle (Api Vacancies DELETE) (with_id "1" blank) staffed).1 = 3 ∧
  (handle (Api Vacancies GET) (with_id "2" blank)
     (handle (Api Vacancies DELETE) (with_id "1" blank) staffed).1).2 =
    json_response 200 [("vacancy", obj beta)] ∧
  (handle (Api Vacancies GET) (with_id "1" blank)
     (handle (Api Vacancies DELETE) (with_id "1" blank) staffed).1).2 =
    json_response 404 [("message", str "Vacancy not found")].
Proof.
  assert (status (handle (Api Vacancies DELETE) (with_id "1" blank) staffed).2 = 200) as Hst
    by (vm_compute; reflexivity).
  assert (parseInt (params_id (with_id "2" blank)) ≠ parseInt (params_id (with_id "1" blank)))
    as Hne by discriminate.
  destruct (delete_removes Vacancies (with_id "1" blank) staffed Hst)
    as (i & record & Hfind & _ & Hl & Hn & Hother & Hgone).
  assert (find (has_id (params_id (with_id "1" blank))) (collection Vacancies staffed) =
          Some (0%nat, acme)) as Hfirst by (vm_compute; reflexivity).
  injection (eq_trans (eq_sym Hfind) Hfirst) as -> _.
  destruct (Hgone allocated_staffed) as [Hget _].
  split_and!; [exact allocated_staffed|exact Hst|exact Hne|exact Hl|exact Hn| |exact Hget].
  exact (eq_trans (Hother (with_id "2" blank) Hne) eq_refl).
Defined.

Lemma not_found_iff_witness :
  PUT ∈ [GET; PUT; DELETE] ∧
  Forall (λ a, has_id (params_id (with_id "7" blank)) a = false) (collection Vacancies staffed) ∧
  parseInt (params_id (with_id "abc" blank)) = NaN ∧
  handle (Api Vacancies PUT) (with_id "7" blank) staffed =
    (staffed, json_response 404 [("message", str "Vacancy not found")]) ∧
  status (handle (Api Vacancies PUT) (with_id "abc" blank) staffed).2 = 404.
Proof.
  assert (PUT ∈ [GET; PUT; DELETE]) as Hv by (right; left).
  assert (Forall (λ a, has_id (params_id (with_id "7" blank)) a = false)
            (collection Vacancies staffed)) as Hnone
    by (repeat (apply List.Forall_cons || apply List.Forall_nil); reflexivity).
  destruct (not_found_iff Vacancies PUT (with_id "7" blank) staffed Hv) as (Hiff & Heq & _).
  destruct (not_found_iff Vacancies PUT (with_id "abc" blank) staffed Hv) as (_ & _ & _ & Hnan).
  split_and!; [exact Hv|exact Hnone|reflexivity|exact (Heq (proj2 Hiff Hnone))|
               exact (Hnan eq_refl)].
Defined.

Lemma failure_keeps_state_witness :
  status (handle (Api Vacancies POST) blank staffed).2 ∈ [400; 401; 404; 409] ∧
  LIST ∈ [LIST; GET] ∧
  (handle (Api Vacancies POST) blank staffed).1 = staffed ∧
  (handle (Api Vacancies LIST) blank staffed).1 = staffed.
Proof.
  assert (status (handle (Api Vacancies POST) blank staffed).2 ∈ [400; 401; 404; 409]) as Hst
    by left.
  assert (LIST ∈ [LIST; GET]) as Hv by left.
  destruct (failure_keeps_state (Api Vacancies POST) blank staffed) as (_ & Hkeep & _).
  destruct (failure_keeps_state (Api Vacancies LIST) blank staffed) as (_ & _ & Hread).
  split_and!; [exact Hst|exact Hv|exact (Hkeep Hst)|exact (Hread Vacancies LIST eq_refl Hv)].
Defined.

Lemma isolation_witness :
  Api Vacancies POST ≠ Login ∧ Api Vacancies POST ≠ Register ∧
  (∀ v, Api Vacancies POST ≠ Api Companies v) ∧
  "notes.txt" ≠ "users.json" ∧ (∀ r, "notes.txt" ≠ file_of r) ∧
  sessions (handle (Api Vacancies POST) cook staffed).1 = sessions staffed ∧
  users (handle (Api Vacancies POST) cook staffed).1 = users staffed ∧
  collection Companies (handle (Api Vacancies POST) cook staffed).1 = [] ∧
  dataDir (handle (Api Vacancies POST) cook staffed).1 !! "notes.txt" = None.
Proof.
  assert (Api Vacancies POST ≠ Login) as H1 by discriminate.
  assert (Api Vacancies POST ≠ Register) as H2 by discriminate.
  assert (∀ v, Api Vacancies POST ≠ Api Companies v) as H3 by discriminate.
  assert ("notes.txt" ≠ "users.json") as H4 by discriminate.
  assert (∀ r, "notes.txt" ≠ file_of r) as H5 by (intros []; discriminate).
  destruct (isolation (Api Vacancies POST) cook staffed) as (Hs & Hu & _ & Hr & Hf).
  destruct (Hu H2) as [Husers _]. destruct (Hr Companies H3) as [Hl _].
  split_and!; [exact H1|exact H2|exact H3|exact H4|exact H5|exact (Hs H1)|exact Husers|
               exact Hl|exact (Hf "notes.txt" H4 H5)].
Defined.

Lemma write_through_witness :
  POST ∈ [POST; PUT; DELETE] ∧
  status (handle (Api Vacancies POST) cook fresh).2 ∈ [200; 201] ∧
  ∃ record,
    dataDir (handle (Api Vacancies POST) cook fresh).1 !! "vacancies.json" =
      Some (File (JSON_stringify (literal [("nextId", num 2); ("items", arr [record])]))) ∧
    record !! "id" = num 1.
Proof.
  assert (POST ∈ [POST; PUT; DELETE]) as Hv by left.
  assert (status (handle (Api Vacancies POST) cook fresh).2 ∈ [200; 201]) as Hst
    by (right; left).
  pose proof (write_through Vacancies POST cook fresh Hv Hst) as Hdisk.
  split_and!; [exact Hv|exact Hst|].
  eexists. split; [rewrite Hdisk; apply lookup_insert_eq|reflexivity].
Defined.

Lemma register_then_login_witness :
  status (register alice fresh).2 = 201 ∧
  primitive (body alice !! "username") = true ∧ primitive (body alice !! "password") = true ∧
  strict_eq (body alice !! "password")
    (body (with_body [("username", str "alice"); ("password", str "guess")] blank)
       !! "password") = false ∧
  (login alice (register alice fresh).1).2 =
    json_response 200
      [("message", str "Login successful");
       ("token", str (entropy alice));
       ("user", obj (literal [("username", str "alice"); ("role", str "user")]))] ∧
  (login (with_body [("username", str "alice"); ("password", str "guess")] blank)
     (register alice fresh).1).2 =
    json_response 401 [("message", str "Invalid credentials")] ∧
  (register alice (register alice fresh).1).2 =
    json_response 409 [("message", str "User already exists")].
Proof.
  assert (status (register alice fresh).2 = 201) as Hst by (vm_compute; reflexivity).
  destruct (register_then_login alice fresh Hst eq_refl eq_refl) as (Hin & Hwrong & Hagain).
  split_and!; [exact Hst|reflexivity|reflexivity|reflexivity| | |].
  - exact (f_equal snd (Hin alice eq_refl eq_refl)).
  - exact (f_equal snd
             (Hwrong (with_body [("username", str "alice"); ("password", str "guess")] blank)
                eq_refl eq_refl)).
  - exact (f_equal snd (Hagain alice eq_refl eq_refl)).
Defined.

Lemma login_then_post_witness :
  let s := (register alice fresh).1 in
  let req := with_authorization (entropy alice)
               (with_body [("title", str "Bike"); ("description", str "A bike");
                           ("category", str "sport")] blank) in
  status (login alice s).2 = 200 ∧ entropy alice ≠ "" ∧
  authorization req = Some (entropy alice) ∧ complete Classifieds req = true ∧
  ∃ ad,
    (post_classifieds req (login alice s).1).2 =
      json_response 201 [("message", str "Classified created"); ("ad", obj ad)] ∧
    ad !! "owner" = str "alice" ∧ ad !! "id" = num 1.
Proof.
  intros s req.
  assert (status (login alice s).2 = 200) as Hst by (vm_compute; reflexivity).
  assert (entropy alice ≠ "") as Htoken by discriminate.
  destruct (login_then_post alice s req Hst Htoken eq_refl eq_refl) as (ad & Hres & Howner & Hid).
  split_and!; [exact Hst|exact Htoken|reflexivity|reflexivity|].
  exists ad. split_and!; [exact Hres|exact Howner|exact Hid].
Defined.

Lemma restart_drops_sessions_witness :
  let s := (register alice fresh).1 in
  let req := with_authorization (entropy alice)
               (with_body [("title", str "Bike"); ("description", str "A bike");
                           ("category", str "sport")] blank) in
  consistent s ∧ status (login alice s).2 = 200 ∧
  (entropy alice ∉ Object_prototype) ∧ authorization req = Some (entropy alice) ∧
  ∃ s', run s [Call Login alice; Restart] = Some (s', [(Login, (login alice s).2)]) ∧
        status (handle (Api Classifieds POST) req s').2 = 401 ∧
        status (login alice s').2 = 200.
Proof.
  intros s req.
  assert (consistent s) as Hs
    by (unfold consistent; simpl; repeat split; (lia || reflexivity)).
  assert (status (login alice s).2 = 200) as Hst by (vm_compute; reflexivity).
  assert (entropy alice ∉ Object_prototype) as Hproto
    by (apply (bool_decide_eq_false_1 (entropy alice ∈ Object_prototype)); reflexivity).
  destruct (restart_drops_sessions s alice req Hs Hst Hproto eq_refl)
    as (s' & Hrun & _ & Hpost & Hlogin).
  split_and!; [exact Hs|exact Hst|exact Hproto|reflexivity|].
  exists s'. split_and!; [exact Hrun|exact (f_equal (λ x, status x.2) Hpost)|
                          exact (eq_trans (f_equal status Hlogin) Hst)].
Defined.

Lemma company_filtering_witness :
  let s := set_companies [bakery; garage] fresh in
  let odd := set_companies [bakery; literal [("id", num 2); ("category", num 5)]] fresh in
  "foo" ≠ "" ∧
  Forall (λ c, ∃ t, c !! "category" = str t) (companies s) ∧
  literal [("id", num 2); ("category", num 5)] ∈ companies odd ∧
  (∀ t, literal [("id", num 2); ("category", num 5)] !! "category" ≠ str t) ∧
  (get_companies (with_query [("category", "foo")] blank) s).2 =
    json_response 200 [("companies", arr [bakery])] ∧
  (get_companies (with_query [("category", "")] blank) s).2 =
    json_response 200 [("companies", arr [bakery; garage])] ∧
  status (get_companies (with_query [("category", "foo")] blank) odd).2 = 500.
Proof.
  intros s odd.
  assert ("foo" ≠ "") as Hne by discriminate.
  assert (Forall (λ c, ∃ t, c !! "category" = str t) (companies s)) as Htyped
    by (repeat (apply List.Forall_cons || apply List.Forall_nil); eexists; reflexivity).
  assert (literal [("id", num 2); ("category", num 5)] ∈ companies odd) as Hin
    by (right; left).
  assert (∀ t, literal [("id", num 2); ("category", num 5)] !! "category" ≠ str t) as Hnum
    by discriminate.
  destruct (company_filtering s) as (Hcat & Hall & _).
  destruct (company_filtering odd) as (_ & _ & Hthrow).
  split_and!; [exact Hne|exact Htyped|exact Hin|exact Hnum| | |].
  - exact (f_equal snd (Hcat (with_query [("category", "foo")] blank) "foo" eq_refl Hne Htyped)).
  - exact (f_equal snd (Hall (with_query [("category", "")] blank) (or_intror eq_refl))).
  - exact (f_equal (λ x, status x.2)
             (Hthrow (with_query [("category", "foo")] blank) "foo" _ eq_refl Hne Hin Hnum)).
Defined.



Lemma list_answers_witness :
  unfiltered Companies blank ∧
  (handle (Api Companies LIST) blank (set_companies [bakery; garage] fresh)).2 =
    json_response 200 [("companies", arr [bakery; garage])].
Proof.
  assert (unfiltered Companies blank) as Hplain by reflexivity.
  destruct (list_answers Companies blank (set_companies [bakery; garage] fresh))
    as (_ & _ & Hall).
  split; [exact Hplain|exact (Hall Hplain)].
Defined.

Lemma boot_first_run_witness :
  let d : disk := {[ "vacancies.json" := File (Garbled "{"); "users.json" := Unreadable ]} in
  let mixed : disk :=
    {[ "vacancies.json" := File (Document (JObj (literal [("nextId", str "7")]))) ]} in
  (∀ fileName, fileName ∈ ["users.json"; "classifieds.json"; "vacancies.json";
                           "companies.json"; "realEstate.json"] → unusable d fileName) ∧
  unusable mixed (file_of Companies) ∧
  boot d = Some (set_dataDir d fresh) ∧
  counter Vacancies (set_dataDir d fresh) = 1 ∧
  collection Vacancies (set_dataDir d fresh) = [] ∧
  boot mixed = None ∧
  ∃ x, start mixed = Return x ∧ nextId (vacanciesData x) = str "7" ∧
       companiesData x = defaults.
Proof.
  intros d mixed.
  assert (∀ fileName, fileName ∈ ["users.json"; "classifieds.json"; "vacancies.json";
                                  "companies.json"; "realEstate.json"] → unusable d fileName)
    as Hd.
  { intros fileName Hin.
    repeat (apply elem_of_cons in Hin as [->|Hin]); [exact I..|].
    by apply elem_of_nil in Hin. }
  assert (unusable mixed (file_of Companies)) as Hbad by exact I.
  destruct (boot_first_run d) as (_ & _ & _ & _ & _ & Hfirst & Hempty).
  destruct (Hempty (set_dataDir d fresh) (Hfirst Hd)) as (_ & _ & Hr).
  destruct (Hr Vacancies I) as [Hn Hl].
  destruct (boot_first_run mixed) as (x & Hx & _ & _ & Hdefaults & _).
  split_and!; [exact Hd|exact Hbad|exact (Hfirst Hd)|exact Hn|exact Hl|reflexivity|].
  exists x. split_and!; [exact Hx| |exact (Hdefaults Companies Hbad)].
  vm_compute in Hx. injection Hx as <-. reflexivity.
Defined.

Lemma login_versions_witness :
  let s := (register alice fresh).1 in
  status (login alice s).2 = 200 ∧
  status (login blank s).2 ≠ 200 ∧
  (Part000.login blank (in_memory s)).2 = (login blank s).2 ∧
  ∃ o, payload (Part000.login alice (in_memory s)).2 = obj o ∧
       o !! "token" = None ∧
       payload (login alice s).2 = obj (<["token" := JStr (entropy alice)]> o).
Proof.
  intros s.
  assert (status (login alice s).2 = 200) as Hst by (vm_compute; reflexivity).
  assert (status (login blank s).2 ≠ 200) as Hfail by (vm_compute; discriminate).
  destruct (login_versions alice s) as (_ & _ & _ & _ & Htoken).
  destruct (login_versions blank s) as (_ & _ & _ & Hsame & _).
  destruct (Hsame Hfail) as [_ Heq].
  split_and!; [exact Hst|exact Hfail|exact Heq|exact (Htoken Hst)].
Defined.

Lemma post_classifieds_versions_witness :
  let s := (login alice (register alice fresh).1).1 in
  let req := with_authorization (entropy alice)
               (with_body [("title", str "Bike"); ("description", str "A bike");
                           ("category", str "sport"); ("price", num 0)] blank) in
  authorized req s = true ∧
  status (post_classifieds req s).2 = 201 ∧
  ∃ ad ad',
    classifieds (post_classifieds req s).1 = [ad] ∧
    Part000.classifieds (Part000.post_classifieds req (in_memory s)).1 = [ad'] ∧
    ad' !! "title" = ad !! "title" ∧ ad' !! "owner" = None.
Proof.
  intros s req.
  assert (authorized req s = true) as Hauth by (vm_compute; reflexivity).
  assert (status (post_classifieds req s).2 = 201) as Hst by (vm_compute; reflexivity).
  destruct (post_classifieds_versions req s Hauth) as (_ & _ & _ & Hcreated).
  destruct (Hcreated Hst) as (ad & ad' & Hl & Hl' & Howner & Hsame & _).
  assert ("title" ≠ "owner") as H1 by discriminate.
  assert ("title" ≠ "price") as H2 by discriminate.
  split_and!; [exact Hauth|exact Hst|]. exists ad, ad'.
  split_and!; [exact Hl|exact Hl'|exact (Hsame "title" H1 H2)|exact Howner].
Defined.

Lemma put_then_get_witness :
  let rename := with_id "1" (with_body [("title", str "Chef")] blank) in
  status (handle (Api Vacancies PUT) rename staffed).2 = 200 ∧
  ∃ record',
    (handle (Api Vacancies GET) rename (handle (Api Vacancies PUT) rename staffed).1).2 =
      json_response 200 [("vacancy", obj record')] ∧
    (handle (Api Vacancies PUT) rename staffed).2 =
      json_response 200 [("message", str "Vacancy updated"); ("vacancy", obj record')].
Proof.
  intros rename.
  assert (status (handle (Api Vacancies PUT) rename staffed).2 = 200) as Hst
    by (vm_compute; reflexivity).
  destruct (put_then_get Vacancies rename staffed Hst) as (i & record' & Hput & _ & _ & Hget).
  split; [exact Hst|]. exists record'. split; [exact Hget|exact Hput].
Defined.

Lemma persisted_simulates_witness :
  let calls := [(Api Vacancies POST, cook); (Api Vacancies DELETE, with_id "1" blank);
                (Api Vacancies LIST, blank)] in
  Forall (λ c, shared c.1 c.2) calls ∧
  ∃ s' sent,
    run fresh ((λ c, Call c.1 c.2) <$> calls) = Some (s', sent) ∧
    Part000.run Part000.initial calls = (in_memory s', sent) ∧
    sent.*1 = [Api Vacancies POST; Api Vacancies DELETE; Api Vacancies LIST].
Proof.
  intros calls.
  assert (Forall (λ c, shared c.1 c.2) calls) as Hcalls.
  { repeat (apply List.Forall_cons || apply List.Forall_nil); try exact I.
    split; reflexivity. }
  destruct (persisted_simulates calls fresh Hcalls) as (Hfresh & s' & sent & Hrun & Hmem).
  split; [exact Hcalls|]. exists s', sent.
  split_and!; [exact Hrun|exact (eq_trans (f_equal (λ p, Part000.run p calls) (eq_sym Hfresh)) Hmem)|].
  pose proof Hrun as E. unfold calls in E. rewrite !fmap_cons in E. cbn [fst snd] in E.
  rewrite !run_call in E. simpl in E. injection E as _ <-. reflexivity.
Defined.

Lemma in_memory_extends_draft_witness :
  let calls := [(Api Classifieds POST,
                 with_body [("title", str "Bike"); ("description", str "A bike");
                            ("category", str "sport")] blank);
                (Api Vacancies LIST, blank);
                (Api Classifieds GET, with_id "1" blank)] in
  classifieds_only Part000.initial ∧
  ∃ d sent p,
    Draft.run (draft_of Part000.initial) calls = Some (d, sent) ∧
    Part000.run Part000.initial calls = (p, sent) ∧ draft_of p = d ∧
    Draft.run (draft_of Part000.initial) [(Api Vacancies POST, cook)] = None.
Proof.
  intros calls.
  assert (classifieds_only Part000.initial) as Hs by (repeat split).
  destruct (Draft.run (draft_of Part000.initial) calls) as [[d sent]|] eqn:Hrun;
    [|vm_compute in Hrun; discriminate Hrun].
  destruct (in_memory_extends_draft calls Part000.initial d sent Hs Hrun)
    as (_ & _ & p & Hp & Hd & _).
  split; [exact Hs|]. exists d, sent, p.
  split_and!; [reflexivity|exact Hp|exact Hd|reflexivity].
Defined.

Lemma sessions_persist_witness :
  let s := (login alice (register alice fresh).1).1 in
  let req := with_authorization (entropy alice)
               (with_body [("title", str "Bike"); ("description", str "A bike");
                           ("category", str "sport")] blank) in
  is_Some (index (sessions s) (entropy alice)) ∧
  (Api Vacancies POST ≠ Login ∨ entropy cook ≠ entropy alice) ∧
  authorized req s = true ∧
  is_Some (index (sessions (handle (Api Vacancies POST) cook s).1) (entropy alice)) ∧
  index (sessions (handle (Api Vacancies POST) cook s).1) (entropy alice) =
    index (sessions s) (entropy alice) ∧
  authorized req (handle (Api Vacancies POST) cook s).1 = true.
Proof.
  intros s req.
  assert (is_Some (index (sessions s) (entropy alice))) as Hsome
    by (eexists; vm_compute; reflexivity).
  assert (Api Vacancies POST ≠ Login ∨ entropy cook ≠ entropy alice) as Hne
    by (left; discriminate).
  assert (authorized req s = true) as Hauth by (vm_compute; reflexivity).
  destruct (sessions_persist (Api Vacancies POST) cook s (entropy alice))
    as (Hkeep & Hsame & Hstill).
  split_and!; [exact Hsome|exact Hne|exact Hauth|exact (Hkeep Hsome)|exact (Hsame Hne)|
               exact (Hstill req Hauth)].
Defined.

Lemma post_ignores_other_fields_witness :
  let req := with_body [("id", num 99); ("title", str "Cook"); ("company", str "Acme Corp");
                        ("description", str "Kitchen work"); ("owner", str "mallory");
                        ("dateCreated", str "1999-01-01T00:00:00.000Z")] blank in
  status (handle (Api Vacancies POST) req fresh).2 = 201 ∧
  ("owner" ∉ stored_fields Vacancies) ∧
  ∃ record,
    (handle (Api Vacancies POST) req fresh).2 =
      json_response 201 [("message", str "Vacancy created"); ("vacancy", obj record)] ∧
    record !! "id" = num 1 ∧ record !! "owner" = None ∧
    record !! "dateCreated" = str (clock blank).
Proof.
  intros req.
  assert (status (handle (Api Vacancies POST) req fresh).2 = 201) as Hst
    by (vm_compute; reflexivity).
  assert ("owner" ∉ stored_fields Vacancies) as Hk
    by (apply (bool_decide_eq_false_1 ("owner" ∈ stored_fields Vacancies)); reflexivity).
  destruct (post_ignores_other_fields Vacancies req fresh Hst)
    as (record & Hres & Hkeys & Hid & Hdate & _).
  split_and!; [exact Hst|exact Hk|]. exists record.
  split_and!; [exact Hres|exact Hid|exact (Hkeys "owner" Hk)|exact Hdate].
Defined.

Lemma register_outcome_witness :
  truthy (body blank !! "username") = false ∧
  truthy (body alice !! "username") = true ∧ truthy (body alice !! "password") = true ∧
  Forall (λ user, strict_eq (user !! "username") (body alice !! "username") = false)
    (users fresh) ∧
  status (register blank fresh).2 = 400 ∧
  status (register alice fresh).2 = 201 ∧
  ∃ user,
    users (register alice fresh).1 = [user] ∧ user !! "password" = str "secret" ∧
    dataDir (register alice fresh).1 !! "users.json" =
      Some (File (JSON_stringify (literal [("nextId", num 1); ("items", arr [user])]))).
Proof.
  assert (Forall (λ user, strict_eq (user !! "username") (body alice !! "username") = false)
            (users fresh)) as Hnew by apply List.Forall_nil.
  destruct (register_outcome blank fresh) as (H400 & _).
  destruct (register_outcome alice fresh) as (_ & _ & H201 & Hstored).
  assert (status (register alice fresh).2 = 201) as Hst
    by exact (proj2 H201 (conj eq_refl (conj eq_refl Hnew))).
  destruct (Hstored Hst) as (user & Huser & Husers & _ & Hdisk).
  split_and!; [reflexivity|reflexivity|reflexivity|exact Hnew|
               exact (proj2 H400 (or_introl eq_refl))|exact Hst|].
  exists user. split_and!; [exact Husers| |].
  - rewrite Huser. reflexivity.
  - rewrite Hdisk. apply lookup_insert_eq.
Defined.

Lemma usernames_unique_witness :
  let es := [Call Register alice; Restart; Call Register alice] in
  let overflow := with_body [("username", Some (JInf false)); ("password", str "secret")]
                    blank in
  (Restart ∈ es → Forall finite_registration es) ∧
  body overflow !! "username" = Some (JInf false) ∧
  truthy (body overflow !! "password") = true ∧
  (∃ s sent, run fresh es = Some (s, sent) ∧ length (users s) = 1%nat ∧
             Forall account (users s)) ∧
  ∃ s user, run fresh [Call Register overflow; Restart] =
              Some (s, [(Register,
                         json_response 201
                           [("message", str "User registered successfully")])]) ∧
            users s = [user] ∧ user !! "username" = null.
Proof.
  intros es overflow.
  assert (Restart ∈ es → Forall finite_registration es) as Hes.
  { intros _. repeat first [exact I | vm_compute; reflexivity | constructor]. }
  assert (body overflow !! "username" = Some (JInf false)) as Hname by reflexivity.
  assert (truthy (body overflow !! "password") = true) as Hpass by reflexivity.
  destruct usernames_unique as (Hunique & Hlost).
  destruct (Hunique es Hes) as (s & sent & Hrun & Haccounts & _).
  destruct (Hlost overflow false Hname Hpass) as (s' & user & Hrun' & Husers & Hnull & _).
  split_and!; [exact Hes|exact Hname|exact Hpass| |].
  - exists s, sent. split_and!; [exact Hrun| |exact Haccounts].
    vm_compute in Hrun. injection Hrun as <- _. reflexivity.
  - exists s', user. split_and!; [exact Hrun'|exact Husers|exact Hnull].
Defined.
